(** * Dispatch: participant service and message-template renderer

    A shallow embedding of
    - [src/dispatch/participant/service.py] (module [ParticipantService]),
    - [render_message_template] of [src/dispatch/messaging/strings.py]
      (modules [Strings] and [StringsHeap]),
    - the revision 74d279f6e4f6 of the tenant schema (module [Migration]),
    of the properties the specification states about them, and of further
    properties that the code shows. *)

From Stdlib Require Import ZArith Lia.
From stdpp Require Import gmap strings list fin_maps.

(** ** Python exceptions and fallible computations *)

Inductive exn :=
| KeyError                (* dict[key] on a missing key *)
| TypeError               (* operation on a value of the wrong type *)
| AttributeError          (* attribute access on None / a non-object *)
| MultipleResultsFound    (* Query.one_or_none() on more than one row *)
| UnmappedInstanceError   (* Session.delete(None) *)
| TemplateError.          (* failure raised by the template engine *)

Inductive result (A : Type) :=
| Ok (a : A)
| Raise (e : exn).
Arguments Ok {A} a.
Arguments Raise {A} e.

Definition result_bind {A B} (f : A → result B) (r : result A) : result B :=
  match r with
  | Ok a => f a
  | Raise e => Raise e
  end.

Notation "'do' x <- m ; k" := (result_bind (fun x => k) m)
  (at level 10, x pattern, m at level 100, k at level 200,
   format "'[v' 'do'  x  <-  m ; '/' k ']'").

#[global] Instance exn_eq_dec : EqDecision exn.
Proof. solve_decision. Defined.

Lemma result_bind_Ok {A B} (f : A → result B) (r : result A) (b : B) :
  result_bind f r = Ok b → ∃ a, r = Ok a ∧ f a = Ok b.
Proof. destruct r as [a|e]; simpl; [eauto | discriminate]. Qed.

(** ** The participant service *)

Module ParticipantService.

(** A column value of a database row. *)
Inductive value :=
| VNone
| VInt (z : Z)
| VStr (s : string).

#[global] Instance value_eq_dec : EqDecision value.
Proof. solve_decision. Defined.

(** [dispatch.service.models.Service]: only its primary key is used here. *)
Record Service := { service_pk : Z }.

#[global] Instance Service_eq_dec : EqDecision Service.
Proof. solve_decision. Defined.

(** [ParticipantRoleCreate] and [ParticipantRole]: the role specification and
    the role record; a role is active while [renounced_at] is unset. *)
Record ParticipantRoleCreate := { role_in : string }.
Record ParticipantRole := { role : string; renounced_at : option Z }.

#[global] Instance ParticipantRole_eq_dec : EqDecision ParticipantRole.
Proof. solve_decision. Defined.

(** The ORM object [Participant]: its table columns (what [participant.dict()]
    enumerates, and what [setattr] writes), and its two relationships. *)
Record Participant := {
  columns : gmap string value;
  service : option Service;
  participant_roles : list ParticipantRole;
}.

(** Reading a column; an unset column is NULL / [None]. *)
Definition col (p : Participant) (c : string) : value :=
  default VNone (columns p !! c).

(** [ParticipantCreate], with the fields that [get_or_create] and [create]
    use. [pc_service] is the [{"id": service_id}] reference. *)
Record ParticipantCreate := {
  pc_participant_roles : list ParticipantRoleCreate;
  pc_team : value;
  pc_department : value;
  pc_location : value;
  pc_service : option Z;
}.

(** A contact plugin instance: [instance.get(email)] returns a mapping that
    may hold "location", "team" and "department", or [None] when the lookup
    returns nothing. *)
Definition ContactPlugin := string → option (gmap string value).

(** The database session: the participant table keyed by primary key, and
    the tables the collaborators read. *)
Record Session := {
  participant_table : gmap Z Participant;
  incident_table : gmap Z Z;            (* incident id -> incident.project.id *)
  individual_table : gmap Z string;     (* individual contact id -> email *)
  service_table : gmap Z Service;
  plugin_table : gmap Z ContactPlugin;  (* project id -> active contact plugin *)
}.

Definition set_participants (db : Session) (t : gmap Z Participant) : Session :=
  {| participant_table := t;
     incident_table := incident_table db;
     individual_table := individual_table db;
     service_table := service_table db;
     plugin_table := plugin_table db |}.

(** *** Collaborators (not part of this file's source) *)

(** Modelled from the spec: the incident lookup collaborator
    [incident_service.get], "get(incident_id) -> Incident with .project.id
    accessible"; an absent incident is [None]. *)
Definition incident_service_get (db : Session) (incident_id : Z) : option Z :=
  incident_table db !! incident_id.

(** Modelled from the spec: the individual contact lookup collaborator
    [individual_service.get], "get(individual_id) -> IndividualContact with
    .email". *)
Definition individual_service_get (db : Session) (individual_id : Z) : option string :=
  individual_table db !! individual_id.

(** Modelled from the spec: the contact enrichment plugin registry
    [plugin_service.get_active_instance], "optional, resolved per-project". *)
Definition plugin_service_get_active_instance (db : Session) (project_id : Z)
  : option ContactPlugin :=
  plugin_table db !! project_id.

(** Modelled from the spec: the service lookup collaborator
    [service_service.get], "get(service_id) -> Service"; [service_id] may be
    [None], for which no record is found. *)
Definition service_service_get (db : Session) (service_id : option Z) : option Service :=
  service_id ≫= λ i, service_table db !! i.

(** Modelled from the spec: the role creation collaborator
    [participant_role_service.create], "create(role_spec) -> RoleRecord": a new
    active role record for the given role name. *)
Definition participant_role_service_create (r : ParticipantRoleCreate) : ParticipantRole :=
  {| role := role_in r; renounced_at := None |}.

(** *** Queries *)

(** [Query.one_or_none()] over the rows that satisfy a filter. *)
Definition one_or_none (rows : list (Z * Participant)) : result (option (Z * Participant)) :=
  match rows with
  | [] => Ok None
  | [r] => Ok (Some r)
  | _ => Raise MultipleResultsFound
  end.

Definition query (db : Session) (P : Participant → bool) : list (Z * Participant) :=
  List.filter (λ r, P r.2) (map_to_list (participant_table db)).

Definition value_eqb (a b : value) : bool := bool_decide (a = b).

(** [get]: [filter(Participant.id == participant_id).first()]. *)
Definition get (db : Session) (participant_id : Z) : option Participant :=
  participant_table db !! participant_id.

Definition has_active_role (r : string) (p : Participant) : bool :=
  existsb (λ pr, bool_decide (renounced_at pr = None) && bool_decide (role pr = r))
          (participant_roles p).

Definition get_by_incident_id_and_role (db : Session) (incident_id : Z) (r : string)
  : result (option Participant) :=
  do o <- one_or_none (query db (λ p,
         value_eqb (col p "incident_id") (VInt incident_id) && has_active_role r p));
  Ok (snd <$> o).

Definition has_email (db : Session) (email : string) (p : Participant) : bool :=
  match col p "individual_contact_id" with
  | VInt i => bool_decide (individual_table db !! i = Some email)
  | _ => false
  end.

Definition get_by_incident_id_and_email (db : Session) (incident_id : Z) (email : string)
  : result (option Participant) :=
  do o <- one_or_none (query db (λ p,
         value_eqb (col p "incident_id") (VInt incident_id) && has_email db email p));
  Ok (snd <$> o).

Definition get_by_incident_id_and_service_id (db : Session) (incident_id service_id : Z)
  : result (option Participant) :=
  do o <- one_or_none (query db (λ p,
         value_eqb (col p "incident_id") (VInt incident_id)
         && value_eqb (col p "service_id") (VInt service_id)));
  Ok (snd <$> o).

Definition get_by_incident_id_and_conversation_id
    (db : Session) (incident_id : Z) (user_conversation_id : string)
  : result (option Participant) :=
  do o <- one_or_none (query db (λ p,
         value_eqb (col p "incident_id") (VInt incident_id)
         && value_eqb (col p "user_conversation_id") (VStr user_conversation_id)));
  Ok (snd <$> o).

(** [get_all] and [get_all_by_incident_id] return queries without ORDER BY:
    the rows come in an order that the code does not fix, and only the rows
    listed, with their multiplicities, are meaningful. *)
Definition get_all (db : Session) : list Participant :=
  snd <$> query db (λ _, true).

Definition get_all_by_incident_id (db : Session) (incident_id : Z) : list Participant :=
  snd <$> query db (λ p, value_eqb (col p "incident_id") (VInt incident_id)).

(** *** create *)

(** [db_session.add(participant); db_session.commit()]: the row receives a
    fresh primary key, and the flush writes the foreign key column of the
    [service] relationship. *)
Definition add_and_commit (db : Session) (p : Participant) : Session * (Z * Participant) :=
  let pk := fresh (dom (participant_table db)) in
  let cols := <["id" := VInt pk]> (columns p) in
  let cols := match service p with
              | Some s => <["service_id" := VInt (service_pk s)]> cols
              | None => cols
              end in
  let p' := {| columns := cols; service := service p;
               participant_roles := participant_roles p |} in
  (set_participants db (<[pk := p']> (participant_table db)), (pk, p')).

(** [participant_in.dict(exclude={"participant_roles", "service"})]. *)
Definition ParticipantCreate_dict (pin : ParticipantCreate) : gmap string value :=
  <["team" := pc_team pin]> (<["department" := pc_department pin]>
    (<["location" := pc_location pin]> ∅)).

Definition create (db : Session) (participant_in : ParticipantCreate)
  : Session * (Z * Participant) :=
  let participant_roles :=
    participant_role_service_create <$> pc_participant_roles participant_in in
  let service :=
    match pc_service participant_in with
    | Some i => service_service_get db (Some i)
    | None => None
    end in
  let participant :=
    {| columns := ParticipantCreate_dict participant_in;
       service := service;
       participant_roles := participant_roles |} in
  add_and_commit db participant.

(** *** get_or_create *)

(** Python truthiness of [service_id]. *)
Definition service_id_truthy (service_id : option Z) : bool :=
  match service_id with
  | Some z => negb (z =? 0)%Z
  | None => false
  end.

(** [individual_info.get(field, "Unknown")]. *)
Definition info_get (individual_info : gmap string value) (field : string) : value :=
  default (VStr "Unknown") (individual_info !! field).

Definition get_or_create (db : Session) (incident_id individual_id : Z)
    (service_id : option Z) (participant_roles_in : list ParticipantRoleCreate)
  : result (Session * (Z * Participant)) :=
  do participant <- one_or_none (query db (λ p,
      value_eqb (col p "incident_id") (VInt incident_id)
      && value_eqb (col p "individual_contact_id") (VInt individual_id)));
  match participant with
  | None =>
      let incident := incident_service_get db incident_id in
      let individual_contact := individual_service_get db individual_id in
      (* incident.project.id *)
      do project_id <- match incident with
                   | Some pr => Ok pr
                   | None => Raise AttributeError
                   end;
      let contact_plugin := plugin_service_get_active_instance db project_id in
      do individual_info <- match contact_plugin with
                        | Some plugin =>
                            (* individual_contact.email *)
                            match individual_contact with
                            | Some email => Ok (plugin email)
                            | None => Raise AttributeError
                            end
                        | None => Ok (Some ∅)
                        end;
      (* individual_info.get *)
      do individual_info <- match individual_info with
                            | Some info => Ok info
                            | None => Raise AttributeError
                            end;
      let location := info_get individual_info "location" in
      let team := info_get individual_info "team" in
      let department := info_get individual_info "department" in
      let participant_in :=
        {| pc_participant_roles := participant_roles_in;
           pc_team := team;
           pc_department := department;
           pc_location := location;
           pc_service := if service_id_truthy service_id then service_id else None |} in
      Ok (create db participant_in)
  | Some (pk, participant) =>
      (* we add additional roles to the participant *)
      let roles := participant_roles participant
                   ++ (participant_role_service_create <$> participant_roles_in) in
      let participant :=
        match service participant with
        | None =>
            (* we only associate the service with the participant once *)
            match service_service_get db service_id, service_id with
            | Some s, Some i =>
                {| columns := <["service_id" := VInt i]> (columns participant);
                   service := Some s;
                   participant_roles := roles |}
            | _, _ =>
                {| columns := columns participant; service := None;
                   participant_roles := roles |}
            end
        | Some s =>
            {| columns := columns participant; service := Some s;
               participant_roles := roles |}
        end in
      Ok (set_participants db (<[pk := participant]> (participant_table db)),
          (pk, participant))
  end.

(** *** update and delete *)

(** The loop of [update]: every column of the row that is named in
    [update_data] is overwritten; other keys of [update_data] are ignored.
    This is what [setattr] and [commit] do for update data that names neither
    the primary key nor the foreign key of the service (see [leaves_keys]):
    for these two the session would also move the row or reload the service,
    which is not modelled, and the theorems on [update] that depend on it
    exclude such data. *)
Definition apply_update (table_columns : list string) (update_data : gmap string value)
    (p : Participant) : Participant :=
  {| columns :=
       foldl (λ cols field,
                match update_data !! field with
                | Some v => <[field := v]> cols
                | None => cols
                end) (columns p) table_columns;
     service := service p;
     participant_roles := participant_roles p |}.

Definition update (table_columns : list string) (db : Session) (pk : Z)
    (update_data : gmap string value) : Session :=
  set_participants db (alter (apply_update table_columns update_data) pk
                             (participant_table db)).

Definition delete (db : Session) (participant_id : Z) : result Session :=
  match participant_table db !! participant_id with
  | Some _ => Ok (set_participants db (base.delete participant_id (participant_table db)))
  | None => Raise UnmappedInstanceError
  end.

(** The four mutating operations of the service, as the steps of a state
    machine over sessions. *)
Inductive operation :=
| OpGetOrCreate (incident_id individual_id : Z) (service_id : option Z)
                (participant_roles_in : list ParticipantRoleCreate)
| OpCreate (participant_in : ParticipantCreate)
| OpUpdate (pk : Z) (update_data : gmap string value)
| OpDelete (participant_id : Z).

Definition run (table_columns : list string) (op : operation) (db : Session)
  : result Session :=
  match op with
  | OpGetOrCreate i c s rs => do r <- get_or_create db i c s rs; Ok r.1
  | OpCreate pin => Ok (create db pin).1
  | OpUpdate pk d => Ok (update table_columns db pk d)
  | OpDelete pk => delete db pk
  end.

(** The update specification does not name the foreign key of the service. *)
Definition leaves_service (op : operation) : Prop :=
  match op with
  | OpUpdate _ d => d !! "service_id" = None
  | _ => True
  end.

(** The update specification names neither the primary key of the
    participant nor the foreign key of its service. *)
Definition names_no_key (update_data : gmap string value) : Prop :=
  update_data !! "id" = None ∧ update_data !! "service_id" = None.

Definition leaves_keys (op : operation) : Prop :=
  match op with
  | OpUpdate _ d => names_no_key d
  | _ => True
  end.

(** What the contact plugin of the project answers for the individual, as
    [get_or_create] uses it: the empty mapping when the project has no active
    plugin, [None] when the lookup returns nothing. *)
Definition contact_info (db : Session) (project individual_id : Z)
  : option (gmap string value) :=
  match plugin_table db !! project, individual_table db !! individual_id with
  | Some plugin, Some email => plugin email
  | _, _ => Some ∅
  end.

(** The filter of [get_or_create]: the row belongs to the given
    (incident, individual) pair. *)
Definition linked (incident_id individual_id : Z) (p : Participant) : bool :=
  value_eqb (col p "incident_id") (VInt incident_id)
  && value_eqb (col p "individual_contact_id") (VInt individual_id).

(** *** Example data *)

Definition ex_reporter : ParticipantRoleCreate := {| role_in := "reporter" |}.
Definition ex_observer : ParticipantRoleCreate := {| role_in := "observer" |}.

(** A session with one incident (id 7, project 1), one individual (id 3),
    two services (5 and 6), and no participant and no contact plugin. *)
Definition ex_db0 : Session :=
  {| participant_table := ∅;
     incident_table := {[ 7%Z := 1%Z ]};
     individual_table := {[ 3%Z := "ann@example.com" ]};
     service_table := {[ 5%Z := {| service_pk := 5 |}; 6%Z := {| service_pk := 6 |} ]};
     plugin_table := ∅ |}.

(** A participant of incident 7 and individual 3, as the caller links it. *)
Definition ex_linked : Participant :=
  {| columns := {[ "id" := VInt 0; "incident_id" := VInt 7;
                   "individual_contact_id" := VInt 3 ]};
     service := None;
     participant_roles := [] |}.

Definition ex_db_linked : Session :=
  set_participants ex_db0 {[ 0%Z := ex_linked ]}.

(** A contact plugin that knows the team of one address only. *)
Definition ex_plugin : ContactPlugin :=
  λ email, if bool_decide (email = "ann@example.com")
           then Some {[ "team" := VStr "SRE" ]} else Some ∅.

(** A contact plugin whose lookup returns nothing. *)
Definition ex_plugin_none : ContactPlugin := λ _, None.

Definition ex_db_plugin : Session :=
  {| participant_table := ∅;
     incident_table := incident_table ex_db0;
     individual_table := individual_table ex_db0;
     service_table := service_table ex_db0;
     plugin_table := {[ 1%Z := ex_plugin ]} |}.

Definition ex_db_plugin_none : Session :=
  {| participant_table := ∅;
     incident_table := incident_table ex_db0;
     individual_table := individual_table ex_db0;
     service_table := service_table ex_db0;
     plugin_table := {[ 1%Z := ex_plugin_none ]} |}.

(** The session and the participant after a first call of get_or_create,
    with service 5, for the linked participant. *)
Definition ex_first_call :=
  Eval vm_compute in get_or_create ex_db_linked 7 3 (Some 5%Z) [ex_reporter].

Definition ex_db_after_first : Session :=
  match ex_first_call with Ok r => r.1 | Raise _ => ex_db_linked end.

Definition ex_p_after_first : Participant :=
  match ex_first_call with Ok r => r.2.2 | Raise _ => ex_linked end.

End ParticipantService.

(** ** The message-template renderer, by value *)

Module Strings.

(** The values a button or a status mapping holds: [None] or a string
    (the members of the string enumerations are strings). *)
Inductive atom :=
| ANone
| AStr (s : string).

(** The values a block holds, and the values of the rendering context. *)
Inductive value :=
| VNone
| VStr (s : string)
| VList (l : list (gmap string atom))   (* a list of dicts, as "buttons" *)
| VDict (m : gmap string atom).         (* a dict, as "status_mapping" *)

#[global] Instance atom_eq_dec : EqDecision atom.
Proof. solve_decision. Defined.
#[global] Instance value_eq_dec : EqDecision value.
Proof. solve_decision. Defined.

Definition of_atom (a : atom) : value :=
  match a with
  | ANone => VNone
  | AStr s => VStr s
  end.

Abbreviation button := (gmap string atom).
Abbreviation block := (gmap string value).
Abbreviation context := (gmap string value).

(** Python truthiness. *)
Definition truthy (v : value) : bool :=
  match v with
  | VNone => false
  | VStr s => negb (bool_decide (s = ""))
  | VList l => negb (bool_decide (l = []))
  | VDict m => negb (bool_decide (m = ∅))
  end.

(** [d.get(k)]. *)
Definition dict_get (d : block) (k : string) : value := default VNone (d !! k).
Definition button_get (b : button) (k : string) : value :=
  default VNone (of_atom <$> b !! k).

(** [text if len(text) <= 2500 else text[:2500]]. *)
Definition truncate (text : string) : string :=
  if (String.length text <=? 2500)%nat then text else String.substring 0 2500 text.

(** The block with its text, when it has one, cut to 2500 characters. *)
Definition with_truncated_text (d : block) : block :=
  match dict_get d "text" with
  | VStr s => if bool_decide (s = "") then d else <["text" := VStr (truncate s)]> d
  | _ => d
  end.

Section render.

(** The template engine: [jinja s kwargs] is [Template(s).render(kwargs)]
    for a string [s]. *)
Variable jinja : string → context → result string.

(** [Template(source).render(kwargs)]; the engine compiles strings only. *)
Definition Template_render (source : value) (kwargs : context) : result string :=
  match source with
  | VStr s => jinja s kwargs
  | _ => Raise TypeError
  end.

(** [if d.get(k): d[k] = Template(d[k]).render(kwargs)]. *)
Definition render_field (k : string) (kwargs : context) (d : block) : result block :=
  if truthy (dict_get d k) then
    do s <- Template_render (dict_get d k) kwargs;
    Ok (<[k := VStr s]> d)
  else Ok d.

(** The title link; [None] is the [continue] of the loop. *)
Definition render_title_link (kwargs : context) (d : block) : result (option block) :=
  if truthy (dict_get d "title_link") then
    do link <- Template_render (dict_get d "title_link") kwargs;
    let d := <["title_link" := VStr link]> d in
    if bool_decide (link = "None") then Ok None          (* skip blocks with no content *)
    else if bool_decide (link = "") then Ok None         (* no real value was provided *)
    else Ok (Some d)
  else Ok (Some d).

Definition render_text (kwargs : context) (d : block) : result block :=
  if truthy (dict_get d "text") then
    do text <- Template_render (dict_get d "text") kwargs;
    Ok (<["text" := VStr (truncate text)]> d)
  else Ok d.

(** [button[k] = Template(button[k]).render(kwargs)]. *)
Definition render_button_item (k : string) (kwargs : context) (b : button)
  : result button :=
  do source <- match b !! k with
               | Some a => Ok (of_atom a)
               | None => Raise KeyError
               end;
  do s <- Template_render source kwargs;
  Ok (<[k := AStr s]> b).

Definition render_button_optional (k : string) (kwargs : context) (b : button)
  : result button :=
  if truthy (button_get b k) then render_button_item k kwargs b else Ok b.

Definition render_button (kwargs : context) (b : button) : result button :=
  do b <- render_button_item "button_text" kwargs b;
  do b <- render_button_item "button_value" kwargs b;
  do b <- render_button_optional "button_action" kwargs b;
  render_button_optional "button_url" kwargs b.

Fixpoint render_button_list (kwargs : context) (bs : list button)
  : result (list button) :=
  match bs with
  | [] => Ok []
  | b :: bs =>
      do b' <- render_button kwargs b;
      do bs' <- render_button_list kwargs bs;
      Ok (b' :: bs')
  end.

(** [if d.get("buttons"): for button in d["buttons"]: ...]. Iterating a
    string or a dict yields strings, on which [button["button_text"]] raises
    TypeError. *)
Definition render_buttons (kwargs : context) (d : block) : result block :=
  if truthy (dict_get d "buttons") then
    match dict_get d "buttons" with
    | VList bs =>
        do bs' <- render_button_list kwargs bs;
        Ok (<["buttons" := VList bs']> d)
    | _ => Raise TypeError
    end
  else Ok d.

(** [mapping[status]]. *)
Definition subscript (mapping : value) (key : value) : result value :=
  match mapping, key with
  | VDict m, VStr k =>
      match m !! k with
      | Some a => Ok (of_atom a)
      | None => Raise KeyError
      end
  | VDict m, VNone => Raise KeyError
  | _, _ => Raise TypeError
  end.

(** [if d.get("status_mapping"): d["text"] = d["status_mapping"][kwargs["status"]]]. *)
Definition render_status_mapping (kwargs : context) (d : block) : result block :=
  if truthy (dict_get d "status_mapping") then
    do status <- match kwargs !! "status" with
                 | Some v => Ok v
                 | None => Raise KeyError
                 end;
    do text <- subscript (dict_get d "status_mapping") status;
    Ok (<["text" := text]> d)
  else Ok d.

(** The first half of the loop body, up to the buttons: [None] when the
    block is skipped by [continue]. *)
Definition render_before_status (kwargs : context) (d : block) : result (option block) :=
  do d <- render_field "header" kwargs d;
  do d <- render_field "title" kwargs d;
  do r <- render_title_link kwargs d;
  match r with
  | None => Ok None
  | Some d =>
      do d <- render_text kwargs d;
      do d <- render_buttons kwargs d;
      Ok (Some d)
  end.

(** The second half of the loop body, from the status mapping on. *)
Definition render_from_status (kwargs : context) (d : block) : result block :=
  do d <- render_status_mapping kwargs d;
  do d <- render_field "datetime" kwargs d;
  render_field "context" kwargs d.

(** The body of the loop: [None] when the block is skipped, the rendered
    block that is appended to [data] otherwise. *)
Definition render_block (kwargs : context) (d : block) : result (option block) :=
  do r <- render_before_status kwargs d;
  match r with
  | None => Ok None
  | Some d => do d <- render_from_status kwargs d; Ok (Some d)
  end.

Fixpoint render_loop (kwargs : context) (new_copy : list block) (data : list block)
  : result (list block) :=
  match new_copy with
  | [] => Ok data
  | d :: rest =>
      do r <- render_block kwargs d;
      match r with
      | None => render_loop kwargs rest data
      | Some d' => render_loop kwargs rest (data ++ [d'])
      end
  end.

(** [render_message_template(message_template, kwargs)] by value: every
    entry of the list is rendered on its own. The source writes in place to a
    deep copy, which keeps the sharing of its input, so that a block or a
    button list that is reached twice is rendered twice: that is
    [StringsHeap.render_message_template], and this definition is its value
    only on templates whose dicts and lists are all separate objects
    ([StringsTree.good_template]). *)
Definition render_message_template (message_template : list block) (kwargs : context)
  : result (list block) :=
  render_loop kwargs message_template [].

(** The block has a title link that is rendered (it is present and not
    empty) and that resolves to the empty string or to "None". *)
Definition title_link_dropped (kwargs : context) (d : block) : bool :=
  truthy (dict_get d "title_link")
  && match Template_render (dict_get d "title_link") kwargs with
     | Ok link => bool_decide (link = "None") || bool_decide (link = "")
     | Raise _ => false
     end.



(** The engine returns the string as it is, under every context. (A string
    without placeholder need not be such a string: jinja2 drops a newline at
    the end of a template.) *)
Definition plain (s : string) : Prop := ∀ kwargs, jinja s kwargs = Ok s.

Definition plain_value (v : value) : Prop :=
  match v with
  | VStr s => plain s
  | _ => truthy v = false
  end.

Definition plain_button (b : button) : Prop :=
  (∃ s, b !! "button_text" = Some (AStr s) ∧ plain s)
  ∧ (∃ s, b !! "button_value" = Some (AStr s) ∧ plain s)
  ∧ plain_value (button_get b "button_action")
  ∧ plain_value (button_get b "button_url").

(** A block without templated fields: the engine returns every field that
    the renderer templates as it is (also the text after its truncation), and
    there is no status mapping to look the context up in. *)
Definition plain_block (d : block) : Prop :=
  plain_value (dict_get d "header")
  ∧ plain_value (dict_get d "title")
  ∧ plain_value (dict_get d "title_link")
  ∧ plain_value (dict_get d "text")
  ∧ (∀ s, dict_get d "text" = VStr s → plain (truncate s))
  ∧ (truthy (dict_get d "buttons") = false
     ∨ ∃ bs, dict_get d "buttons" = VList bs ∧ Forall plain_button bs)
  ∧ truthy (dict_get d "status_mapping") = false
  ∧ plain_value (dict_get d "datetime")
  ∧ plain_value (dict_get d "context").

End render.

(** *** Example data *)

(** An engine for templates without placeholders: every string renders to
    itself. *)
Definition ex_engine : string → context → result string := λ s _, Ok s.

(** An engine that resolves the one placeholder "{{ticket_weblink}}" to the
    empty string, as for an undefined variable. *)
Definition ex_engine_undefined : string → context → result string :=
  λ s _, if bool_decide (s = "{{ticket_weblink}}") then Ok "" else Ok s.

Definition ex_status_descriptions : gmap string atom :=
  {[ "open" := AStr "Open"; "closed" := AStr "Closed" ]}.

Fixpoint repeat_string (n : nat) (s : string) : string :=
  match n with
  | O => ""
  | S n => s +:+ repeat_string n s
  end.

Definition ex_long_text : string := Eval vm_compute in repeat_string 2501 "a".

(** Four blocks: the second has a link that resolves to nothing, the third a
    link that is the string "None". *)
Definition ex_tpl_links : list block :=
  [ {[ "title" := VStr "A" ]};
    {[ "title" := VStr "B"; "title_link" := VStr "{{ticket_weblink}}" ]};
    {[ "title_link" := VStr "None" ]};
    {[ "title" := VStr "C"; "title_link" := VStr "https://example.com" ]} ].

Definition ex_out_links : list block :=
  [ {[ "title" := VStr "A" ]};
    {[ "title" := VStr "C"; "title_link" := VStr "https://example.com" ]} ].

(** A block whose title link is the empty string. *)
Definition ex_block_empty_link : block := {[ "title_link" := VStr "" ]}.

Definition ex_block_long_text : block := {[ "text" := VStr ex_long_text ]}.

Definition ex_block_status : block :=
  {[ "title" := VStr "Status"; "status_mapping" := VDict ex_status_descriptions ]}.

Definition ex_block_status_text : block :=
  {[ "text" := VStr ex_long_text; "status_mapping" := VDict ex_status_descriptions ]}.



Definition ex_kwargs_open : context := {[ "status" := VStr "open" ]}.

Definition ex_tpl_plain : list block :=
  [ {[ "title" := VStr "Hello"; "text" := VStr ex_long_text;
       "buttons" := VList [ {[ "button_text" := AStr "Join";
                               "button_value" := AStr "1" ]} ] ]};
    {[ "title_link" := VStr "None" ]} ].

Definition ex_out_plain : list block :=
  Eval vm_compute in
    match render_message_template ex_engine ex_tpl_plain ex_kwargs_open with
    | Ok out => out
    | Raise _ => []
    end.

End Strings.

(** ** The message-template renderer, on the heap *)

(** The renderer copies its input and then mutates the copy in place. This
    module models the objects, their identities and the mutations. *)
Module StringsHeap.
Import Strings.

Abbreviation loc := positive.

(** A Python value: an immutable value, or a reference to a mutable object. *)
Inductive val :=
| HNone
| HStr (s : string)
| HRef (l : loc).

(** A mutable object: a dict with string keys, or a list. *)
Inductive obj :=
| ODict (m : gmap string val)
| OList (xs : list val).

#[global] Instance val_eq_dec : EqDecision val.
Proof. solve_decision. Defined.
#[global] Instance obj_eq_dec : EqDecision obj.
Proof. solve_decision. Defined.

Abbreviation heap := (gmap loc obj).

(** Computations on the heap that may raise a Python exception. The outcome
    [None] is a stuck computation: a dangling reference, which no Python
    state has, or the end of the fuel of [deepcopy]. *)
Definition M (A : Type) : Type := heap → option (heap * result A).

Definition ret {A} (a : A) : M A := λ σ, Some (σ, Ok a).
Definition raise {A} (e : exn) : M A := λ σ, Some (σ, Raise e).
Definition stuck {A} : M A := λ _, None.
Definition bind {A B} (m : M A) (f : A → M B) : M B :=
  λ σ, match m σ with
       | Some (σ', Ok a) => f a σ'
       | Some (σ', Raise e) => Some (σ', Raise e)
       | None => None
       end.

Notation "'let!' x := m 'in' k" := (bind m (fun x => k))
  (at level 10, x pattern, m at level 100, k at level 200,
   format "'[v' 'let!'  x  :=  m  'in' '/' k ']'").
Notation "m ;;; k" := (bind m (fun _ => k))
  (at level 100, k at level 200, right associativity).

Definition alloc (o : obj) : M loc :=
  λ σ, let l := fresh (dom σ) in Some (<[l := o]> σ, Ok l).
Definition load (l : loc) : M obj :=
  λ σ, match σ !! l with
       | Some o => Some (σ, Ok o)
       | None => None
       end.
Definition store (l : loc) (o : obj) : M unit :=
  λ σ, Some (<[l := o]> σ, Ok tt).

(** [d.get(k)]: a method of dicts only. *)
Definition dict_get (d : val) (k : string) : M val :=
  match d with
  | HRef l =>
      let! o := load l in
      match o with
      | ODict m => ret (default HNone (m !! k))
      | OList _ => raise AttributeError
      end
  | _ => raise AttributeError
  end.

(** [d[k]] for a string [k]. *)
Definition getitem (d : val) (k : string) : M val :=
  match d with
  | HRef l =>
      let! o := load l in
      match o with
      | ODict m =>
          match m !! k with
          | Some v => ret v
          | None => raise KeyError
          end
      | OList _ => raise TypeError
      end
  | _ => raise TypeError
  end.

(** [d[k] = v] for a string [k]. *)
Definition setitem (d : val) (k : string) (v : val) : M unit :=
  match d with
  | HRef l =>
      let! o := load l in
      match o with
      | ODict m => store l (ODict (<[k := v]> m))
      | OList _ => raise TypeError
      end
  | _ => raise TypeError
  end.

(** [l.append(v)]. *)
Definition append (l : val) (v : val) : M unit :=
  match l with
  | HRef l =>
      let! o := load l in
      match o with
      | OList xs => store l (OList (xs ++ [v]))
      | ODict _ => raise AttributeError
      end
  | _ => raise AttributeError
  end.

(** Python truthiness. *)
Definition truthy (v : val) : M bool :=
  match v with
  | HNone => ret false
  | HStr s => ret (negb (bool_decide (s = "")))
  | HRef l =>
      let! o := load l in
      match o with
      | ODict m => ret (negb (bool_decide (m = ∅)))
      | OList xs => ret (negb (bool_decide (xs = [])))
      end
  end.

(** The items that [for x in v] visits: the elements of a list, the keys of a
    dict, the characters of a string. *)
Definition iter (v : val) : M (list val) :=
  match v with
  | HNone => raise TypeError
  | HStr s => ret ((λ c, HStr (String c "")) <$> String.list_ascii_of_string s)
  | HRef l =>
      let! o := load l in
      match o with
      | OList xs => ret xs
      | ODict m => ret ((λ kv, HStr kv.1) <$> map_to_list m)
      end
  end.

Fixpoint for_each {A} (f : A → M unit) (xs : list A) : M unit :=
  match xs with
  | [] => ret tt
  | x :: xs => f x ;;; for_each f xs
  end.

Fixpoint foldM {A S} (f : A → S → M S) (xs : list A) (s : S) : M S :=
  match xs with
  | [] => ret s
  | x :: xs => let! s := f x s in foldM f xs s
  end.

(** [copy.deepcopy(x, memo)]: immutable values are returned as they are; a
    list or a dict is copied once, registered in [memo] under the identity of
    the original before its items are copied, so that sharing and cycles are
    preserved. The fuel bounds the depth of the recursion. *)
Fixpoint deepcopy (fuel : nat) (x : val) (memo : gmap loc loc)
  : M (val * gmap loc loc) :=
  match fuel with
  | O => stuck
  | S fuel =>
      match x with
      | HNone | HStr _ => ret (x, memo)
      | HRef l =>
          match memo !! l with
          | Some y => ret (HRef y, memo)
          | None =>
              let! o := load l in
              match o with
              | OList xs =>
                  let! y := alloc (OList []) in
                  let! memo :=
                    foldM (λ a memo,
                             let! r := deepcopy fuel a memo in
                             append (HRef y) r.1 ;;; ret r.2)
                          xs (<[l := y]> memo) in
                  ret (HRef y, memo)
              | ODict m =>
                  let! y := alloc (ODict ∅) in
                  let! memo :=
                    foldM (λ kv memo,
                             let! r := deepcopy fuel kv.2 memo in
                             setitem (HRef y) kv.1 r.1 ;;; ret r.2)
                          (map_to_list m) (<[l := y]> memo) in
                  ret (HRef y, memo)
              end
          end
      end
  end.

Section render.

Variable jinja : string → context → result string.

(** [Template(source).render(kwargs)]; the engine compiles strings only. *)
Definition Template_render (source : val) (kwargs : context) : M string :=
  match source with
  | HStr s =>
      match jinja s kwargs with
      | Ok s' => ret s'
      | Raise e => raise e
      end
  | _ => raise TypeError
  end.

(** [if d.get(k): d[k] = Template(d[k]).render(kwargs)]. *)
Definition render_field (k : string) (kwargs : context) (d : val) : M unit :=
  let! v := dict_get d k in
  let! b := truthy v in
  if b : bool then
    let! source := getitem d k in
    let! s := Template_render source kwargs in
    setitem d k (HStr s)
  else ret tt.

(** The title link; [false] is the [continue] of the loop. *)
Definition render_title_link (kwargs : context) (d : val) : M bool :=
  let! v := dict_get d "title_link" in
  let! b := truthy v in
  if b : bool then
    let! source := getitem d "title_link" in
    let! link := Template_render source kwargs in
    setitem d "title_link" (HStr link) ;;;
    if bool_decide (link = "None") then ret false
    else if bool_decide (link = "") then ret false
    else ret true
  else ret true.

Definition render_text (kwargs : context) (d : val) : M unit :=
  let! v := dict_get d "text" in
  let! b := truthy v in
  if b : bool then
    let! source := getitem d "text" in
    let! text := Template_render source kwargs in
    setitem d "text" (HStr (truncate text))
  else ret tt.

(** [button[k] = Template(button[k]).render(kwargs)]. *)
Definition render_button_item (k : string) (kwargs : context) (button : val) : M unit :=
  let! source := getitem button k in
  let! s := Template_render source kwargs in
  setitem button k (HStr s).

Definition render_button_optional (k : string) (kwargs : context) (button : val)
  : M unit :=
  let! v := dict_get button k in
  let! b := truthy v in
  if b : bool then render_button_item k kwargs button else ret tt.

Definition render_button (kwargs : context) (button : val) : M unit :=
  render_button_item "button_text" kwargs button ;;;
  render_button_item "button_value" kwargs button ;;;
  render_button_optional "button_action" kwargs button ;;;
  render_button_optional "button_url" kwargs button.

Definition render_buttons (kwargs : context) (d : val) : M unit :=
  let! v := dict_get d "buttons" in
  let! b := truthy v in
  if b : bool then
    let! buttons := getitem d "buttons" in
    let! items := iter buttons in
    for_each (render_button kwargs) items
  else ret tt.

(** [mapping[status]], for the status of the context. *)
Definition subscript (mapping : val) (key : value) : M val :=
  match mapping with
  | HRef l =>
      let! o := load l in
      match o, key with
      | ODict m, VStr k =>
          match m !! k with
          | Some v => ret v
          | None => raise KeyError
          end
      | ODict m, VNone => raise KeyError
      | _, _ => raise TypeError
      end
  | _ => raise TypeError
  end.

Definition render_status_mapping (kwargs : context) (d : val) : M unit :=
  let! v := dict_get d "status_mapping" in
  let! b := truthy v in
  if b : bool then
    let! mapping := getitem d "status_mapping" in
    let! status := match kwargs !! "status" with
                   | Some v => ret v
                   | None => raise KeyError
                   end in
    let! text := subscript mapping status in
    setitem d "text" text
  else ret tt.

(** The body of the loop; [false] when the block is skipped. *)
Definition render_block (kwargs : context) (d : val) : M bool :=
  render_field "header" kwargs d ;;;
  render_field "title" kwargs d ;;;
  let! keep := render_title_link kwargs d in
  if keep : bool then
    render_text kwargs d ;;;
    render_buttons kwargs d ;;;
    render_status_mapping kwargs d ;;;
    render_field "datetime" kwargs d ;;;
    render_field "context" kwargs d ;;;
    ret true
  else ret false.

(** [render_message_template(message_template, kwargs)]: the result is the
    reference to the new list [data]. *)
Definition render_message_template (fuel : nat) (message_template : val)
    (kwargs : context) : M val :=
  let! data := alloc (OList []) in
  let! r := deepcopy fuel message_template ∅ in
  let new_copy := r.1 in
  let! items := iter new_copy in
  for_each (λ d, let! keep := render_block kwargs d in
                 if keep : bool then append (HRef data) d else ret tt)
           items ;;;
  ret (HRef data).

End render.

(** *** The objects of a call *)

(** With respect to the heap [σ0] at the start of a call: a value that does
    not refer to an object of [σ0], an object that holds such values only,
    and a heap that extends [σ0] by objects that do not refer back into it. *)
Definition fresh_val (σ0 : heap) (v : val) : Prop :=
  match v with
  | HRef l => σ0 !! l = None
  | _ => True
  end.

Definition fresh_obj (σ0 : heap) (o : obj) : Prop :=
  match o with
  | ODict m => map_Forall (λ _ v, fresh_val σ0 v) m
  | OList xs => Forall (fresh_val σ0) xs
  end.

Definition frame (σ0 σ : heap) : Prop :=
  (∀ l o, σ0 !! l = Some o → σ !! l = Some o)
  ∧ (∀ l o, σ !! l = Some o → σ0 !! l = None → fresh_obj σ0 o).

(** [m] keeps the invariant [I], also when it raises, and returns values
    that satisfy [Q]. *)
Definition preserves {A} (I : heap → Prop) (m : M A) (Q : A → Prop) : Prop :=
  ∀ σ σ' r, I σ → m σ = Some (σ', r) →
    I σ' ∧ match r with Ok a => Q a | Raise _ => True end.

(** *** Reading a template back from the heap *)

Definition to_atom (v : val) : atom :=
  match v with
  | HStr s => AStr s
  | _ => ANone
  end.

Definition to_button (σ : heap) (v : val) : button :=
  match v with
  | HRef l =>
      match σ !! l with
      | Some (ODict m) => to_atom <$> m
      | _ => ∅
      end
  | _ => ∅
  end.

Definition to_value (σ : heap) (v : val) : value :=
  match v with
  | HNone => VNone
  | HStr s => VStr s
  | HRef l =>
      match σ !! l with
      | Some (OList xs) => VList (to_button σ <$> xs)
      | Some (ODict m) => VDict (to_atom <$> m)
      | None => VNone
      end
  end.

Definition to_block (σ : heap) (v : val) : block :=
  match v with
  | HRef l =>
      match σ !! l with
      | Some (ODict m) => to_value σ <$> m
      | _ => ∅
      end
  | _ => ∅
  end.

Definition to_template (σ : heap) (v : val) : list block :=
  match v with
  | HRef l =>
      match σ !! l with
      | Some (OList xs) => to_block σ <$> xs
      | _ => []
      end
  | _ => []
  end.

(** *** Example data *)

(** A template of two blocks at locations 1 and 2, the first with a list of
    one button (at 3, the button at 4), both sharing the status mapping at 5;
    the list itself is at 6. *)
Definition ex_heap : heap :=
  {[ 1%positive := ODict {[ "title" := HStr "{{name}}"; "buttons" := HRef 3;
                            "status_mapping" := HRef 5 ]};
     2%positive := ODict {[ "title_link" := HStr "{{ticket_weblink}}";
                            "status_mapping" := HRef 5 ]};
     3%positive := OList [HRef 4];
     4%positive := ODict {[ "button_text" := HStr "Join {{name}}";
                            "button_value" := HStr "{{name}}" ]};
     5%positive := ODict {[ "open" := HStr "Open" ]};
     6%positive := OList [HRef 1; HRef 2] ]}.

(** An engine that resolves "{{name}}" and leaves the rest. *)
Definition ex_engine_name : string → context → result string :=
  λ s _, if bool_decide (s = "{{name}}") then Ok "Ann"
         else if bool_decide (s = "Join {{name}}") then Ok "Join Ann"
         else if bool_decide (s = "{{ticket_weblink}}") then Ok ""
         else Ok s.

Definition ex_render :=
  Eval vm_compute in
    render_message_template ex_engine_name 5 (HRef 6) ex_kwargs_open ex_heap.

(** A template that holds the same block object twice. *)
Definition ex_heap_alias : heap :=
  {[ 1%positive := ODict {[ "title_link" := HStr "{{ticket_weblink}}" ]};
     2%positive := OList [HRef 1; HRef 1] ]}.

Definition ex_render_alias :=
  Eval vm_compute in
    render_message_template ex_engine_name 5 (HRef 2) ∅ ex_heap_alias.

End StringsHeap.

(** ** The template as a tree *)

(** The renderer by value of [Strings] describes a template whose dicts and
    lists are all separate objects. This module states what that means on
    the heap of [StringsHeap]: how the value of an object is read off the
    heap, which objects a value reaches, and when a value is laid out as a
    tree. *)
Module StringsTree.

Import Strings StringsHeap.

(** What a Python value looks like when printed: the objects followed to
    their contents. *)
#[warnings="-register-all"]
Inductive tree :=
| TNone
| TStr (s : string)
| TList (ts : list tree)
| TDict (m : gmap string tree).

(** The values an object holds. *)
Definition children (o : obj) : list val :=
  match o with
  | OList xs => xs
  | ODict m => (map_to_list m).*2
  end.

Definition read_obj (rd : val → tree) (o : obj) : tree :=
  match o with
  | OList xs => TList (rd <$> xs)
  | ODict m => TDict (rd <$> m)
  end.

(** The value of [v] in the heap [σ], following references through at most
    [n] objects. *)
Fixpoint read (n : nat) (σ : heap) (v : val) {struct n} : tree :=
  match v with
  | HNone => TNone
  | HStr s => TStr s
  | HRef l =>
      match n with
      | O => TNone
      | S n =>
          match σ !! l with
          | Some o => read_obj (read n σ) o
          | None => TNone
          end
      end
  end.

(** The objects met on the way, once for every path that leads to them. *)
Fixpoint reach (n : nat) (σ : heap) (v : val) {struct n} : list loc :=
  match v with
  | HRef l =>
      match n with
      | O => []
      | S n =>
          l :: match σ !! l with
               | Some o => children o ≫= reach n σ
               | None => []
               end
      end
  | _ => []
  end.

(** Every reference met on the way is to an object of the heap, and none
    lies deeper than [n] objects. *)
Fixpoint wf (n : nat) (σ : heap) (v : val) {struct n} : Prop :=
  match v with
  | HRef l =>
      match n with
      | O => False
      | S n =>
          match σ !! l with
          | Some o => Forall (wf n σ) (children o)
          | None => False
          end
      end
  | _ => True
  end.

(** A value that is laid out as a tree of depth at most [n]: no object is
    reached twice. *)
Definition separate (n : nat) (σ : heap) (v : val) : Prop :=
  wf n σ v ∧ NoDup (reach n σ v).

(** The references among values, and a value that is none. *)
Definition refs (vs : list val) : list loc :=
  vs ≫= λ v, match v with HRef l => [l] | _ => [] end.

Definition nonref (v : val) : Prop :=
  match v with HRef _ => False | _ => True end.

(** *** The values of [Strings] *)

Definition atom_of_tree (t : tree) : atom :=
  match t with
  | TStr s => AStr s
  | _ => ANone
  end.

Definition button_of_tree (t : tree) : button :=
  match t with
  | TDict m => atom_of_tree <$> m
  | _ => ∅
  end.

Definition value_of_tree (t : tree) : value :=
  match t with
  | TNone => VNone
  | TStr s => VStr s
  | TList ts => VList (button_of_tree <$> ts)
  | TDict m => VDict (atom_of_tree <$> m)
  end.

Definition block_of_tree (t : tree) : block :=
  match t with
  | TDict m => value_of_tree <$> m
  | _ => ∅
  end.

Definition template_of_tree (t : tree) : list block :=
  match t with
  | TList ts => block_of_tree <$> ts
  | _ => []
  end.

(** A button is one object deep, the value of a field two (a list of
    buttons), a block three and a template four. *)
Definition tbutton (σ : heap) (v : val) : button := button_of_tree (read 1 σ v).
Definition tvalue (σ : heap) (v : val) : value := value_of_tree (read 2 σ v).
Definition tblock (σ : heap) (v : val) : block := block_of_tree (read 3 σ v).
Definition ttemplate (σ : heap) (v : val) : list block := template_of_tree (read 4 σ v).

(** The trees that are values of [Strings]. *)
Definition is_atom (t : tree) : Prop :=
  match t with
  | TNone | TStr _ => True
  | _ => False
  end.

Definition is_button (t : tree) : Prop :=
  match t with
  | TDict m => map_Forall (λ _, is_atom) m
  | _ => False
  end.

Definition is_value (t : tree) : Prop :=
  match t with
  | TNone | TStr _ => True
  | TList ts => Forall is_button ts
  | TDict m => map_Forall (λ _, is_atom) m
  end.

Definition is_block (t : tree) : Prop :=
  match t with
  | TDict m => map_Forall (λ _, is_value) m
  | _ => False
  end.

Definition is_template (t : tree) : Prop :=
  match t with
  | TList ts => Forall is_block ts
  | _ => False
  end.

(** A button, a field, a block and a template of separate objects. *)
Definition good_button (σ : heap) (v : val) : Prop :=
  separate 1 σ v ∧ is_button (read 1 σ v).
Definition good_value (σ : heap) (v : val) : Prop :=
  separate 2 σ v ∧ is_value (read 2 σ v).
Definition good_block (σ : heap) (v : val) : Prop :=
  separate 3 σ v ∧ is_block (read 3 σ v).
Definition good_template (σ : heap) (v : val) : Prop :=
  separate 4 σ v ∧ is_template (read 4 σ v).

(** All of this can be decided on a given heap. *)
#[global] Instance is_atom_dec (t : tree) : Decision (is_atom t).
Proof. destruct t; apply _. Defined.
#[global] Instance is_button_dec (t : tree) : Decision (is_button t).
Proof. destruct t; apply _. Defined.
#[global] Instance is_value_dec (t : tree) : Decision (is_value t).
Proof. destruct t; apply _. Defined.
#[global] Instance is_block_dec (t : tree) : Decision (is_block t).
Proof. destruct t; apply _. Defined.
#[global] Instance is_template_dec (t : tree) : Decision (is_template t).
Proof. destruct t; apply _. Defined.
#[global] Instance wf_dec (n : nat) (σ : heap) (v : val) : Decision (wf n σ v).
Proof.
  revert v. induction n as [|n IH]; intros [| |l]; simpl; try apply _.
  destruct (σ !! l); apply _.
Defined.
#[global] Instance good_template_dec (σ : heap) (v : val) :
  Decision (good_template σ v).
Proof. unfold good_template, separate. apply _. Defined.

(** *** The copy *)

(** [deepcopy] took [σ], [v] and [memo] to [σ'], [v'] and [memo']: the copy
    reads as the original, is a tree of new objects, and the objects of [σ]
    are as they were. *)
Definition copied (n : nat) (σ : heap) (v : val) (memo : gmap loc loc)
    (σ' : heap) (v' : val) (memo' : gmap loc loc) : Prop :=
  (∀ l, is_Some (σ !! l) → σ' !! l = σ !! l)
  ∧ read n σ' v' = read n σ v
  ∧ wf n σ' v'
  ∧ NoDup (reach n σ' v')
  ∧ (∀ l, is_Some (σ' !! l) ↔ is_Some (σ !! l) ∨ l ∈ reach n σ' v')
  ∧ (∀ l, l ∈ reach n σ' v' → σ !! l = None)
  ∧ (∀ l, is_Some (memo' !! l) ↔ is_Some (memo !! l) ∨ l ∈ reach n σ v).

Definition deepcopy_ok (n fuel : nat) : Prop :=
  ∀ σ v memo,
    wf n σ v → NoDup (reach n σ v) →
    (∀ l, l ∈ reach n σ v → memo !! l = None) →
    ∃ σ' v' memo',
      deepcopy fuel v memo σ = Some (σ', Ok (v', memo'))
      ∧ copied n σ v memo σ' v' memo'.

(** The dict that the copy of a dict holds after the items [done], and the
    items of a dict with their copies. *)
Definition dict_of (done : list ((string * val) * val)) : gmap string val :=
  foldl (λ m p, <[p.1.1 := p.2]> m) ∅ done.

Definition keyed (kvs : list (string * val)) (cs : list val) : list (string * val) :=
  (λ p, (p.1.1, p.2)) <$> zip kvs cs.

(** *** The loop on the copy *)

(** [σ'] is [σ] after writes to objects of [L] that added no reference. *)
Definition evolves (L : list loc) (σ σ' : heap) : Prop :=
  (∀ l, l ∉ L → σ' !! l = σ !! l)
  ∧ (∀ n v, reach n σ' v ⊆+ reach n σ v)
  ∧ (∀ n v, wf n σ v → wf n σ' v).

(** A stage of the loop body on the heap follows the stage by value: on a
    block of separate objects it runs, fails where the stage by value
    fails, and otherwise leaves the block with the value that the stage by
    value returns, writing to the objects of the block only. *)
Definition sim_step (h : val → M unit) (p : block → result block) : Prop :=
  ∀ σ d, good_block σ d →
    ∃ σ' r, h d σ = Some (σ', r)
      ∧ match p (tblock σ d) with
        | Ok b' => r = Ok tt ∧ evolves (reach 3 σ d) σ σ'
                   ∧ good_block σ' d ∧ tblock σ' d = b'
        | Raise e => r = Raise e
        end.

(** The same for a stage that may skip the block ([continue]). *)
Definition sim_opt (h : val → M bool) (p : block → result (option block)) : Prop :=
  ∀ σ d, good_block σ d →
    ∃ σ' r, h d σ = Some (σ', r)
      ∧ match p (tblock σ d) with
        | Ok (Some b') => r = Ok true ∧ evolves (reach 3 σ d) σ σ'
                          ∧ good_block σ' d ∧ tblock σ' d = b'
        | Ok None => r = Ok false ∧ evolves (reach 3 σ d) σ σ'
        | Raise e => r = Raise e
        end.

(** The same for the stages after the title link, which keep the block. *)
Definition sim_fin (h : val → M bool) (p : block → result block) : Prop :=
  ∀ σ d, good_block σ d →
    ∃ σ' r, h d σ = Some (σ', r)
      ∧ match p (tblock σ d) with
        | Ok b' => r = Ok true ∧ evolves (reach 3 σ d) σ σ'
                   ∧ good_block σ' d ∧ tblock σ' d = b'
        | Raise e => r = Raise e
        end.

(** The same for a stage on a button. *)
Definition sim_bstep (h : val → M unit) (p : button → result button) : Prop :=
  ∀ σ x, good_button σ x →
    ∃ σ' r, h x σ = Some (σ', r)
      ∧ match p (tbutton σ x) with
        | Ok b' => r = Ok tt ∧ evolves (refs [x]) σ σ'
                   ∧ good_button σ' x ∧ tbutton σ' x = b'
        | Raise e => r = Raise e
        end.

(** The state of the loop: [data] holds the blocks kept so far, and these
    and the blocks to come are separate objects that do not hold [data]. *)
Definition loop_inv (ldata : loc) (σ : heap) (acc ds : list val) : Prop :=
  σ !! ldata = Some (OList acc)
  ∧ Forall (good_block σ) (acc ++ ds)
  ∧ NoDup ((acc ++ ds) ≫= reach 3 σ)
  ∧ ldata ∉ (acc ++ ds) ≫= reach 3 σ.

Section render.

Variable jinja : string → context → result string.
Variable kwargs : context.

(** Rendering the field [k] and storing [f] of the result: the shape that
    the header, the title, the text, the datetime and the context share, on
    the heap and by value. *)
Definition hfield (f : string → string) (k : string) (d : val) : M unit :=
  let! v := dict_get d k in
  let! b := truthy v in
  if b : bool then
    let! source := getitem d k in
    let! s := Template_render jinja source kwargs in
    setitem d k (HStr (f s))
  else ret tt.

Definition pfield (f : string → string) (k : string) (d : block) : result block :=
  if Strings.truthy (Strings.dict_get d k) then
    do s <- Strings.Template_render jinja (Strings.dict_get d k) kwargs;
    Ok (<[k := VStr (f s)]> d)
  else Ok d.

(** The body of the loop of [render_message_template]. *)
Definition loop_body (ldata : loc) (d : val) : M unit :=
  let! keep := render_block jinja kwargs d in
  if keep : bool then append (HRef ldata) d else ret tt.

End render.

(** *** Example data *)

(** A template of separate objects: two blocks at locations 1 and 2, the
    first with a list of one button (at 3, the button at 4) and a status
    mapping (at 5); the list itself is at 6. *)
Definition ex_heap_separate : heap :=
  {[ 1%positive := ODict {[ "title" := HStr "{{name}}"; "buttons" := HRef 3;
                            "status_mapping" := HRef 5 ]};
     2%positive := ODict {[ "title_link" := HStr "{{ticket_weblink}}" ]};
     3%positive := OList [HRef 4];
     4%positive := ODict {[ "button_text" := HStr "Join {{name}}";
                            "button_value" := HStr "{{name}}" ]};
     5%positive := ODict {[ "open" := HStr "Open" ]};
     6%positive := OList [HRef 1; HRef 2] ]}.

End StringsTree.

(** ** The state of the participant service *)

(** What the operations of the participant service keep of a session. *)
Module ParticipantServiceState.
Import ParticipantService.

(** Every service that a participant is associated with is a record of the
    service table. *)
Definition services_exist (db : Session) : Prop :=
  ∀ k p s, participant_table db !! k = Some p → service p = Some s →
           ∃ i, service_table db !! i = Some s.

(** The tables that the participant service reads and never writes. *)
Definition same_collaborators (db db' : Session) : Prop :=
  incident_table db' = incident_table db
  ∧ individual_table db' = individual_table db
  ∧ service_table db' = service_table db
  ∧ plugin_table db' = plugin_table db.

(** *** Example data *)

(** Two participants of incident 7 that agree on everything the lookups
    filter on: the individual, an active role, the service and the
    conversation. *)
Definition ex_commander (pk : Z) : Participant :=
  {| columns := {[ "id" := VInt pk; "incident_id" := VInt 7;
                   "individual_contact_id" := VInt 3;
                   "service_id" := VInt 5;
                   "user_conversation_id" := VStr "U1" ]};
     service := Some {| service_pk := 5 |};
     participant_roles := [ {| role := "commander"; renounced_at := None |} ] |}.

Definition ex_db_one : Session :=
  set_participants ex_db0 {[ 1%Z := ex_commander 1 ]}.

Definition ex_db_two : Session :=
  set_participants ex_db0 {[ 1%Z := ex_commander 1; 2%Z := ex_commander 2 ]}.

End ParticipantServiceState.

(** ** What the renderer leaves in a block *)

(** The relation between a block, or a button, of the template and its
    rendering in the output, key by key. *)
Module StringsOutput.
Import Strings.


Section render.

Variable jinja : string → context → result string.

(** The field [k] of [d'] is the rendering of the field of [d], when that
    one is rendered at all; it is the field of [d] otherwise. *)
Definition rendered_field (kwargs : context) (k : string) (d d' : block) : Prop :=
  if truthy (dict_get d k)
  then ∃ source s, dict_get d k = VStr source ∧ jinja source kwargs = Ok s
                   ∧ d' !! k = Some (VStr s)
  else d' !! k = d !! k.

(** The same for a button, whose text and value are rendered whatever they
    hold, and whose action and url are rendered when they hold something. *)
Definition rendered_item (kwargs : context) (k : string) (b b' : button) : Prop :=
  ∃ source s, b !! k = Some (AStr source) ∧ jinja source kwargs = Ok s
              ∧ b' !! k = Some (AStr s).

Definition rendered_button (kwargs : context) (b b' : button) : Prop :=
  rendered_item kwargs "button_text" b b'
  ∧ rendered_item kwargs "button_value" b b'
  ∧ (∀ k, k ∈ ["button_action"; "button_url"] →
       if truthy (button_get b k) then rendered_item kwargs k b b'
       else b' !! k = b !! k)
  ∧ (∀ k, k ∉ ["button_text"; "button_value"; "button_action"; "button_url"] →
       b' !! k = b !! k).

(** The block renders without an exception (it may be skipped). *)
Definition renders (kwargs : context) (d : block) : Prop :=
  ∃ r, render_block jinja kwargs d = Ok r.

End render.

(** *** Example data *)

(** An engine that fails on one template and resolves "{{name}}". *)
Definition ex_engine_failing : string → context → result string :=
  λ s _, if bool_decide (s = "{{broken") then Raise TemplateError
         else if bool_decide (s = "{{name}}") then Ok "Ann"
         else Ok s.

(** A block of a daily report, with a key that the renderer does not know,
    and a block with a status mapping and no text. *)
Definition ex_block_report : block :=
  {[ "type" := VStr "header"; "text" := VStr "{{name}}" ]}.

Definition ex_block_button : block :=
  {[ "title" := VStr "{{name}}";
     "buttons" := VList [ {[ "button_text" := AStr "Join";
                             "button_value" := AStr "{{name}}";
                             "button_action" := AStr "invite";
                             "button_style" := AStr "primary" ]} ] ]}.

Definition ex_block_broken : block := {[ "title" := VStr "{{broken" ]}.


End StringsOutput.

(** ** The call of the renderer on templates of separate objects *)

(** Templates as a caller builds them from literals: every dict and every
    list is an object of its own. *)
Module StringsCall.
Import Strings StringsHeap StringsTree StringsOutput.

(** The four blocks of [ex_tpl_links] at the locations 1 to 4, their list
    at 5. *)
Definition ex_heap_links : heap :=
  {[ 1%positive := ODict {[ "title" := HStr "A" ]};
     2%positive := ODict {[ "title" := HStr "B";
                            "title_link" := HStr "{{ticket_weblink}}" ]};
     3%positive := ODict {[ "title_link" := HStr "None" ]};
     4%positive := ODict {[ "title" := HStr "C";
                            "title_link" := HStr "https://example.com" ]};
     5%positive := OList [HRef 1; HRef 2; HRef 3; HRef 4] ]}.

Definition ex_render_links :=
  Eval vm_compute in
    render_message_template ex_engine_undefined 5 (HRef 5) ∅ ex_heap_links.

(** The block [ex_block_long_text] at 1, in the list at 2. *)
Definition ex_heap_long_text : heap :=
  {[ 1%positive := ODict {[ "text" := HStr ex_long_text ]};
     2%positive := OList [HRef 1] ]}.

Definition ex_render_long_text :=
  Eval vm_compute in
    render_message_template ex_engine 5 (HRef 2) ∅ ex_heap_long_text.

(** The two blocks of [ex_tpl_plain] at 1 and 2, the button list of the
    first at 3 with its button at 4, the list of the blocks at 5. *)
Definition ex_heap_plain : heap :=
  {[ 1%positive := ODict {[ "title" := HStr "Hello"; "text" := HStr ex_long_text;
                            "buttons" := HRef 3 ]};
     2%positive := ODict {[ "title_link" := HStr "None" ]};
     3%positive := OList [HRef 4];
     4%positive := ODict {[ "button_text" := HStr "Join";
                            "button_value" := HStr "1" ]};
     5%positive := OList [HRef 1; HRef 2] ]}.

Definition ex_render_plain :=
  Eval vm_compute in
    render_message_template ex_engine 5 (HRef 5) ex_kwargs_open ex_heap_plain.

(** The block [ex_block_button] at 1, its button list at 2 with the button
    at 3, in the list at 4. *)
Definition ex_heap_button : heap :=
  {[ 1%positive := ODict {[ "title" := HStr "{{name}}"; "buttons" := HRef 2 ]};
     2%positive := OList [HRef 3];
     3%positive := ODict {[ "button_text" := HStr "Join";
                            "button_value" := HStr "{{name}}";
                            "button_action" := HStr "invite";
                            "button_style" := HStr "primary" ]};
     4%positive := OList [HRef 1] ]}.

Definition ex_render_button :=
  Eval vm_compute in
    render_message_template ex_engine_failing 5 (HRef 4) ∅ ex_heap_button.

(** The blocks [ex_block_report] and [ex_block_broken] at 1 and 2, and a
    third block at 3, in the list at 4. *)
Definition ex_heap_broken : heap :=
  {[ 1%positive := ODict {[ "type" := HStr "header"; "text" := HStr "{{name}}" ]};
     2%positive := ODict {[ "title" := HStr "{{broken" ]};
     3%positive := ODict {[ "title" := HStr "{{name}}" ]};
     4%positive := OList [HRef 1; HRef 2; HRef 3] ]}.

End StringsCall.

(** ** The revision 74d279f6e4f6 of the tenant schema *)

(** [src/dispatch/database/revisions/tenant/versions/2023-08-10_74d279f6e4f6.py]
    adds the column [health_metrics] to the table [service], and drops it
    again. The two operations of Alembic that it calls are modelled on a
    database of named tables, each with its column definitions and its rows. *)
Module Migration.

Inductive sqltype := Boolean | Integer | String | DateTime.

(** [sa.Column(name, type, nullable=...)], without the name. *)
Record Column := { column_type : sqltype; nullable : bool }.

Inductive cell :=
| Null
| Bool (b : bool)
| Int (z : Z)
| Str (s : string).

#[global] Instance sqltype_eq_dec : EqDecision sqltype.
Proof. solve_decision. Defined.
#[global] Instance Column_eq_dec : EqDecision Column.
Proof. solve_decision. Defined.
#[global] Instance cell_eq_dec : EqDecision cell.
Proof. solve_decision. Defined.

(** A row holds a cell for every column of its table. *)
Record Table := {
  table_columns : gmap string Column;
  table_rows : list (gmap string cell);
}.

Abbreviation Database := (gmap string Table).

(** The errors of the database on a statement that it cannot execute. *)
Inductive dberror :=
| UndefinedTable      (* the table does not exist *)
| DuplicateColumn     (* the column exists already *)
| UndefinedColumn     (* the column does not exist *)
| NotNullViolation.   (* a row would hold NULL in a column that is NOT NULL *)

Inductive outcome :=
| Done (db : Database)
| Failed (e : dberror).

(** [op.add_column(table_name, column)]: ALTER TABLE ... ADD COLUMN. The
    column has no default, so that every row holds NULL in it. *)
Definition add_column (table_name name : string) (column : Column) (db : Database)
  : outcome :=
  match db !! table_name with
  | None => Failed UndefinedTable
  | Some t =>
      if bool_decide (is_Some (table_columns t !! name)) then Failed DuplicateColumn
      else if negb (nullable column) && negb (bool_decide (table_rows t = []))
      then Failed NotNullViolation
      else Done (<[table_name :=
                     {| table_columns := <[name := column]> (table_columns t);
                        table_rows := (λ row, <[name := Null]> row) <$> table_rows t |}]>
                   db)
  end.

(** [op.drop_column(table_name, column_name)]: ALTER TABLE ... DROP COLUMN. *)
Definition drop_column (table_name name : string) (db : Database) : outcome :=
  match db !! table_name with
  | None => Failed UndefinedTable
  | Some t =>
      if bool_decide (is_Some (table_columns t !! name)) then
        Done (<[table_name :=
                  {| table_columns := base.delete name (table_columns t);
                     table_rows := (λ row, base.delete name row) <$> table_rows t |}]>
                db)
      else Failed UndefinedColumn
  end.

(** [upgrade()] and [downgrade()] of the revision. *)
Definition upgrade (db : Database) : outcome :=
  add_column "service" "health_metrics"
             {| column_type := Boolean; nullable := true |} db.

Definition downgrade (db : Database) : outcome :=
  drop_column "service" "health_metrics" db.

(** Every row of every table holds a cell for each column of the table, and
    for nothing else. *)
Definition well_formed (db : Database) : Prop :=
  map_Forall (λ _ t, Forall (λ row, dom row = dom (table_columns t)) (table_rows t))
             db.

(** *** Example data *)

(** A database before the revision, with two services. *)
Definition ex_service_table : Table :=
  {| table_columns := {[ "id" := {| column_type := Integer; nullable := false |};
                         "name" := {| column_type := String; nullable := true |} ]};
     table_rows := [ {[ "id" := Int 5; "name" := Str "oncall" ]};
                     {[ "id" := Int 6; "name" := Null ]} ] |}.

Definition ex_database : Database :=
  {[ "service" := ex_service_table;
     "participant" := {| table_columns := {[ "id" := {| column_type := Integer;
                                                       nullable := false |} ]};
                         table_rows := [] |} ]}.

(** The database after the revision, with the health metrics of one service
    switched on. *)
Definition ex_database_upgraded : Database :=
  {[ "service" :=
       {| table_columns := <["health_metrics" := {| column_type := Boolean;
                                                   nullable := true |}]>
                             (table_columns ex_service_table);
          table_rows := [ {[ "id" := Int 5; "name" := Str "oncall";
                             "health_metrics" := Bool true ]};
                          {[ "id" := Int 6; "name" := Null;
                             "health_metrics" := Null ]} ] |};
     "participant" := {| table_columns := {[ "id" := {| column_type := Integer;
                                                       nullable := false |} ]};
                         table_rows := [] |} ]}.

End Migration.

Module ParticipantServiceFacts.
Import ParticipantService.

(** *** Facts about queries *)

Lemma query_spec db P k p :
  (k, p) ∈ query db P ↔ participant_table db !! k = Some p ∧ P p = true.
Proof.
  unfold query. rewrite list_elem_of_In, filter_In, <- list_elem_of_In.
  by rewrite elem_of_map_to_list.
Qed.

Lemma query_NoDup db P : NoDup (query db P).
Proof.
  unfold query. apply NoDup_ListNoDup, List.NoDup_filter, NoDup_ListNoDup.
  apply NoDup_map_to_list.
Qed.

Lemma query_nil db P :
  (∀ k p, participant_table db !! k = Some p → P p = false) → query db P = [].
Proof.
  intros Hnone. destruct (query db P) as [|[k p] l] eqn:Hq; [done|].
  assert ((k, p) ∈ query db P) as [Hk HP]%query_spec by (rewrite Hq; left).
  rewrite (Hnone _ _ Hk) in HP. discriminate.
Qed.

Lemma query_singleton db P k p :
  participant_table db !! k = Some p → P p = true →
  (∀ k' p', participant_table db !! k' = Some p' → P p' = true → k' = k) →
  query db P = [(k, p)].
Proof.
  intros Hk HP Huniq.
  assert (∀ r, r ∈ query db P → r = (k, p)) as Hall.
  { intros [k' p'] [Hk' HP']%query_spec.
    pose proof (Huniq _ _ Hk' HP') as ->. congruence. }
  assert ((k, p) ∈ query db P) as Hin by (by apply query_spec).
  pose proof (query_NoDup db P) as Hnd.
  destruct (query db P) as [|a [|b l]].
  - by apply elem_of_nil in Hin.
  - f_equal. apply Hall. left.
  - exfalso. rewrite (Hall a), (Hall b) in Hnd by (repeat constructor).
    apply NoDup_cons in Hnd as [Hnin _]. apply Hnin. left.
Qed.

Lemma one_or_none_elem rows r :
  one_or_none rows = Ok (Some r) → rows = [r].
Proof. destruct rows as [|a [|b l]]; simpl; congruence. Qed.

Lemma one_or_none_None rows :
  one_or_none rows = Ok None → rows = [].
Proof. destruct rows as [|a [|b l]]; simpl; congruence. Qed.

(** *** Facts about the operations *)

Lemma add_and_commit_fresh db p :
  participant_table db !! (add_and_commit db p).2.1 = None.
Proof. simpl. apply not_elem_of_dom, is_fresh. Qed.

Lemma add_and_commit_table db p :
  participant_table (add_and_commit db p).1
  = <[(add_and_commit db p).2.1 := (add_and_commit db p).2.2]> (participant_table db).
Proof. reflexivity. Qed.

Lemma create_frame db pin k p :
  participant_table db !! k = Some p →
  participant_table (create db pin).1 !! k = Some p.
Proof.
  intros Hk. unfold create. rewrite add_and_commit_table.
  rewrite lookup_insert_ne; [done|].
  intros <-. by rewrite add_and_commit_fresh in Hk.
Qed.

Lemma apply_update_columns table_columns update_data p c :
  update_data !! c = None →
  columns (apply_update table_columns update_data p) !! c = columns p !! c.
Proof.
  intros Hc. simpl. generalize (columns p) as cols.
  induction table_columns as [|f fs IH]; intros cols; simpl; [done|].
  rewrite IH. destruct (update_data !! f) as [v|] eqn:Hf; [|done].
  apply lookup_insert_ne. congruence.
Qed.

(** The found branch of [get_or_create] keeps a service that is set. *)
Lemma get_or_create_found db i c sid rs k p :
  query db (linked i c) = [(k, p)] →
  ∃ p', get_or_create db i c sid rs
        = Ok (set_participants db (<[k := p']> (participant_table db)), (k, p'))
      ∧ participant_roles p'
        = participant_roles p ++ (participant_role_service_create <$> rs)
      ∧ (∀ s, service p = Some s → service p' = Some s ∧ columns p' = columns p)
      ∧ (∀ f, f ≠ "service_id" → columns p' !! f = columns p !! f).
Proof.
  intros Hq. unfold get_or_create. fold (linked i c). rewrite Hq. simpl.
  eexists; split; [reflexivity|].
  destruct (service p) as [s|] eqn:Hs; simpl.
  - repeat split; simpl; congruence.
  - destruct (service_service_get db sid) as [s'|], sid as [z|]; simpl;
      repeat split; try congruence.
    intros f Hf. by rewrite lookup_insert_ne.
Qed.

(** The not-found branch of [get_or_create] is a [create]. *)
Lemma get_or_create_new db i c sid rs r :
  query db (linked i c) = [] →
  get_or_create db i c sid rs = Ok r →
  ∃ pin, r = create db pin ∧ pc_participant_roles pin = rs.
Proof.
  intros Hq. unfold get_or_create. fold (linked i c). rewrite Hq. simpl.
  destruct (incident_service_get db i) as [pr|]; simpl; [|discriminate].
  destruct (plugin_service_get_active_instance db pr) as [pl|]; simpl.
  - destruct (individual_service_get db c) as [em|]; simpl; [|discriminate].
    destruct (pl em) as [info|]; simpl; [|discriminate].
    intros [= <-]. eauto.
  - intros [= <-]. eauto.
Qed.

(** The found branch on a participant without service, for a service that
    exists: the service is set, with its foreign key. *)
Lemma get_or_create_found_unset db i c A sA rs k p :
  query db (linked i c) = [(k, p)] →
  service p = None → service_table db !! A = Some sA →
  ∃ p', get_or_create db i c (Some A) rs
        = Ok (set_participants db (<[k := p']> (participant_table db)), (k, p'))
      ∧ service p' = Some sA
      ∧ columns p' = <["service_id" := VInt A]> (columns p).
Proof.
  intros Hq Hs HA. unfold get_or_create. fold (linked i c). rewrite Hq. simpl.
  rewrite Hs, HA. eexists. split; [reflexivity|]. done.
Qed.

(** One step of the service keeps the service of every participant that has
    one, unless the step deletes that participant. *)
Lemma run_keeps_service table_columns op db db' k p s :
  participant_table db !! k = Some p → service p = Some s →
  leaves_service op →
  run table_columns op db = Ok db' →
  (op = OpDelete k ∧ participant_table db' !! k = None)
  ∨ (∃ p', participant_table db' !! k = Some p' ∧ service p' = Some s
           ∧ col p' "service_id" = col p "service_id").
Proof.
  intros Hk Hs Hsafe Hrun. destruct op as [i c sid rs|pin|k' d|k']; simpl in *.
  - right. apply result_bind_Ok in Hrun as (r & Hr & [= <-]).
    destruct (one_or_none (query db (linked i c))) as [[[k1 p1]|]|e] eqn:Hq.
    + apply one_or_none_elem in Hq.
      destruct (get_or_create_found db i c sid rs k1 p1 Hq)
        as (p' & Hgc & _ & Hkeep & _).
      rewrite Hgc in Hr. injection Hr as <-. simpl.
      destruct (decide (k1 = k)) as [->|Hne].
      * assert ((k, p1) ∈ query db (linked i c)) as [Hk1 _]%query_spec
          by (rewrite Hq; left).
        assert (p1 = p) as -> by congruence.
        destruct (Hkeep s Hs) as [Hs' Hc'].
        exists p'. rewrite lookup_insert_eq. unfold col. by rewrite Hc'.
      * exists p. by rewrite lookup_insert_ne.
    + apply one_or_none_None in Hq.
      destruct (get_or_create_new db i c sid rs r Hq Hr) as (pin & -> & _).
      exists p. split; [by apply create_frame|done].
    + unfold get_or_create in Hr. fold (linked i c) in Hr. rewrite Hq in Hr.
      discriminate.
  - right. injection Hrun as <-. exists p. split; [by apply create_frame|done].
  - right. injection Hrun as <-. unfold update; simpl.
    destruct (decide (k' = k)) as [->|Hne].
    + exists (apply_update table_columns d p).
      rewrite lookup_alter_eq, Hk. repeat split; [done|].
      unfold col. by rewrite apply_update_columns.
    + exists p. by rewrite lookup_alter_ne.
  - unfold delete in Hrun.
    destruct (participant_table db !! k') as [q|] eqn:Hk'; [|discriminate].
    injection Hrun as <-. simpl.
    destruct (decide (k' = k)) as [->|Hne].
    + left. by rewrite lookup_delete_eq.
    + right. exists p. by rewrite lookup_delete_ne.
Qed.

Lemma get_or_create_returns_row db i c sid rs db' k p :
  get_or_create db i c sid rs = Ok (db', (k, p)) →
  participant_table db' !! k = Some p.
Proof.
  intros Hr.
  destruct (one_or_none (query db (linked i c))) as [[[k1 p1]|]|e] eqn:Hq.
  - apply one_or_none_elem in Hq.
    destruct (get_or_create_found db i c sid rs k1 p1 Hq) as (p' & Hgc & _).
    rewrite Hgc in Hr. injection Hr as <- <- <-. simpl. apply lookup_insert_eq.
  - apply one_or_none_None in Hq.
    destruct (get_or_create_new db i c sid rs _ Hq Hr) as (pin & Hc & _).
    assert (db' = (create db pin).1) as -> by (by rewrite <- Hc).
    assert (k = (create db pin).2.1) as -> by (by rewrite <- Hc).
    assert (p = (create db pin).2.2) as -> by (by rewrite <- Hc).
    unfold create. rewrite add_and_commit_table. apply lookup_insert_eq.
  - unfold get_or_create in Hr. fold (linked i c) in Hr. rewrite Hq in Hr.
    discriminate.
Qed.

(** C1, as stated, fails in its second half: on a session without
    participants, a first get_or_create with service 5 creates a participant
    with service 5, and the second call for the same (incident, individual)
    pair, with service 6, does not find it (the participant that the first
    call creates is not linked to the pair) and returns another participant,
    whose service is 6. *)
Lemma service_not_kept_counterexample :
  ∃ db1 r1 db2 r2,
    get_or_create ex_db0 7 3 (Some 5%Z) [ex_reporter] = Ok (db1, r1)
    ∧ service r1.2 = Some {| service_pk := 5 |}
    ∧ get_or_create db1 7 3 (Some 6%Z) [ex_reporter] = Ok (db2, r2)
    ∧ r2.1 ≠ r1.1
    ∧ service r2.2 = Some {| service_pk := 6 |}.
Proof.
  eexists _, _, _, _. split; [vm_compute; reflexivity|].
  split; [reflexivity|]. split; [vm_compute; reflexivity|].
  split; [by vm_compute|reflexivity].
Qed.

(** C1, amended. Once a participant has a service, no operation of the
    participant service (get_or_create, create, update, delete) unsets it or
    replaces it by another service: after any one operation the participant
    either has been deleted by that very operation or still has the same
    service (and the same service_id column), for an update whose data names
    neither id nor service_id. And when the participant is the one
    participant linked to an (incident, individual) pair and has no service, a
    get_or_create for the pair with the identifier A of a service that exists
    sets its service to that service, and a second get_or_create for the pair,
    with any service B, returns the same participant and leaves its service,
    and its service_id column, as the first call set them. *)
Theorem service_association_set_once table_columns db k p :
  participant_table db !! k = Some p →
  (∀ s op db', service p = Some s → leaves_keys op →
     run table_columns op db = Ok db' →
     (op = OpDelete k ∧ participant_table db' !! k = None)
     ∨ (∃ p', participant_table db' !! k = Some p' ∧ service p' = Some s
              ∧ col p' "service_id" = col p "service_id"))
  ∧ (∀ i c A sA rsA B rsB,
       linked i c p = true →
       (∀ k' p', participant_table db !! k' = Some p' → linked i c p' = true →
                 k' = k) →
       service p = None → service_table db !! A = Some sA →
       ∃ db1 p1 db2 p2,
         get_or_create db i c (Some A) rsA = Ok (db1, (k, p1))
         ∧ service p1 = Some sA ∧ col p1 "service_id" = VInt A
         ∧ get_or_create db1 i c B rsB = Ok (db2, (k, p2))
         ∧ participant_table db2 !! k = Some p2
         ∧ service p2 = Some sA ∧ col p2 "service_id" = VInt A).
Proof.
  intros Hk. split.
  - intros s op db' Hs Hsafe Hrun. eapply run_keeps_service; try done.
    destruct op; try done. apply Hsafe.
  - intros i c A sA rsA B rsB Hl Huniq Hs HA.
    pose proof (query_singleton db (linked i c) k p Hk Hl Huniq) as Hq.
    destruct (get_or_create_found_unset db i c A sA rsA k p Hq Hs HA)
      as (p1 & Hgc1 & Hs1 & Hcols1).
    set (db1 := set_participants db (<[k := p1]> (participant_table db))) in *.
    assert (linked i c p1 = true) as Hl1.
    { unfold linked, col in *. by rewrite Hcols1, !lookup_insert_ne. }
    assert (query db1 (linked i c) = [(k, p1)]) as Hq1.
    { apply query_singleton; [apply lookup_insert_eq|done|].
      intros k' p' Hk' Hl'. destruct (decide (k' = k)) as [|Hne]; [done|].
      simpl in Hk'. rewrite lookup_insert_ne in Hk' by done. eauto. }
    destruct (get_or_create_found db1 i c B rsB k p1 Hq1)
      as (p2 & Hgc2 & _ & Hkeep & _).
    destruct (Hkeep sA Hs1) as [Hs2 Hcols2].
    assert (col p1 "service_id" = VInt A) as Hc1.
    { unfold col. by rewrite Hcols1, lookup_insert_eq. }
    eexists db1, p1, _, p2. split_and!; try done.
    + simpl. apply lookup_insert_eq.
    + unfold col in *. by rewrite Hcols2.
Qed.

Lemma service_association_set_once_witness :
  (∀ db',
     run [] (OpGetOrCreate 7 3 (Some 6%Z) [ex_observer]) ex_db_after_first = Ok db' →
     ∃ p', participant_table db' !! 0%Z = Some p'
           ∧ service p' = Some {| service_pk := 5 |})
  ∧ ∃ db1 p1 db2 p2,
      get_or_create ex_db_linked 7 3 (Some 5%Z) [ex_reporter] = Ok (db1, (0%Z, p1))
      ∧ service p1 = Some {| service_pk := 5 |}
      ∧ get_or_create db1 7 3 (Some 6%Z) [ex_observer] = Ok (db2, (0%Z, p2))
      ∧ service p2 = Some {| service_pk := 5 |}
      ∧ col p2 "service_id" = VInt 5.
Proof.
  split.
  - intros db' Hrun.
    destruct (proj1 (service_association_set_once [] ex_db_after_first 0
                       ex_p_after_first eq_refl)
                {| service_pk := 5 |} (OpGetOrCreate 7 3 (Some 6%Z) [ex_observer])
                db' eq_refl I Hrun)
      as [[Hop _]|(p' & Hk' & Hs' & _)]; [discriminate|].
    by exists p'.
  - destruct (proj2 (service_association_set_once [] ex_db_linked 0 ex_linked eq_refl)
                7%Z 3%Z 5%Z {| service_pk := 5 |} [ex_reporter] (Some 6%Z)
                [ex_observer])
      as (db1 & p1 & db2 & p2 & H1 & Hs1 & _ & H2 & _ & Hs2 & Hc2);
      [reflexivity| |reflexivity|reflexivity|].
    { intros k' p' Hk' _. simpl in Hk'.
      by apply lookup_singleton_Some in Hk' as [-> _]. }
    by exists db1, p1, db2, p2.
Defined.

(** C2, as stated, fails: on a session without participants, two calls of
    get_or_create for the same (incident, individual) pair return two
    different participants, because the participant that the first call
    creates is not linked to the pair (create writes neither incident_id nor
    individual_contact_id), and the second participant holds the roles of the
    second call only. *)
Lemma get_or_create_twice_counterexample :
  ∃ db1 r1 db2 r2,
    get_or_create ex_db0 7 3 None [ex_reporter] = Ok (db1, r1)
    ∧ get_or_create db1 7 3 None [ex_observer] = Ok (db2, r2)
    ∧ r1.1 ≠ r2.1
    ∧ role <$> participant_roles r2.2 ≠ (role_in <$> [ex_reporter]) ++ (role_in <$> [ex_observer]).
Proof.
  eexists _, _, _, _. split; [vm_compute; reflexivity|].
  split; [vm_compute; reflexivity|]. split; [vm_compute; discriminate|].
  vm_compute. discriminate.
Qed.

(** C2, amended. When exactly one participant is linked to the (incident,
    individual) pair, two successive calls of get_or_create with that pair
    both return that participant, and after the second call its roles are the
    roles it had before, followed by a new active role record for every entry
    of the first call's role list and then of the second call's role list, in
    order and without deduplication. *)
Theorem get_or_create_twice_appends db i c sid1 sid2 rs1 rs2 k p :
  participant_table db !! k = Some p → linked i c p = true →
  (∀ k' p', participant_table db !! k' = Some p' → linked i c p' = true → k' = k) →
  ∃ db1 p1 db2 p2,
    get_or_create db i c sid1 rs1 = Ok (db1, (k, p1))
    ∧ get_or_create db1 i c sid2 rs2 = Ok (db2, (k, p2))
    ∧ participant_table db2 !! k = Some p2
    ∧ participant_roles p2
      = participant_roles p ++ (participant_role_service_create <$> rs1)
                            ++ (participant_role_service_create <$> rs2)
    ∧ role <$> participant_roles p2
      = (role <$> participant_roles p) ++ (role_in <$> rs1) ++ (role_in <$> rs2).
Proof.
  intros Hk Hl Huniq.
  pose proof (query_singleton db (linked i c) k p Hk Hl Huniq) as Hq.
  destruct (get_or_create_found db i c sid1 rs1 k p Hq)
    as (p1 & Hgc1 & Hroles1 & _ & Hcols1).
  set (db1 := set_participants db (<[k := p1]> (participant_table db))) in *.
  assert (∀ q, columns q !! "incident_id" = columns p !! "incident_id" →
               columns q !! "individual_contact_id"
               = columns p !! "individual_contact_id" →
               linked i c q = true) as Hlinked.
  { intros q H1 H2. unfold linked, col in *. by rewrite H1, H2. }
  assert (query db1 (linked i c) = [(k, p1)]) as Hq1.
  { apply query_singleton.
    - apply lookup_insert_eq.
    - apply Hlinked; by apply Hcols1.
    - intros k' p' Hk' Hl'. destruct (decide (k' = k)) as [|Hne]; [done|].
      simpl in Hk'. rewrite lookup_insert_ne in Hk' by done. eauto. }
  destruct (get_or_create_found db1 i c sid2 rs2 k p1 Hq1)
    as (p2 & Hgc2 & Hroles2 & _ & _).
  eexists db1, p1, _, p2. repeat split; try done.
  - simpl. apply lookup_insert_eq.
  - by rewrite Hroles2, Hroles1, <- app_assoc.
  - rewrite Hroles2, Hroles1, !fmap_app, <- app_assoc, <- !list_fmap_compose.
    done.
Qed.

Lemma get_or_create_twice_appends_witness :
  ∃ db1 p1 db2 p2,
    get_or_create ex_db_linked 7 3 None [ex_reporter] = Ok (db1, (0%Z, p1))
    ∧ get_or_create db1 7 3 None [ex_reporter; ex_observer] = Ok (db2, (0%Z, p2))
    ∧ participant_table db2 !! 0%Z = Some p2
    ∧ participant_roles p2
      = participant_roles ex_linked
        ++ (participant_role_service_create <$> [ex_reporter])
        ++ (participant_role_service_create <$> [ex_reporter; ex_observer])
    ∧ role <$> participant_roles p2
      = (role <$> participant_roles ex_linked) ++ (role_in <$> [ex_reporter])
        ++ (role_in <$> [ex_reporter; ex_observer]).
Proof.
  apply (get_or_create_twice_appends ex_db_linked 7 3 None None
           [ex_reporter] [ex_reporter; ex_observer] 0 ex_linked).
  - reflexivity.
  - reflexivity.
  - intros k' p' Hk' _. simpl in Hk'.
    apply lookup_singleton_Some in Hk' as [<- _]. reflexivity.
Defined.

Lemma create_cols db pin f :
  f ∈ ["team"; "department"; "location"] →
  col (create db pin).2.2 f
  = if bool_decide (f = "team") then pc_team pin
    else if bool_decide (f = "department") then pc_department pin
    else pc_location pin.
Proof.
  intros Hf. unfold col, create, add_and_commit; simpl.
  assert (f ≠ "id" ∧ f ≠ "service_id") as [H1 H2].
  { set_unfold in Hf. destruct Hf as [->|[->|[->|[]]]]; done. }
  destruct (match pc_service pin with Some _ => _ | None => _ end); simpl;
    rewrite ?(lookup_insert_ne _ "service_id") by done;
    rewrite (lookup_insert_ne _ "id") by done;
    unfold ParticipantCreate_dict; simpl;
    set_unfold in Hf; destruct Hf as [->|[->|[->|[]]]]; done.
Qed.

(** The not-found branch, with the contact information it gathers. *)
Lemma get_or_create_new_info db i c sid rs project :
  query db (linked i c) = [] →
  incident_table db !! i = Some project →
  (is_Some (plugin_table db !! project) → is_Some (individual_table db !! c)) →
  match contact_info db project c with
  | Some info =>
      ∃ svc,
        get_or_create db i c sid rs
        = Ok (create db {| pc_participant_roles := rs;
                           pc_team := info_get info "team";
                           pc_department := info_get info "department";
                           pc_location := info_get info "location";
                           pc_service := svc |})
  | None => get_or_create db i c sid rs = Raise AttributeError
  end.
Proof.
  intros Hq Hinc Hind. unfold get_or_create, contact_info. fold (linked i c).
  rewrite Hq. simpl.
  unfold incident_service_get, plugin_service_get_active_instance,
    individual_service_get. rewrite Hinc. simpl.
  destruct (plugin_table db !! project) as [plugin|] eqn:Hpl; simpl.
  - destruct Hind as [email Hemail]; [by eexists|]. rewrite Hemail. simpl.
    destruct (plugin email) as [info|]; simpl; eauto.
  - eauto.
Qed.

(** C7, as stated, fails: when the lookup of the contact plugin returns
    nothing (None), get_or_create does not create a participant with the
    fields set to "Unknown"; it fails with AttributeError, because
    [individual_info.get] is called on the answer without a check. *)
Lemma lookup_returns_nothing_counterexample :
  (∀ k p, participant_table ex_db_plugin_none !! k = Some p → linked 7 3 p = false)
  ∧ plugin_table ex_db_plugin_none !! 1%Z = Some ex_plugin_none
  ∧ ex_plugin_none "ann@example.com" = None
  ∧ get_or_create ex_db_plugin_none 7 3 None [ex_reporter] = Raise AttributeError.
Proof.
  split; [|by repeat split].
  intros k p Hk. simpl in Hk. by rewrite lookup_empty in Hk.
Qed.

(** C7, amended. When get_or_create finds no participant for the pair (and
    the incident exists, and so does the individual whenever a plugin is
    consulted): if the project has no active contact plugin, or the plugin
    answers a mapping for the individual's email, the call returns a new
    participant whose team, department and location are each the literal
    "Unknown" when there is no plugin or the mapping has no entry for that
    field (in particular when the mapping is empty), and otherwise the value
    the mapping holds for the field; if the lookup of the plugin returns
    nothing (None), the call fails with AttributeError. *)
Theorem get_or_create_defaults_unknown db i c sid rs project :
  (∀ k p, participant_table db !! k = Some p → linked i c p = false) →
  incident_table db !! i = Some project →
  (is_Some (plugin_table db !! project) → is_Some (individual_table db !! c)) →
  (∀ info, contact_info db project c = Some info →
     ∃ db' k p,
       get_or_create db i c sid rs = Ok (db', (k, p))
       ∧ participant_table db' !! k = Some p
       ∧ participant_table db !! k = None
       ∧ ∀ f, f ∈ ["team"; "department"; "location"] →
           col p f = match info !! f with
                     | Some v => v
                     | None => VStr "Unknown"
                     end)
  ∧ (plugin_table db !! project = None → contact_info db project c = Some ∅)
  ∧ (contact_info db project c = None →
       get_or_create db i c sid rs = Raise AttributeError).
Proof.
  intros Hnone Hinc Hind. apply query_nil in Hnone.
  pose proof (get_or_create_new_info db i c sid rs project Hnone Hinc Hind) as Hnew.
  split_and!.
  - intros info Hinfo. rewrite Hinfo in Hnew. destruct Hnew as (svc & Hgc).
    rewrite Hgc.
    set (r := create db _).
    exists r.1, r.2.1, r.2.2. rewrite <- !surjective_pairing.
    split; [done|].
    split; [unfold r, create; rewrite add_and_commit_table; apply lookup_insert_eq|].
    split; [apply add_and_commit_fresh|].
    intros f Hf. unfold r. rewrite create_cols by done. simpl.
    assert (∀ g, info_get info g = match info !! g with
                                    | Some v => v | None => VStr "Unknown" end)
      as Hget by (intros g; unfold info_get; by destruct (info !! g)).
    set_unfold in Hf. destruct Hf as [->|[->|[->|[]]]]; simpl; by rewrite Hget.
  - unfold contact_info. by destruct (plugin_table db !! project).
  - intros Hinfo. by rewrite Hinfo in Hnew.
Qed.

Lemma get_or_create_defaults_unknown_witness :
  ∃ db' k p,
    get_or_create ex_db_plugin 7 3 None [ex_reporter] = Ok (db', (k, p))
    ∧ participant_table db' !! k = Some p
    ∧ participant_table ex_db_plugin !! k = None
    ∧ col p "team" = VStr "SRE"
    ∧ col p "department" = VStr "Unknown"
    ∧ col p "location" = VStr "Unknown".
Proof.
  destruct (get_or_create_defaults_unknown ex_db_plugin 7 3 None [ex_reporter] 1)
    as (Hinfo & _ & _).
  - intros k p Hk. simpl in Hk. by rewrite lookup_empty in Hk.
  - reflexivity.
  - intros _. by eexists.
  - destruct (Hinfo {[ "team" := VStr "SRE" ]} eq_refl)
      as (db' & k & p & Hgc & Hrow & Hnew & Hf).
    exists db', k, p. split_and!; [done..| | |].
    + rewrite Hf; [reflexivity|]. set_solver.
    + rewrite Hf; [reflexivity|]. set_solver.
    + rewrite Hf; [reflexivity|]. set_solver.
Defined.

(** C8. delete removes the participant with the given identifier and leaves
    every other participant in place; when no participant has that
    identifier, delete fails (the session refuses to delete the absent
    record) and get returns the absent result None instead. The other single
    record lookups likewise return None, not an exception, when no row
    matches their filter. *)
Theorem delete_fails_and_get_is_absent db participant_id :
  (∀ p, participant_table db !! participant_id = Some p →
     ∃ db', delete db participant_id = Ok db'
            ∧ get db' participant_id = None
            ∧ ∀ k, k ≠ participant_id → get db' k = get db k)
  ∧ (participant_table db !! participant_id = None →
       delete db participant_id = Raise UnmappedInstanceError
       ∧ get db participant_id = None)
  ∧ (∀ incident_id r,
       (∀ k p, participant_table db !! k = Some p →
               col p "incident_id" = VInt incident_id → has_active_role r p = false) →
       get_by_incident_id_and_role db incident_id r = Ok None)
  ∧ (∀ incident_id email,
       (∀ k p, participant_table db !! k = Some p →
               col p "incident_id" = VInt incident_id → has_email db email p = false) →
       get_by_incident_id_and_email db incident_id email = Ok None)
  ∧ (∀ incident_id service_id,
       (∀ k p, participant_table db !! k = Some p →
               col p "incident_id" = VInt incident_id →
               col p "service_id" ≠ VInt service_id) →
       get_by_incident_id_and_service_id db incident_id service_id = Ok None)
  ∧ (∀ incident_id conversation_id,
       (∀ k p, participant_table db !! k = Some p →
               col p "incident_id" = VInt incident_id →
               col p "user_conversation_id" ≠ VStr conversation_id) →
       get_by_incident_id_and_conversation_id db incident_id conversation_id = Ok None).
Proof.
  assert (∀ (a b : value) (Q : bool),
            (a = b → Q = false) → value_eqb a b && Q = false) as Hand.
  { intros a b Q HQ. unfold value_eqb. case_bool_decide; simpl; auto. }
  repeat split.
  - intros p Hp. unfold delete, get. rewrite Hp. eexists. split; [done|].
    simpl. split; [apply lookup_delete_eq|].
    intros k Hk. by apply lookup_delete_ne.
  - unfold delete. by rewrite H.
  - done.
  - intros incident_id r Hnone. unfold get_by_incident_id_and_role.
    rewrite query_nil; [done|]. intros k p Hk. apply Hand. eauto.
  - intros incident_id email Hnone. unfold get_by_incident_id_and_email.
    rewrite query_nil; [done|]. intros k p Hk. apply Hand. eauto.
  - intros incident_id sid Hnone. unfold get_by_incident_id_and_service_id.
    rewrite query_nil; [done|]. intros k p Hk. apply Hand. intros Hi.
    unfold value_eqb. case_bool_decide; [|done]. by destruct (Hnone k p Hk Hi).
  - intros incident_id cid Hnone. unfold get_by_incident_id_and_conversation_id.
    rewrite query_nil; [done|]. intros k p Hk. apply Hand. intros Hi.
    unfold value_eqb. case_bool_decide; [|done]. by destruct (Hnone k p Hk Hi).
Qed.

Lemma delete_fails_and_get_is_absent_witness :
  (∃ db', delete ex_db_linked 0 = Ok db' ∧ get db' 0 = None)
  ∧ delete ex_db_linked 1 = Raise UnmappedInstanceError
  ∧ get ex_db_linked 1 = None
  ∧ get_by_incident_id_and_role ex_db_linked 7 "reporter" = Ok None
  ∧ get_by_incident_id_and_service_id ex_db_linked 7 5 = Ok None.
Proof.
  pose proof (delete_fails_and_get_is_absent ex_db_linked 0) as (Hdel & _).
  pose proof (delete_fails_and_get_is_absent ex_db_linked 1)
    as (_ & Habs & Hrole & _ & Hsvc & _).
  split.
  { destruct (Hdel ex_linked eq_refl) as (db' & Hd & Hg & _). by exists db'. }
  destruct (Habs eq_refl) as [Hd Hg].
  split; [exact Hd|]. split; [exact Hg|]. split.
  - apply Hrole. intros k p Hk _. simpl in Hk.
    apply lookup_singleton_Some in Hk as [_ <-]. reflexivity.
  - apply Hsvc. intros k p Hk _. simpl in Hk.
    apply lookup_singleton_Some in Hk as [_ <-]. vm_compute. discriminate.
Defined.

End ParticipantServiceFacts.

Module StringsFacts.
Import Strings.

Ltac bind_ok H :=
  let x := fresh "x" in let Hx := fresh "H" x in
  apply result_bind_Ok in H as (x & Hx & H).

Ltac not_in_keys :=
  repeat (apply not_elem_of_cons; split; [done|]); apply not_elem_of_nil.

Lemma truthy_VStr s : truthy (VStr s) = true ↔ s ≠ "".
Proof. simpl. case_bool_decide; naive_solver. Qed.

(** *** Truncation *)

Lemma substring_length (s : string) (n : nat) :
  n ≤ String.length s → String.length (String.substring 0 n s) = n.
Proof.
  revert n. induction s as [|a s IH]; intros [|n] Hn; simpl in *; try done; [lia|].
  rewrite IH; [done|lia].
Qed.

Lemma substring_prefix (s : string) (n : nat) :
  ∃ rest, s = String.substring 0 n s +:+ rest.
Proof.
  revert n. induction s as [|a s IH]; intros [|n]; simpl.
  - by exists "".
  - by exists "".
  - by eexists.
  - destruct (IH n) as [rest Hrest]. exists rest.
    exact (f_equal (String a) Hrest).
Qed.

Lemma truncate_long text :
  2500 < String.length text →
  String.length (truncate text) = 2500
  ∧ truncate text = String.substring 0 2500 text
  ∧ ∃ rest, text = truncate text +:+ rest.
Proof.
  intros Hlen. unfold truncate.
  destruct (Nat.leb_spec (String.length text) 2500) as [|_]; [lia|].
  split; [apply substring_length; lia|]. split; [done|]. apply substring_prefix.
Qed.

Lemma truncate_short text :
  String.length text ≤ 2500 → truncate text = text.
Proof.
  intros Hlen. unfold truncate.
  by destruct (Nat.leb_spec (String.length text) 2500) as [|]; [|lia].
Qed.

Lemma truncate_length text : String.length (truncate text) ≤ 2500.
Proof.
  destruct (decide (String.length text ≤ 2500)) as [H|H].
  - by rewrite truncate_short.
  - destruct (truncate_long text) as [-> _]; lia.
Qed.

Lemma truncate_idemp text : truncate (truncate text) = truncate text.
Proof. apply truncate_short, truncate_length. Qed.

Section render.

Variable jinja : string → context → result string.

Abbreviation render_field := (render_field jinja).
Abbreviation render_block := (render_block jinja).
Abbreviation render_loop := (render_loop jinja).
Abbreviation render_message_template := (render_message_template jinja).
Abbreviation title_link_dropped := (title_link_dropped jinja).

(** *** The stages of the loop body touch their own key only *)

Lemma render_field_lookup k kwargs d d' k' :
  render_field k kwargs d = Ok d' → k' ≠ k → d' !! k' = d !! k'.
Proof.
  unfold Strings.render_field. intros H Hne.
  destruct (truthy (dict_get d k)); [|by injection H as <-].
  bind_ok H. injection H as <-. by apply lookup_insert_ne.
Qed.

Lemma render_title_link_spec kwargs d r :
  render_title_link jinja kwargs d = Ok r →
  (r = None ∧ title_link_dropped kwargs d = true)
  ∨ (∃ d', r = Some d' ∧ title_link_dropped kwargs d = false
           ∧ ∀ k', k' ≠ "title_link" → d' !! k' = d !! k').
Proof.
  unfold render_title_link, Strings.title_link_dropped. intros H.
  destruct (truthy (dict_get d "title_link")); simpl.
  - bind_ok H. rewrite Hx. repeat case_bool_decide; simplify_eq; simpl; eauto.
    right. eexists. repeat split. intros k' Hne. by apply lookup_insert_ne.
  - injection H as <-. right. eauto.
Qed.

Lemma render_text_lookup kwargs d d' k' :
  render_text jinja kwargs d = Ok d' → k' ≠ "text" → d' !! k' = d !! k'.
Proof.
  unfold render_text. intros H Hne.
  destruct (truthy (dict_get d "text")); [|by injection H as <-].
  bind_ok H. injection H as <-. by apply lookup_insert_ne.
Qed.

Lemma render_buttons_lookup kwargs d d' k' :
  render_buttons jinja kwargs d = Ok d' → k' ≠ "buttons" → d' !! k' = d !! k'.
Proof.
  unfold render_buttons. intros H Hne.
  destruct (truthy (dict_get d "buttons")); [|by injection H as <-].
  destruct (dict_get d "buttons"); try discriminate.
  bind_ok H. injection H as <-. by apply lookup_insert_ne.
Qed.

Lemma title_link_dropped_ext kwargs d d' :
  d' !! "title_link" = d !! "title_link" →
  title_link_dropped kwargs d' = title_link_dropped kwargs d.
Proof. intros H. unfold Strings.title_link_dropped, dict_get. by rewrite H. Qed.

Lemma render_before_status_spec kwargs d r :
  render_before_status jinja kwargs d = Ok r →
  (r = None ∧ title_link_dropped kwargs d = true)
  ∨ (∃ d', r = Some d' ∧ title_link_dropped kwargs d = false
           ∧ ∀ k', k' ∉ ["header"; "title"; "title_link"; "text"; "buttons"] →
                   d' !! k' = d !! k').
Proof.
  unfold render_before_status. intros H.
  bind_ok H. rename x into d1. bind_ok H. rename x into d2. bind_ok H.
  assert (title_link_dropped kwargs d2 = title_link_dropped kwargs d) as Hd.
  { apply title_link_dropped_ext.
    rewrite (render_field_lookup _ _ _ _ _ Hx0) by done.
    by rewrite (render_field_lookup _ _ _ _ _ Hx). }
  apply render_title_link_spec in Hx1 as [[-> Hdrop]|(d3 & -> & Hkeep & Hk3)].
  - injection H as <-. left. by rewrite <- Hd.
  - bind_ok H. rename x into d4. bind_ok H. injection H as <-. right.
    eexists. split; [done|]. split; [by rewrite <- Hd|].
    intros k' Hk'. set_unfold in Hk'.
    rewrite (render_buttons_lookup _ _ _ _ Hx2) by naive_solver.
    rewrite (render_text_lookup _ _ _ _ Hx1) by naive_solver.
    rewrite Hk3 by naive_solver.
    rewrite (render_field_lookup _ _ _ _ _ Hx0) by naive_solver.
    rewrite (render_field_lookup _ _ _ _ _ Hx) by naive_solver. done.
Qed.

Lemma render_block_spec kwargs d r :
  render_block kwargs d = Ok r →
  (r = None ∧ title_link_dropped kwargs d = true)
  ∨ (∃ d', r = Some d' ∧ title_link_dropped kwargs d = false).
Proof.
  unfold Strings.render_block. intros H. bind_ok H.
  apply render_before_status_spec in Hx as [[-> Hdrop]|(d1 & -> & Hkeep & _)].
  - injection H as <-. by left.
  - bind_ok H. injection H as <-. right. eauto.
Qed.

(** *** The loop *)

(** What the loop appends to [data]: the rendered blocks that are not
    skipped, in the order of the template. *)
Lemma render_loop_spec kwargs tpl data out :
  render_loop kwargs tpl data = Ok out →
  ∃ rs, Forall2 (λ d r, render_block kwargs d = Ok r) tpl rs
        ∧ out = data ++ omap id rs.
Proof.
  revert data. induction tpl as [|d tpl IH]; intros data; simpl.
  - intros [= <-]. exists []. split; [constructor|]. by rewrite app_nil_r.
  - intros H. bind_ok H. destruct x as [d'|].
    + apply IH in H as (rs & Hrs & ->). exists (Some d' :: rs).
      split; [by constructor|]. simpl. by rewrite <- app_assoc.
    + apply IH in H as (rs & Hrs & ->). exists (None :: rs).
      split; [by constructor|]. done.
Qed.

Lemma render_loop_complete kwargs tpl data rs :
  Forall2 (λ d r, render_block kwargs d = Ok r) tpl rs →
  render_loop kwargs tpl data = Ok (data ++ omap id rs).
Proof.
  intros H. revert data. induction H as [|d r tpl rs Hd _ IH]; intros data; simpl.
  - by rewrite app_nil_r.
  - unfold Strings.render_block in *. rewrite Hd. simpl. destruct r as [d'|]; rewrite IH.
    + by rewrite <- app_assoc.
    + done.
Qed.

Lemma render_message_template_block kwargs tpl out d :
  render_message_template tpl kwargs = Ok out → d ∈ tpl →
  ∃ r, render_block kwargs d = Ok r ∧ ∀ d', r = Some d' → d' ∈ out.
Proof.
  intros (rs & Hrs & ->)%render_loop_spec Hd. simpl.
  apply list_elem_of_lookup in Hd as [n Hn].
  destruct (Forall2_lookup_l _ _ _ _ _ Hrs Hn) as (r & Hr & Hblock).
  exists r. split; [done|]. intros d' ->.
  apply list_elem_of_omap. exists (Some d'). split; [|done].
  apply list_elem_of_lookup. eauto.
Qed.


Lemma dict_get_ext (d d' : block) k :
  d' !! k = d !! k → dict_get d' k = dict_get d k.
Proof. unfold dict_get. by intros ->. Qed.

Lemma kept_blocks kwargs tpl rs :
  Forall2 (λ d r, render_block kwargs d = Ok r) tpl rs →
  Forall2 (λ d d', render_block kwargs d = Ok (Some d'))
          (List.filter (λ d, negb (title_link_dropped kwargs d)) tpl) (omap id rs)
  ∧ length (omap id rs) + length (List.filter (title_link_dropped kwargs) tpl)
    = length tpl.
Proof.
  induction 1 as [|d r tpl rs Hd _ [IH1 IH2]]; simpl; [by split|].
  destruct (render_block_spec _ _ _ Hd) as [[-> Hdrop]|(d' & -> & Hkeep)];
    rewrite ?Hdrop, ?Hkeep; simpl.
  - split; [done|]. rewrite <- IH2, Nat.add_succ_r. reflexivity.
  - split; [by constructor|]. rewrite <- IH2. reflexivity.
Qed.

(** *** The text and the status mapping *)

Lemma render_from_status_lookup kwargs d d' k' :
  render_from_status jinja kwargs d = Ok d' →
  k' ∉ ["text"; "datetime"; "context"] → d' !! k' = d !! k'.
Proof.
  unfold render_from_status. intros H Hk'. bind_ok H. bind_ok H.
  set_unfold in Hk'.
  rewrite (render_field_lookup _ _ _ _ _ H) by naive_solver.
  rewrite (render_field_lookup _ _ _ _ _ Hx0) by naive_solver.
  unfold render_status_mapping in Hx.
  destruct (truthy (dict_get d "status_mapping")); [|by injection Hx as <-].
  bind_ok Hx. bind_ok Hx. injection Hx as <-. apply lookup_insert_ne. naive_solver.
Qed.

(** The text that leaves the first half of the loop body. *)
Lemma render_before_status_text kwargs d d1 source :
  render_before_status jinja kwargs d = Ok (Some d1) →
  dict_get d "text" = VStr source → source ≠ "" →
  ∃ text, jinja source kwargs = Ok text ∧ d1 !! "text" = Some (VStr (truncate text)).
Proof.
  unfold render_before_status. intros H Hsrc Hne.
  bind_ok H. rename x into d2. bind_ok H. rename x into d3. bind_ok H.
  apply render_title_link_spec in Hx1 as [[-> _]|(d4 & -> & _ & Hk4)]; [done|].
  bind_ok H. rename x into d5. bind_ok H. injection H as <-.
  assert (dict_get d4 "text" = VStr source) as Hsrc4.
  { rewrite <- Hsrc. apply dict_get_ext. rewrite Hk4 by done.
    rewrite (render_field_lookup _ _ _ _ _ Hx0) by done.
    by rewrite (render_field_lookup _ _ _ _ _ Hx). }
  unfold render_text in Hx1. rewrite Hsrc4 in Hx1.
  rewrite (proj2 (truthy_VStr source) Hne) in Hx1. simpl in Hx1.
  bind_ok Hx1. injection Hx1 as <-. exists x0. split; [done|].
  rewrite (render_buttons_lookup _ _ _ _ Hx2) by done. apply lookup_insert_eq.
Qed.

Lemma render_status_mapping_falsy kwargs d :
  truthy (dict_get d "status_mapping") = false →
  render_status_mapping kwargs d = Ok d.
Proof. unfold render_status_mapping. by intros ->. Qed.





(** By value: on a successful call, the output is made of the renderings,
    in the order of the input, of the blocks that are not dropped, where a
    block is dropped when its title link is present and not empty and renders
    to the empty string or to "None"; dropping a block is not an error, and
    the length of the output is the length of the input minus the number of
    dropped blocks. *)
Lemma kept_blocks_in_order tpl kwargs out :
  render_message_template tpl kwargs = Ok out →
  Forall2 (λ d d', render_block kwargs d = Ok (Some d'))
          (List.filter (λ d, negb (title_link_dropped kwargs d)) tpl) out
  ∧ length out = length tpl - length (List.filter (title_link_dropped kwargs) tpl)
  ∧ ∀ d, d ∈ tpl → title_link_dropped kwargs d = true →
         render_block kwargs d = Ok None.
Proof.
  intros Hr. pose proof Hr as (rs & Hrs & ->)%render_loop_spec. simpl.
  destruct (kept_blocks _ _ _ Hrs) as [Hkept Hlen]. split; [done|].
  split; [lia|]. intros d Hd Hdrop.
  destruct (render_message_template_block _ _ _ _ Hr Hd) as (r & Hblock & _).
  destruct (render_block_spec _ _ _ Hblock) as [[-> _]|(d' & -> & Hkeep)]; [done|].
  unfold Strings.title_link_dropped in *. congruence.
Qed.

(** By value: for a block of the input that is not dropped and has no
    (non-empty) status mapping, whose text is present and not empty and
    renders to [text]: the text of the rendered block in the output is [text]
    cut to at most 2500 characters, that is, exactly the first 2500 characters
    of [text] when [text] is longer, and [text] itself otherwise. *)
Lemma kept_text_cut tpl kwargs out d source text :
  render_message_template tpl kwargs = Ok out → d ∈ tpl →
  title_link_dropped kwargs d = false →
  truthy (dict_get d "status_mapping") = false →
  dict_get d "text" = VStr source → source ≠ "" →
  jinja source kwargs = Ok text →
  ∃ d', render_block kwargs d = Ok (Some d') ∧ d' ∈ out
        ∧ d' !! "text" = Some (VStr (truncate text))
        ∧ (2500 < String.length text →
             String.length (truncate text) = 2500
             ∧ truncate text = String.substring 0 2500 text
             ∧ ∃ rest, text = truncate text +:+ rest)
        ∧ (String.length text ≤ 2500 → truncate text = text).
Proof.
  intros Hr Hd Hkeep Hsm Hsrc Hne Htext.
  destruct (render_message_template_block _ _ _ _ Hr Hd) as (r & Hblock & Hout).
  destruct (render_block_spec _ _ _ Hblock) as [[_ Hdrop]|(d' & -> & _)].
  { unfold Strings.title_link_dropped in *. congruence. }
  exists d'. split; [done|]. split; [by apply Hout|].
  split; [|split; [apply truncate_long|apply truncate_short]].
  unfold Strings.render_block in Hblock. bind_ok Hblock.
  destruct x as [d1|]; [|done]. bind_ok Hblock. injection Hblock as <-.
  destruct (render_before_status_text _ _ _ _ Hx Hsrc Hne) as (text' & Ht' & Hd1).
  assert (text' = text) as -> by congruence.
  apply render_before_status_spec in Hx as [[? _]|(? & [= <-] & _ & Hk1)]; [done|].
  unfold render_from_status in Hx0. bind_ok Hx0. bind_ok Hx0.
  rewrite render_status_mapping_falsy in Hx1.
  2:{ etrans; [|exact Hsm]. f_equal. apply dict_get_ext, Hk1. not_in_keys. }
  injection Hx1 as <-.
  rewrite (render_field_lookup _ _ _ _ _ Hx0) by done.
  by rewrite (render_field_lookup _ _ _ _ _ Hx2) by done.
Qed.



(** *** Blocks without placeholders *)

Lemma dict_get_VStr (d : block) k s : dict_get d k = VStr s → d !! k = Some (VStr s).
Proof. unfold dict_get. destruct (d !! k); simpl; congruence. Qed.

Lemma button_get_VStr (b : button) k s :
  button_get b k = VStr s → b !! k = Some (AStr s).
Proof.
  unfold button_get. destruct (b !! k) as [[|s']|]; simpl; congruence.
Qed.

Lemma plain_render_field k kwargs d :
  plain_value jinja (dict_get d k) → render_field k kwargs d = Ok d.
Proof.
  unfold Strings.render_field. intros Hp.
  destruct (dict_get d k) as [|s|l|m] eqn:Hk; simpl in *; rewrite ?Hp; try done.
  case_bool_decide; simpl; [done|].
  by rewrite insert_id by by apply dict_get_VStr.
Qed.

Lemma plain_render_title_link kwargs d :
  plain_value jinja (dict_get d "title_link") →
  render_title_link jinja kwargs d
  = Ok (if bool_decide (dict_get d "title_link" = VStr "None") then None else Some d).
Proof.
  unfold render_title_link. intros Hp.
  destruct (dict_get d "title_link") as [|s|l|m] eqn:Hk; simpl in *;
    rewrite ?Hp; try done.
  case_bool_decide as Hs; simpl.
  { subst s. by rewrite bool_decide_false. }
  rewrite insert_id by by apply dict_get_VStr.
  case_bool_decide as Hnone.
  - subst s. by rewrite bool_decide_true.
  - rewrite (bool_decide_false _ Hs). rewrite bool_decide_false by congruence. done.
Qed.

Lemma plain_render_text kwargs d :
  plain_value jinja (dict_get d "text") →
  render_text jinja kwargs d = Ok (with_truncated_text d).
Proof.
  unfold render_text, with_truncated_text. intros Hp.
  destruct (dict_get d "text") as [|s|l|m] eqn:Hk; simpl in *;
    rewrite ?Hp; try done.
  by case_bool_decide.
Qed.

Lemma plain_render_button_item k kwargs (b : button) s :
  b !! k = Some (AStr s) → plain jinja s →
  render_button_item jinja k kwargs b = Ok b.
Proof.
  intros Hk Hp. unfold render_button_item. rewrite Hk. simpl. rewrite Hp. simpl.
  by rewrite insert_id.
Qed.

Lemma plain_render_button_optional k kwargs (b : button) :
  plain_value jinja (button_get b k) →
  render_button_optional jinja k kwargs b = Ok b.
Proof.
  unfold render_button_optional. intros Hp.
  destruct (button_get b k) as [|s|l|m] eqn:Hk; simpl in *; rewrite ?Hp; try done.
  case_bool_decide; simpl; [done|].
  eapply plain_render_button_item; [by apply button_get_VStr|done].
Qed.

Lemma plain_render_button kwargs b :
  plain_button jinja b → render_button jinja kwargs b = Ok b.
Proof.
  intros ((s1 & H1 & Hp1) & (s2 & H2 & Hp2) & Ha & Hu). unfold render_button.
  rewrite (plain_render_button_item _ _ _ _ H1 Hp1). simpl.
  rewrite (plain_render_button_item _ _ _ _ H2 Hp2). simpl.
  rewrite (plain_render_button_optional _ _ _ Ha). simpl.
  by apply plain_render_button_optional.
Qed.

Lemma plain_render_button_list kwargs bs :
  Forall (plain_button jinja) bs → render_button_list jinja kwargs bs = Ok bs.
Proof.
  induction 1 as [|b bs Hb _ IH]; simpl; [done|].
  by rewrite plain_render_button, IH.
Qed.

Lemma plain_render_buttons kwargs d :
  (truthy (dict_get d "buttons") = false
   ∨ ∃ bs, dict_get d "buttons" = VList bs ∧ Forall (plain_button jinja) bs) →
  render_buttons jinja kwargs d = Ok d.
Proof.
  unfold render_buttons. intros [->|(bs & Hbs & Hp)]; [done|].
  rewrite Hbs. destruct (truthy (VList bs)); [|done].
  rewrite plain_render_button_list by done. simpl.
  rewrite insert_id; [done|]. unfold dict_get in Hbs.
  destruct (d !! "buttons"); simpl in *; congruence.
Qed.

Lemma with_truncated_text_lookup d k :
  k ≠ "text" → with_truncated_text d !! k = d !! k.
Proof.
  intros Hk. unfold with_truncated_text.
  destruct (dict_get d "text") as [|s|l|m]; try done.
  case_bool_decide; [done|]. by apply lookup_insert_ne.
Qed.

Lemma with_truncated_text_get d k :
  k ≠ "text" → dict_get (with_truncated_text d) k = dict_get d k.
Proof. intros Hk. by apply dict_get_ext, with_truncated_text_lookup. Qed.

Lemma with_truncated_text_text d :
  dict_get (with_truncated_text d) "text"
  = match dict_get d "text" with
    | VStr s => VStr (truncate s)
    | v => v
    end.
Proof.
  unfold with_truncated_text.
  destruct (dict_get d "text") as [|s|l|m] eqn:Hk; try done.
  case_bool_decide as Hs; [by subst s|].
  unfold dict_get. by rewrite lookup_insert_eq.
Qed.

Lemma with_truncated_text_idemp d :
  with_truncated_text (with_truncated_text d) = with_truncated_text d.
Proof.
  unfold with_truncated_text at 1. rewrite with_truncated_text_text.
  destruct (dict_get d "text") as [|s|l|m] eqn:Hk; try done.
  case_bool_decide; [done|]. rewrite truncate_idemp.
  apply insert_id. apply dict_get_VStr.
  by rewrite with_truncated_text_text, Hk.
Qed.

Lemma plain_block_truncated d :
  plain_block jinja d → plain_block jinja (with_truncated_text d).
Proof.
  intros (Hh & Ht & Hl & Htx & Htr & Hb & Hs & Hd & Hc).
  unfold plain_block.
  rewrite (with_truncated_text_get d "header"), (with_truncated_text_get d "title"),
    (with_truncated_text_get d "title_link"), (with_truncated_text_get d "buttons"),
    (with_truncated_text_get d "status_mapping"),
    (with_truncated_text_get d "datetime"), (with_truncated_text_get d "context")
    by done.
  rewrite with_truncated_text_text. repeat split; try done.
  - destruct (dict_get d "text") as [|s|l|m] eqn:Hk; try done. simpl. by apply Htr.
  - intros s' Hs'. destruct (dict_get d "text") as [|s|l|m] eqn:Hk; try done.
    injection Hs' as <-. rewrite truncate_idemp. by apply Htr.
Qed.

(** The rendering of a block without placeholders: the block is dropped when
    its title link is the string "None", and otherwise it is returned with
    its text cut to 2500 characters, under any context. *)
Lemma plain_render_block kwargs d :
  plain_block jinja d →
  render_block kwargs d
  = Ok (if bool_decide (dict_get d "title_link" = VStr "None") then None
        else Some (with_truncated_text d)).
Proof.
  intros (Hh & Ht & Hl & Htx & Htr & Hb & Hs & Hd & Hc).
  unfold Strings.render_block, render_before_status.
  rewrite plain_render_field by done. simpl.
  rewrite plain_render_field by done. simpl.
  rewrite plain_render_title_link by done. simpl.
  case_bool_decide; simpl; [done|].
  rewrite plain_render_text by done. simpl.
  rewrite plain_render_buttons by (by rewrite with_truncated_text_get). simpl.
  unfold render_from_status.
  rewrite render_status_mapping_falsy by (by rewrite with_truncated_text_get).
  simpl.
  rewrite plain_render_field by (by rewrite with_truncated_text_get). simpl.
  rewrite plain_render_field by (by rewrite with_truncated_text_get). done.
Qed.

(** By value: when every block of [tpl] is a block whose fields the engine
    returns as they are and that has no status mapping, and the rendering of
    [tpl] under [kwargs] returns [out], the rendering of [out] under the empty
    context returns [out] again. *)
Lemma plain_blocks_render_again tpl kwargs out :
  Forall (plain_block jinja) tpl →
  render_message_template tpl kwargs = Ok out →
  render_message_template out ∅ = Ok out.
Proof.
  intros Hplain (rs & Hrs & ->)%render_loop_spec. simpl.
  assert (Forall2 (λ d r, render_block ∅ d = Ok r) (omap id rs) (Some <$> omap id rs))
    as Hagain.
  { induction Hrs as [|d r tpl rs Hd _ IH]; simpl; [constructor|].
    apply Forall_cons in Hplain as [Hp Hplain].
    rewrite (plain_render_block _ _ Hp) in Hd. injection Hd as <-.
    case_bool_decide as Hnone; simpl; [by apply IH|].
    constructor; [|by apply IH].
    rewrite plain_render_block by by apply plain_block_truncated.
    rewrite with_truncated_text_get by done.
    by rewrite (bool_decide_false _ Hnone), with_truncated_text_idemp. }
  unfold Strings.render_message_template.
  rewrite (render_loop_complete _ _ _ _ Hagain). simpl. f_equal.
  generalize (omap id rs). intros l. induction l as [|a l IH]; [done|].
  simpl. f_equal. exact IH.
Qed.

End render.

(** *** Concrete templates *)

(** C3, as stated, fails: a title link that is the empty string resolves to
    the empty string, and yet its block is kept, because the renderer
    resolves (and tests) non-empty title links only. *)
Lemma empty_title_link_kept_counterexample :
  ex_block_empty_link !! "title_link" = Some (VStr "")
  ∧ ex_engine "" ∅ = Ok ""
  ∧ render_message_template ex_engine [ex_block_empty_link] ∅
    = Ok [ex_block_empty_link].
Proof. repeat split; vm_compute; reflexivity. Qed.

(** C4, as stated, fails: the text of a block that also has a status mapping
    renders to 2501 characters, and the output text is the four characters of
    the mapping's value. *)
Lemma text_with_status_mapping_counterexample :
  ex_block_status_text !! "text" = Some (VStr ex_long_text)
  ∧ ex_engine ex_long_text ex_kwargs_open = Ok ex_long_text
  ∧ String.length ex_long_text = 2501
  ∧ render_message_template ex_engine [ex_block_status_text] ex_kwargs_open
    = Ok [ <["text" := VStr "Open"]> ex_block_status_text ].
Proof. repeat split; vm_compute; reflexivity. Qed.




(** The blocks of the example are blocks that the example engine returns
    as they are. *)
Lemma ex_tpl_plain_is_plain : Forall (plain_block ex_engine) ex_tpl_plain.
Proof.
  apply Forall_cons; split; [|apply Forall_cons; split; [|by apply Forall_nil]].
  - unfold plain_block. split_and!; try (vm_compute; done);
      try (intros ?; reflexivity).
    right. eexists. split; [reflexivity|].
      apply Forall_cons; split; [|by apply Forall_nil].
      unfold plain_button. split_and!; try (vm_compute; done).
    + eexists. split; [reflexivity|]. intros ?. reflexivity.
    + eexists. split; [reflexivity|]. intros ?. reflexivity.
  - unfold plain_block. split_and!; try (vm_compute; done);
      try (intros ?; reflexivity).
    left. reflexivity.
Qed.

(** C9, as stated, fails: the block holds no placeholder (the engine
    returns every string as it is), its rendering under a context with status "open"
    returns a result, and the rendering of that result under the empty context
    fails, because the status mapping is looked up again. *)
Lemma render_again_fails_counterexample :
  (∀ s kwargs, ex_engine s kwargs = Ok s)
  ∧ render_message_template ex_engine [ex_block_status] ex_kwargs_open
    = Ok [ <["text" := VStr "Open"]> ex_block_status ]
  ∧ render_message_template ex_engine [ <["text" := VStr "Open"]> ex_block_status ] ∅
    = Raise KeyError.
Proof. repeat split; vm_compute; reflexivity. Qed.

End StringsFacts.

Module StringsHeapFacts.
Import Strings StringsHeap.

(** *** Rules for [preserves] *)

Section rules.

Context {I : heap → Prop}.

Lemma preserves_ret {A} (a : A) (Q : A → Prop) : Q a → preserves I (ret a) Q.
Proof. intros HQ σ σ' r HI [= <- <-]. done. Qed.

Lemma preserves_raise {A} e (Q : A → Prop) : preserves I (raise e) Q.
Proof. intros σ σ' r HI [= <- <-]. done. Qed.

Lemma preserves_stuck {A} (Q : A → Prop) : preserves I stuck Q.
Proof. intros σ σ' r HI [=]. Qed.

Lemma preserves_bind {A B} (m : M A) (f : A → M B) (Q : A → Prop) (R : B → Prop) :
  preserves I m Q → (∀ a, Q a → preserves I (f a) R) →
  preserves I (bind m f) R.
Proof.
  intros Hm Hf σ σ' r HI. unfold bind.
  destruct (m σ) as [[σ1 [a|e]]|] eqn:Hmσ; [| |done].
  - destruct (Hm _ _ _ HI Hmσ) as [HI1 HQ]. by apply Hf.
  - intros [= <- <-]. destruct (Hm _ _ _ HI Hmσ) as [HI1 _]. done.
Qed.

Lemma preserves_weaken {A} (m : M A) (Q Q' : A → Prop) :
  preserves I m Q → (∀ a, Q a → Q' a) → preserves I m Q'.
Proof.
  intros Hm HQ σ σ' r HI Hr. destruct (Hm _ _ _ HI Hr) as [HI' Hq].
  split; [done|]. destruct r; auto.
Qed.

Lemma preserves_if {A} (b : bool) (m1 m2 : M A) (Q : A → Prop) :
  preserves I m1 Q → preserves I m2 Q → preserves I (if b then m1 else m2) Q.
Proof. by destruct b. Qed.

Lemma preserves_for_each {A} (f : A → M unit) (P : A → Prop) xs :
  (∀ x, P x → preserves I (f x) (λ _, True)) → Forall P xs →
  preserves I (for_each f xs) (λ _, True).
Proof.
  intros Hf. induction 1 as [|x xs Hx _ IH]; simpl.
  - by apply preserves_ret.
  - eapply preserves_bind; [by apply Hf|]. intros _ _. apply IH.
Qed.

Lemma preserves_foldM {A S} (f : A → S → M S) (P : A → Prop) (Q : S → Prop) xs s :
  (∀ x s, P x → Q s → preserves I (f x s) Q) → Forall P xs → Q s →
  preserves I (foldM f xs s) Q.
Proof.
  intros Hf Hxs. revert s. induction Hxs as [|x xs Hx _ IH]; intros s Hs; simpl.
  - by apply preserves_ret.
  - eapply preserves_bind; [by apply Hf|]. intros s' Hs'. by apply IH.
Qed.

End rules.

(** *** The frame of a call *)

Section frame.

Variable σ0 : heap.

Abbreviation fresh_val := (fresh_val σ0).
Abbreviation fresh_obj := (fresh_obj σ0).
Abbreviation keeps := (@preserves _ (frame σ0)).

Lemma frame_refl : frame σ0 σ0.
Proof. split; [done|]. intros l o H1 H2. congruence. Qed.

Lemma keeps_alloc o : fresh_obj o → keeps (alloc o) (λ l, fresh_val (HRef l)).
Proof.
  intros Ho σ σ' r [Hold Hnew] [= <- <-].
  assert (σ !! fresh (dom σ) = None) as Hfresh
    by apply not_elem_of_dom, is_fresh.
  assert (σ0 !! fresh (dom σ) = None) as Hfresh0.
  { destruct (σ0 !! fresh (dom σ)) as [o'|] eqn:H0; [|done].
    apply Hold in H0. congruence. }
  split; [|done]. split.
  - intros l o' Hl. rewrite lookup_insert_ne; [by apply Hold|]. congruence.
  - intros l o' Hl H0. destruct (decide (fresh (dom σ) = l)) as [<-|Hne].
    + rewrite lookup_insert_eq in Hl. by injection Hl as <-.
    + rewrite lookup_insert_ne in Hl by done. by eapply Hnew.
Qed.

Lemma keeps_load l : keeps (load l) (λ o, fresh_val (HRef l) → fresh_obj o).
Proof.
  intros σ σ' r [Hold Hnew]. unfold load.
  destruct (σ !! l) as [o|] eqn:Hl; [|done]. intros [= <- <-].
  split; [done|]. simpl. intros H0. by eapply Hnew.
Qed.

Lemma keeps_store l o :
  fresh_val (HRef l) → fresh_obj o → keeps (store l o) (λ _, True).
Proof.
  intros Hl Ho σ σ' r [Hold Hnew] [= <- <-]. split; [|done]. split.
  - intros l' o' Hl'. rewrite lookup_insert_ne; [by apply Hold|].
    simpl in Hl. congruence.
  - intros l' o' Hl' H0. destruct (decide (l = l')) as [<-|Hne].
    + rewrite lookup_insert_eq in Hl'. by injection Hl' as <-.
    + rewrite lookup_insert_ne in Hl' by done. by eapply Hnew.
Qed.

Lemma keeps_dict_get d k : fresh_val d → keeps (dict_get d k) fresh_val.
Proof.
  intros Hd. destruct d as [| |l]; simpl; try apply preserves_raise.
  eapply preserves_bind; [apply keeps_load|]. intros [m|xs] Ho.
  - apply preserves_ret. specialize (Ho Hd). simpl in Ho.
    destruct (m !! k) as [v|] eqn:Hk; simpl; [|done]. by eapply Ho.
  - apply preserves_raise.
Qed.

Lemma keeps_getitem d k : fresh_val d → keeps (getitem d k) fresh_val.
Proof.
  intros Hd. destruct d as [| |l]; simpl; try apply preserves_raise.
  eapply preserves_bind; [apply keeps_load|]. intros [m|xs] Ho.
  - destruct (m !! k) as [v|] eqn:Hk; [|apply preserves_raise].
    apply preserves_ret. specialize (Ho Hd). by eapply Ho.
  - apply preserves_raise.
Qed.

Lemma keeps_setitem d k v :
  fresh_val d → fresh_val v → keeps (setitem d k v) (λ _, True).
Proof.
  intros Hd Hv. destruct d as [| |l]; simpl; try apply preserves_raise.
  eapply preserves_bind; [apply keeps_load|]. intros [m|xs] Ho.
  - apply keeps_store; [done|]. specialize (Ho Hd). simpl in *.
    by apply map_Forall_insert_2.
  - apply preserves_raise.
Qed.

Lemma keeps_append l v :
  fresh_val l → fresh_val v → keeps (append l v) (λ _, True).
Proof.
  intros Hl Hv. destruct l as [| |l]; simpl; try apply preserves_raise.
  eapply preserves_bind; [apply keeps_load|]. intros [m|xs] Ho.
  - apply preserves_raise.
  - apply keeps_store; [done|]. specialize (Ho Hl). simpl in *.
    apply Forall_app. split; [done|]. by constructor.
Qed.

Lemma keeps_truthy v : keeps (truthy v) (λ _, True).
Proof.
  destruct v as [| |l]; simpl; try by apply preserves_ret.
  eapply preserves_bind; [apply keeps_load|].
  intros [m|xs] _; by apply preserves_ret.
Qed.

Lemma keeps_iter v : fresh_val v → keeps (iter v) (Forall fresh_val).
Proof.
  intros Hv. destruct v as [|s|l]; simpl.
  - apply preserves_raise.
  - apply preserves_ret. apply Forall_fmap, Forall_true. done.
  - eapply preserves_bind; [apply keeps_load|]. intros [m|xs] Ho.
    + apply preserves_ret. apply Forall_fmap, Forall_true. done.
    + apply preserves_ret. by apply Ho.
Qed.

(** *** deepcopy allocates, and writes to what it allocated *)

Definition fresh_memo (memo : gmap loc loc) : Prop :=
  map_Forall (λ _ y, fresh_val (HRef y)) memo.

Lemma keeps_deepcopy fuel x memo :
  fresh_memo memo →
  keeps (deepcopy fuel x memo) (λ r, fresh_val r.1 ∧ fresh_memo r.2).
Proof.
  revert x memo. induction fuel as [|fuel IH]; intros x memo Hmemo; cbn [deepcopy].
  { apply preserves_stuck. }
  destruct x as [| |l]; try by apply preserves_ret.
  destruct (memo !! l) as [y|] eqn:Hl.
  { apply preserves_ret. split; [|done]. by eapply Hmemo. }
  eapply preserves_bind; [apply keeps_load|]. intros [m|xs] _.
  - eapply preserves_bind; [by apply keeps_alloc, map_Forall_empty|].
    intros y Hy.
    eapply preserves_bind with (Q := fresh_memo).
    + apply preserves_foldM with (P := λ _, True).
      * intros kv memo' _ Hmemo'.
        eapply preserves_bind; [by apply IH|]. intros [v memo''] [Hv Hm''].
        eapply preserves_bind; [by apply keeps_setitem|]. intros _ _.
        by apply preserves_ret.
      * by apply Forall_true.
      * by apply map_Forall_insert_2.
    + intros memo' Hmemo'. by apply preserves_ret.
  - eapply preserves_bind; [by apply keeps_alloc; constructor|].
    intros y Hy.
    eapply preserves_bind with (Q := fresh_memo).
    + apply preserves_foldM with (P := λ _, True).
      * intros a memo' _ Hmemo'.
        eapply preserves_bind; [by apply IH|]. intros [v memo''] [Hv Hm''].
        eapply preserves_bind; [by apply keeps_append|]. intros _ _.
        by apply preserves_ret.
      * by apply Forall_true.
      * by apply map_Forall_insert_2.
    + intros memo' Hmemo'. by apply preserves_ret.
Qed.

(** *** The loop writes to the copy *)

Variable jinja : string → context → result string.

Lemma keeps_Template_render source kwargs :
  keeps (Template_render jinja source kwargs) (λ _, True).
Proof.
  destruct source as [|s|l]; simpl; try apply preserves_raise.
  destruct (jinja s kwargs); [by apply preserves_ret|apply preserves_raise].
Qed.

Ltac keeps_step :=
  first
    [ eapply preserves_bind; [by apply keeps_dict_get|]; intros ? ?
    | eapply preserves_bind; [by apply keeps_getitem|]; intros ? ?
    | eapply preserves_bind; [apply keeps_truthy|]; intros [|] _
    | eapply preserves_bind; [apply keeps_Template_render|]; intros ? _
    | eapply preserves_bind; [by apply keeps_setitem|]; intros _ _
    | by apply keeps_setitem
    | by apply preserves_ret
    | apply preserves_raise ].

Lemma keeps_render_field k kwargs d :
  fresh_val d → keeps (render_field jinja k kwargs d) (λ _, True).
Proof. intros Hd. unfold render_field. repeat keeps_step. Qed.

Lemma keeps_render_title_link kwargs d :
  fresh_val d → keeps (render_title_link jinja kwargs d) (λ _, True).
Proof.
  intros Hd. unfold render_title_link. repeat keeps_step.
  repeat case_bool_decide; by apply preserves_ret.
Qed.

Lemma keeps_render_text kwargs d :
  fresh_val d → keeps (render_text jinja kwargs d) (λ _, True).
Proof. intros Hd. unfold render_text. repeat keeps_step. Qed.

Lemma keeps_render_button_item k kwargs button :
  fresh_val button → keeps (render_button_item jinja k kwargs button) (λ _, True).
Proof. intros Hb. unfold render_button_item. repeat keeps_step. Qed.

Lemma keeps_render_button_optional k kwargs button :
  fresh_val button →
  keeps (render_button_optional jinja k kwargs button) (λ _, True).
Proof.
  intros Hb. unfold render_button_optional. repeat keeps_step.
Qed.

Lemma keeps_render_button kwargs button :
  fresh_val button → keeps (render_button jinja kwargs button) (λ _, True).
Proof.
  intros Hb. unfold render_button.
  eapply preserves_bind; [by apply keeps_render_button_item|]. intros _ _.
  eapply preserves_bind; [by apply keeps_render_button_item|]. intros _ _.
  eapply preserves_bind; [by apply keeps_render_button_optional|]. intros _ _.
  by apply keeps_render_button_optional.
Qed.

Lemma keeps_render_buttons kwargs d :
  fresh_val d → keeps (render_buttons jinja kwargs d) (λ _, True).
Proof.
  intros Hd. unfold render_buttons. repeat keeps_step.
  eapply preserves_bind; [by apply keeps_iter|]. intros items Hitems.
  eapply preserves_for_each; [|done]. intros b Hb. by apply keeps_render_button.
Qed.

Lemma keeps_subscript mapping key :
  fresh_val mapping → keeps (subscript mapping key) fresh_val.
Proof.
  intros Hm. destruct mapping as [| |l]; simpl; try apply preserves_raise.
  eapply preserves_bind; [apply keeps_load|]. intros [m|xs] Ho.
  - destruct key as [|k|?|?]; try apply preserves_raise.
    destruct (m !! k) as [v|] eqn:Hk; [|apply preserves_raise].
    apply preserves_ret. specialize (Ho Hm). by eapply Ho.
  - destruct key; apply preserves_raise.
Qed.

Lemma keeps_render_status_mapping kwargs d :
  fresh_val d → keeps (render_status_mapping kwargs d) (λ _, True).
Proof.
  intros Hd. unfold render_status_mapping. repeat keeps_step.
  eapply preserves_bind with (Q := λ _, True).
  { destruct (kwargs !! "status"); [by apply preserves_ret|apply preserves_raise]. }
  intros status _.
  eapply preserves_bind; [by apply keeps_subscript|]. intros text Htext.
  by apply keeps_setitem.
Qed.

Lemma keeps_render_block kwargs d :
  fresh_val d → keeps (render_block jinja kwargs d) (λ _, True).
Proof.
  intros Hd. unfold render_block.
  eapply preserves_bind; [by apply keeps_render_field|]. intros _ _.
  eapply preserves_bind; [by apply keeps_render_field|]. intros _ _.
  eapply preserves_bind; [by apply keeps_render_title_link|]. intros [|] _;
    [|by apply preserves_ret].
  eapply preserves_bind; [by apply keeps_render_text|]. intros _ _.
  eapply preserves_bind; [by apply keeps_render_buttons|]. intros _ _.
  eapply preserves_bind; [by apply keeps_render_status_mapping|]. intros _ _.
  eapply preserves_bind; [by apply keeps_render_field|]. intros _ _.
  eapply preserves_bind; [by apply keeps_render_field|]. intros _ _.
  by apply preserves_ret.
Qed.

Lemma keeps_render_message_template fuel message_template kwargs :
  keeps (render_message_template jinja fuel message_template kwargs) (λ _, True).
Proof.
  unfold render_message_template.
  eapply preserves_bind; [by apply keeps_alloc; constructor|]. intros data Hdata.
  eapply preserves_bind; [by apply keeps_deepcopy, map_Forall_empty|].
  intros [new_copy memo] [Hcopy _].
  eapply preserves_bind; [by apply keeps_iter|]. intros items Hitems.
  eapply preserves_bind.
  - eapply preserves_for_each; [|done]. intros d Hd.
    eapply preserves_bind; [by apply keeps_render_block|]. intros [|] _.
    + by apply keeps_append.
    + by apply preserves_ret.
  - intros _ _. by apply preserves_ret.
Qed.

End frame.

(** C6. render_message_template never mutates the caller's input: every
    object that exists when the call starts (the input list, its blocks, and
    the button lists, buttons and status mappings they refer to) is, when the
    call ends, returning or raising, at the same place with the same contents. *)
Theorem render_message_template_leaves_input jinja fuel message_template kwargs
    (σ σ' : heap) r :
  render_message_template jinja fuel message_template kwargs σ = Some (σ', r) →
  ∀ l o, σ !! l = Some o → σ' !! l = Some o.
Proof.
  intros Hr.
  destruct (keeps_render_message_template σ jinja fuel message_template kwargs
              σ σ' r (frame_refl σ) Hr) as [[Hold _] _].
  exact Hold.
Qed.

Lemma render_message_template_leaves_input_witness :
  ∃ σ' data,
    render_message_template ex_engine_name 5 (HRef 6) ex_kwargs_open ex_heap
    = Some (σ', Ok (HRef data))
    ∧ ex_heap !! data = None
    ∧ σ' !! 6%positive = Some (OList [HRef 1; HRef 2])
    ∧ σ' !! 1%positive
      = Some (ODict {[ "title" := HStr "{{name}}"; "buttons" := HRef 3;
                       "status_mapping" := HRef 5 ]})
    ∧ σ' !! 4%positive
      = Some (ODict {[ "button_text" := HStr "Join {{name}}";
                       "button_value" := HStr "{{name}}" ]}).
Proof.
  destruct ex_render as [[σ' [[| |data]|e]]|] eqn:Hex; try discriminate.
  exists σ', data.
  assert (render_message_template ex_engine_name 5 (HRef 6) ex_kwargs_open ex_heap
          = Some (σ', Ok (HRef data))) as Hr.
  { rewrite <- Hex. vm_compute. reflexivity. }
  split; [done|]. split; [injection Hex as <- <-; reflexivity|].
  repeat split;
    by apply (render_message_template_leaves_input _ _ _ _ ex_heap σ' _ Hr).
Defined.

(** On the example template, whose blocks share the status mapping, which
    is only read, the renderer on the heap and the renderer by value agree. *)
Example ex_render_agrees :
  ∃ σ' data,
    ex_render = Some (σ', Ok data)
    ∧ Strings.render_message_template ex_engine_name
        (to_template ex_heap (HRef 6)) ex_kwargs_open
      = Ok (to_template σ' data).
Proof. eexists _, _. split; [reflexivity|]. vm_compute. reflexivity. Qed.

(** A block object that occurs twice in the template is copied once and
    rendered twice: its title link resolves to the empty string in the first
    round, which skips it, and is then empty in the second round, which keeps
    it. The renderer by value describes templates of separate objects only. *)
Example ex_render_alias_keeps_second :
  ∃ σ' data,
    ex_render_alias = Some (σ', Ok data)
    ∧ to_template σ' data = [ {[ "title_link" := VStr "" ]} ]
    ∧ Strings.render_message_template ex_engine_name
        (to_template ex_heap_alias (HRef 2)) ∅ = Ok [].
Proof.
  eexists _, _. split; [reflexivity|]. split; vm_compute; reflexivity.
Qed.

End StringsHeapFacts.

(** ** The renderer on the heap and the renderer by value *)

(** On a template that is laid out as a tree, [StringsHeap] and [Strings]
    agree: the copy is a tree that reads as the original, every stage of the
    loop writes to the block at hand only, and the list that the call
    returns reads as the result by value. *)
Module StringsTreeFacts.

Import Strings StringsHeap StringsTree.

(** *** Reading the heap *)

(** What a well-formed value reaches is in the heap. *)
Lemma wf_reach_dom n σ v l : wf n σ v → l ∈ reach n σ v → is_Some (σ !! l).
Proof.
  revert v. induction n as [|n IH]; intros [| |l0]; simpl; try by intros _ ?%elem_of_nil.
  destruct (σ !! l0) as [o|] eqn:Hl0; [|done].
  intros Hwf [->|Hin]%elem_of_cons; [by rewrite Hl0|].
  apply list_elem_of_bind in Hin as (c & Hin & Hc).
  rewrite Forall_forall in Hwf. eauto.
Qed.

(** Heaps that agree on what is reachable from a value read the same. *)
Lemma agree_reach n σ σ' v :
  (∀ l, l ∈ reach n σ v → σ' !! l = σ !! l) →
  reach n σ' v = reach n σ v ∧ read n σ' v = read n σ v ∧ (wf n σ v → wf n σ' v).
Proof.
  revert v. induction n as [|n IH]; intros [| |l0] Hag; simpl in *; try done.
  rewrite (Hag l0) by left.
  destruct (σ !! l0) as [o|] eqn:Hl0; [|done].
  assert (∀ c, c ∈ children o →
               reach n σ' c = reach n σ c ∧ read n σ' c = read n σ c
               ∧ (wf n σ c → wf n σ' c)) as Hc.
  { intros c Hc. apply IH. intros l Hl. apply Hag. right.
    apply list_elem_of_bind. eauto. }
  split; [|split].
  - f_equal. apply Forall_bind_ext, Forall_forall. intros c Hcin. by apply Hc.
  - destruct o as [m|xs]; simpl in *; f_equal.
    + apply map_fmap_ext. intros k c Hk. apply Hc.
      apply list_elem_of_fmap. exists (k, c). split; [done|].
      by apply elem_of_map_to_list.
    + apply list_fmap_ext. intros i c Hi. apply Hc.
      by eapply list_elem_of_lookup_2.
  - rewrite !Forall_forall. intros Hwf c Hcin. apply Hc; auto.
Qed.

(** *** The copy of a tree *)

(** The loop of [deepcopy] over the items of a list or of a dict: each item
    is copied and put into the new object [y], whose contents after the
    items [done] are [shape done]. *)
Section items.

Context {A : Type} (g : A → val) (put : A → val → M unit) (y : loc)
        (shape : list (A * val) → obj).
Hypothesis Hput : ∀ σ done x c,
  σ !! y = Some (shape done) →
  put x c σ = Some (<[y := shape (done ++ [(x, c)])]> σ, Ok tt).

Variables n fuel : nat.
Hypothesis IHn : deepcopy_ok n fuel.

(** The items are trees that do not overlap and are not in the memo: their
    copies are made one after the other, and no copy is touched when the
    next is made. *)
Lemma copy_items xs : ∀ σ memo done,
  σ !! y = Some (shape done) →
  Forall (λ x, wf n σ (g x)) xs →
  NoDup (xs ≫= λ x, reach n σ (g x)) →
  (∀ l, l ∈ (xs ≫= λ x, reach n σ (g x)) → memo !! l = None ∧ l ≠ y) →
  ∃ σ' memo' cs,
    foldM (λ x memo, let! r := deepcopy fuel (g x) memo in
                     put x r.1 ;;; ret r.2) xs memo σ
    = Some (σ', Ok memo')
    ∧ length cs = length xs
    ∧ σ' !! y = Some (shape (done ++ zip xs cs))
    ∧ (∀ l, is_Some (σ !! l) → l ≠ y → σ' !! l = σ !! l)
    ∧ Forall2 (λ x c, read n σ' c = read n σ (g x)) xs cs
    ∧ Forall (wf n σ') cs
    ∧ NoDup (cs ≫= reach n σ')
    ∧ (∀ l, is_Some (σ' !! l) ↔ is_Some (σ !! l) ∨ l ∈ (cs ≫= reach n σ'))
    ∧ (∀ l, l ∈ (cs ≫= reach n σ') → σ !! l = None)
    ∧ (∀ l, is_Some (memo' !! l)
            ↔ is_Some (memo !! l) ∨ l ∈ (xs ≫= λ x, reach n σ (g x))).
Proof.
  induction xs as [|x xs IH]; intros σ memo done Hy Hwf Hnd Hmemo.
  { exists σ, memo, []. simpl. rewrite app_nil_r.
    split_and!; try done; try constructor.
    - by left.
    - by intros [?|?%elem_of_nil].
    - by intros l ?%elem_of_nil.
    - by left.
    - by intros [?|?%elem_of_nil]. }
  apply Forall_cons in Hwf as [Hwfx Hwf].
  rewrite bind_cons in Hnd, Hmemo.
  apply NoDup_app in Hnd as (Hndx & Hdisj & Hnd).
  destruct (IHn σ (g x) memo Hwfx Hndx) as (σ1 & c & memo1 & Hdc & Hc).
  { intros l Hl. apply Hmemo, elem_of_app. by left. }
  destruct Hc as (Hold1 & Hread1 & Hwf1 & Hnd1 & Hdom1 & Hfresh1 & Hmemo1).
  assert (σ1 !! y = Some (shape done)) as Hy1.
  { rewrite Hold1; [done|]. by rewrite Hy. }
  set (σ2 := <[y := shape (done ++ [(x, c)])]> σ1).
  (* the rest of the items, in σ2 *)
  assert (∀ l, is_Some (σ !! l) → l ≠ y → σ2 !! l = σ !! l) as Hold2.
  { intros l Hl Hne. unfold σ2. rewrite lookup_insert_ne by done. by apply Hold1. }
  assert (∀ x', x' ∈ xs →
            reach n σ2 (g x') = reach n σ (g x')
            ∧ read n σ2 (g x') = read n σ (g x')
            ∧ (wf n σ (g x') → wf n σ2 (g x'))) as Hag2.
  { intros x' Hx'. apply agree_reach. intros l Hl. apply Hold2.
    - eapply wf_reach_dom; [|done]. rewrite Forall_forall in Hwf. by apply Hwf.
    - apply Hmemo, elem_of_app. right. apply list_elem_of_bind. eauto. }
  assert ((xs ≫= λ x, reach n σ2 (g x)) = (xs ≫= λ x, reach n σ (g x))) as Hreach2.
  { apply Forall_bind_ext, Forall_forall. intros x' Hx'. by apply Hag2. }
  destruct (IH σ2 memo1 (done ++ [(x, c)])) as (σ' & memo' & cs & Hfold & Hlen & Hy'
    & Hold' & Hread' & Hwf' & Hnd' & Hdom' & Hfresh' & Hmemo').
  { unfold σ2. apply lookup_insert_eq. }
  { rewrite Forall_forall in Hwf. apply Forall_forall. intros x' Hx'.
    apply Hag2; auto. }
  { by rewrite Hreach2. }
  { rewrite Hreach2. intros l Hl. split; [|apply Hmemo, elem_of_app; by right].
    destruct (memo1 !! l) as [y'|] eqn:Hm1; [|done].
    destruct (proj1 (Hmemo1 l)) as [Hm|Hin]; [by eexists| |].
    - destruct (Hmemo l) as [Hm0 _]; [apply elem_of_app; by right|].
      rewrite Hm0 in Hm. by destruct Hm.
    - by destruct (Hdisj l Hin). }
  (* the copy [c] is left alone by the rest *)
  assert (∀ l, l ∈ reach n σ1 c → σ' !! l = σ1 !! l) as Hc'.
  { intros l Hl.
    assert (l ≠ y) as Hne.
    { intros ->. apply Hfresh1 in Hl. congruence. }
    rewrite Hold'; [by apply lookup_insert_ne| |done].
    unfold σ2. rewrite lookup_insert_ne by done. by eapply wf_reach_dom. }
  destruct (agree_reach n σ1 σ' c Hc') as (Hreachc & Hreadc & Hwfc).
  exists σ', memo', (c :: cs).
  split.
  { simpl. unfold bind at 1. unfold bind at 1. rewrite Hdc. simpl.
    unfold bind at 1. rewrite (Hput _ _ _ _ Hy1). simpl. exact Hfold. }
  split; [simpl; by rewrite Hlen|].
  split; [by rewrite Hy', <- app_assoc|].
  split.
  { intros l Hl Hne. rewrite Hold'; [by apply Hold2| |done].
    rewrite Hold2 by done. done. }
  assert (∀ l, is_Some (σ2 !! l) ↔ is_Some (σ1 !! l)) as Hdom2.
  { intros l. unfold σ2. destruct (decide (y = l)) as [<-|Hne].
    - rewrite lookup_insert_eq, Hy1. split; by eexists.
    - by rewrite lookup_insert_ne. }
  split.
  { constructor; [by rewrite Hreadc|].
    apply Forall2_same_length_lookup. split; [done|]. intros i x' c' Hx' Hc''.
    rewrite (Forall2_lookup_lr _ _ _ _ _ _ Hread' Hx' Hc'').
    apply Hag2. by eapply list_elem_of_lookup_2. }
  split; [constructor; auto|].
  rewrite bind_cons, Hreachc.
  split.
  { apply NoDup_app. split; [done|]. split; [|done].
    intros l Hl Hl'. apply Hfresh' in Hl'.
    assert (is_Some (σ2 !! l)) as [? ?]; [|congruence].
    apply Hdom2. by eapply wf_reach_dom. }
  split.
  { intros l. rewrite Hdom', Hdom2, Hdom1, elem_of_app. tauto. }
  split.
  { intros l [Hl|Hl]%elem_of_app; [by apply Hfresh1|].
    apply Hfresh' in Hl. destruct (σ !! l) as [o|] eqn:Hσ; [|done].
    assert (is_Some (σ2 !! l)) as [? ?]; [|congruence].
    apply Hdom2, Hdom1. left. by eexists. }
  intros l. rewrite bind_cons, Hmemo', Hmemo1, Hreach2, elem_of_app. tauto.
Qed.

End items.

Lemma bind_Ok {A B} (m : M A) (f : A → M B) σ σ' a :
  m σ = Some (σ', Ok a) → bind m f σ = f a σ'.
Proof. unfold bind. by intros ->. Qed.

Lemma Forall2_fmap_eq {A B C} (f : A → C) (g : B → C) xs cs :
  Forall2 (λ x c, f c = g x) xs cs → f <$> cs = g <$> xs.
Proof.
  induction 1 as [|x c xs cs Hxc _ IH]; [done|].
  rewrite !fmap_cons. by f_equal.
Qed.

Lemma append_shape y (σ : heap) (done : list (val * val)) (x c : val) :
  σ !! y = Some (OList (done.*2)) →
  append (HRef y) c σ = Some (<[y := OList ((done ++ [(x, c)]).*2)]> σ, Ok tt).
Proof.
  intros Hy. unfold append, bind, load. rewrite Hy. simpl. unfold store.
  by rewrite fmap_app.
Qed.

Lemma setitem_shape y (σ : heap) (done : list ((string * val) * val)) kv c :
  σ !! y = Some (ODict (dict_of done)) →
  setitem (HRef y) kv.1 c σ
  = Some (<[y := ODict (dict_of (done ++ [(kv, c)]))]> σ, Ok tt).
Proof.
  intros Hy. unfold setitem, bind, load. rewrite Hy. simpl. unfold store, dict_of.
  by rewrite foldl_app.
Qed.

Lemma dict_of_list_to_map (done : list ((string * val) * val)) :
  NoDup (done.*1.*1) →
  dict_of done = list_to_map ((λ p, (p.1.1, p.2)) <$> done).
Proof.
  unfold dict_of. induction done as [|p done IH] using rev_ind; [done|].
  rewrite !fmap_app, foldl_app. simpl. intros [Hnd [Hdisj _]]%NoDup_app.
  rewrite IH by done. rewrite list_to_map_app. simpl.
  rewrite insert_empty. apply insert_union_singleton_r.
  apply not_elem_of_list_to_map_1. rewrite <- list_fmap_compose.
  intros Hin. apply (Hdisj p.1.1); [|left].
  by rewrite <- list_fmap_compose.
Qed.

Lemma copied_atom n σ v memo :
  (∀ l, v ≠ HRef l) → copied n σ v memo σ v memo.
Proof.
  intros Hv. assert (reach n σ v = []) as Hr.
  { destruct n, v; try done; by destruct (Hv l). }
  unfold copied. rewrite Hr. split_and!; try done.
  - destruct n, v; try done; by destruct (Hv l).
  - constructor.
  - intros l. split; [by left|]. by intros [?|?%elem_of_nil].
  - by intros l ?%elem_of_nil.
  - intros l. split; [by left|]. by intros [?|?%elem_of_nil].
Qed.

Lemma keyed_fst kvs cs : length cs = length kvs → (keyed kvs cs).*1 = kvs.*1.
Proof.
  unfold keyed. revert cs. induction kvs as [|kv kvs IH]; intros [|c cs] Hlen;
    simpl in *; try done. f_equal. apply IH. lia.
Qed.

Lemma keyed_snd kvs cs : length cs = length kvs → (keyed kvs cs).*2 = cs.
Proof.
  unfold keyed. revert cs. induction kvs as [|kv kvs IH]; intros [|c cs] Hlen;
    simpl in *; try done. f_equal. apply IH. lia.
Qed.

Lemma keyed_fmap (rd rd' : val → tree) kvs cs :
  Forall2 (λ x c, rd' c = rd x.2) kvs cs →
  prod_map id rd' <$> keyed kvs cs = prod_map id rd <$> kvs.
Proof.
  unfold keyed. induction 1 as [|[k v] c kvs cs Hc _ IH]; [done|].
  cbn [zip zip_with fmap list_fmap]. f_equal; [|exact IH].
  unfold prod_map. simpl in *. by rewrite Hc.
Qed.

Lemma dict_of_keyed (m : gmap string val) cs :
  length cs = length (map_to_list m) →
  dict_of (zip (map_to_list m) cs) = list_to_map (keyed (map_to_list m) cs).
Proof.
  intros Hlen. apply dict_of_list_to_map.
  rewrite fst_zip by lia. apply NoDup_fst_map_to_list.
Qed.

(** The copy of one object [o] at [l0], given that the copy of [n] levels
    is right: the new object is allocated, recorded in the memo, and filled
    by the loop over the items. *)
Section copy_object.

Context {A : Type} (g : A → val) (put : loc → A → val → M unit)
        (shape : list (A * val) → obj).
Hypothesis Hput : ∀ y σ done x c,
  σ !! y = Some (shape done) →
  put y x c σ = Some (<[y := shape (done ++ [(x, c)])]> σ, Ok tt).

Variables (o : obj) (items : list A).
Hypothesis Hitems : children o = g <$> items.
Hypothesis Hperm : ∀ cs,
  length cs = length items → children (shape (zip items cs)) ≡ₚ cs.
Hypothesis Hread : ∀ (rd rd' : val → tree) cs,
  Forall2 (λ x c, rd' c = rd (g x)) items cs →
  read_obj rd' (shape (zip items cs)) = read_obj rd o.

Variables n fuel : nat.
Hypothesis IHn : deepcopy_ok n fuel.

Lemma copy_object σ l0 memo :
  σ !! l0 = Some o →
  Forall (wf n σ) (children o) →
  NoDup (l0 :: (children o ≫= reach n σ)) →
  (∀ l, l ∈ l0 :: (children o ≫= reach n σ) → memo !! l = None) →
  ∃ σ' y memo',
    (let! y := alloc (shape []) in
     let! memo := foldM (λ x memo, let! r := deepcopy fuel (g x) memo in
                                   put y x r.1 ;;; ret r.2)
                        items (<[l0 := y]> memo) in
     ret (HRef y, memo)) σ
    = Some (σ', Ok (HRef y, memo'))
    ∧ copied (S n) σ (HRef l0) memo σ' (HRef y) memo'.
Proof.
  intros Hl0 Hwf [Hl0nin Hnd]%NoDup_cons Hmemo.
  set (y := fresh (dom σ)).
  assert (σ !! y = None) as Hy by apply not_elem_of_dom, is_fresh.
  set (σ1 := <[y := shape []]> σ).
  assert (∀ l, is_Some (σ !! l) → σ1 !! l = σ !! l) as Hold1.
  { intros l [o' Hl]. unfold σ1. apply lookup_insert_ne. congruence. }
  assert (∀ c, c ∈ children o →
            reach n σ1 c = reach n σ c ∧ read n σ1 c = read n σ c
            ∧ (wf n σ c → wf n σ1 c)) as Hag1.
  { intros c Hc. apply agree_reach. intros l Hl. apply Hold1.
    eapply wf_reach_dom; [|done]. rewrite Forall_forall in Hwf. by apply Hwf. }
  assert ((items ≫= λ x, reach n σ1 (g x)) = (children o ≫= reach n σ)) as Hreach1.
  { rewrite Hitems, list_fmap_bind. apply Forall_bind_ext, Forall_forall.
    intros x Hx. simpl. apply Hag1. rewrite Hitems. by apply list_elem_of_fmap_2. }
  destruct (copy_items g (put y) y shape (Hput y) n fuel IHn items σ1
              (<[l0 := y]> memo) [])
    as (σ' & memo' & cs & Hfold & Hlen & Hy' & Hold' & Hread' & Hwf' & Hnd'
        & Hdom' & Hfresh' & Hmemo').
  { unfold σ1. apply lookup_insert_eq. }
  { apply Forall_forall. intros x Hx. apply Hag1.
    - rewrite Hitems. by apply list_elem_of_fmap_2.
    - rewrite Forall_forall in Hwf. apply Hwf. rewrite Hitems.
      by apply list_elem_of_fmap_2. }
  { by rewrite Hreach1. }
  { rewrite Hreach1. intros l Hl.
    assert (is_Some (σ !! l)) as Hsome.
    { apply list_elem_of_bind in Hl as (c & Hl & Hc).
      eapply wf_reach_dom; [|done]. rewrite Forall_forall in Hwf. by apply Hwf. }
    split.
    - rewrite lookup_insert_ne; [apply Hmemo; by right|]. by intros <-.
    - intros ->. rewrite Hy in Hsome. by destruct Hsome. }
  simpl in Hy'.
  pose proof (Hperm cs Hlen) as Hp.
  exists σ', y, memo'. split.
  { unfold bind at 1. unfold alloc. fold y. fold σ1.
    by rewrite (bind_Ok _ _ _ _ _ Hfold). }
  unfold copied. simpl. rewrite Hy', Hl0.
  assert (children (shape (zip items cs)) ≫= reach n σ' ≡ₚ cs ≫= reach n σ')
    as Hpr by by rewrite Hp.
  split_and!.
  - intros l Hl. rewrite Hold'; [by apply Hold1| |].
    + by rewrite Hold1.
    + intros ->. rewrite Hy in Hl. by destruct Hl.
  - apply Hread. apply Forall2_same_length_lookup. split; [done|].
    intros i x c Hx Hc. rewrite (Forall2_lookup_lr _ _ _ _ _ _ Hread' Hx Hc).
    apply Hag1. rewrite Hitems. apply list_elem_of_fmap_2.
    by eapply list_elem_of_lookup_2.
  - by rewrite Hp.
  - apply NoDup_cons. split; [|by rewrite Hpr].
    rewrite Hpr. intros Hin. apply Hfresh' in Hin. unfold σ1 in Hin.
    by rewrite lookup_insert_eq in Hin.
  - intros l. rewrite Hdom', elem_of_cons, Hpr. unfold σ1.
    destruct (decide (y = l)) as [<-|Hne].
    + rewrite lookup_insert_eq. split; [intros _; right; by left|].
      intros _. left. by eexists.
    + rewrite lookup_insert_ne by done. intuition congruence.
  - intros l [->|Hin]%elem_of_cons; [done|]. rewrite Hpr in Hin.
    apply Hfresh' in Hin. unfold σ1 in Hin.
    destruct (decide (y = l)) as [<-|Hne]; [done|].
    by rewrite lookup_insert_ne in Hin.
  - intros l. rewrite Hmemo', Hreach1, elem_of_cons.
    destruct (decide (l0 = l)) as [<-|Hne].
    + rewrite lookup_insert_eq. split; [intros _; right; by left|].
      intros _. left. by eexists.
    + rewrite lookup_insert_ne by done. intuition congruence.
Qed.

End copy_object.

(** [copy.deepcopy] of a tree of depth at most [n], with fuel for it,
    returns a copy. *)
Lemma deepcopy_tree n : ∀ fuel, n < fuel → deepcopy_ok n fuel.
Proof.
  induction n as [|n IH]; intros [|fuel] Hfuel σ v memo Hwf Hnd Hmemo; try lia.
  { destruct v as [| |l]; [| |done]; eexists σ, _, memo;
      (split; [reflexivity|]); by apply copied_atom. }
  destruct v as [| |l0].
  1,2: eexists σ, _, memo; (split; [reflexivity|]); by apply copied_atom.
  assert (deepcopy_ok n fuel) as IHn by (apply IH; lia).
  pose proof Hwf as Hwf'. pose proof Hnd as Hnd'. pose proof Hmemo as Hmemo'.
  simpl in Hwf', Hnd', Hmemo'.
  destruct (σ !! l0) as [o|] eqn:Hl0; [|done].
  assert (memo !! l0 = None) as Hm0 by (apply Hmemo'; left).
  cbn [deepcopy]. rewrite Hm0.
  assert (load l0 σ = Some (σ, Ok o)) as Hload by (unfold load; by rewrite Hl0).
  rewrite (bind_Ok _ _ _ _ _ Hload).
  destruct o as [m|xs].
  - destruct (copy_object snd (λ y kv c, setitem (HRef y) kv.1 c)
                (λ done, ODict (dict_of done))
                (λ y σ done x c, setitem_shape y σ done x c)
                (ODict m) (map_to_list m)) with (n := n) (fuel := fuel)
                (σ := σ) (l0 := l0) (memo := memo)
      as (σ' & y & memo' & Hrun & Hcopied); try done.
    + intros cs Hlen. simpl. rewrite dict_of_keyed by done.
      rewrite map_to_list_to_map, keyed_snd; [done..|].
      rewrite keyed_fst by done. apply NoDup_fst_map_to_list.
    + intros rd rd' cs HF. simpl. f_equal.
      rewrite dict_of_keyed by (apply Forall2_length in HF; lia).
      rewrite <- list_to_map_fmap, (keyed_fmap _ _ _ _ HF).
      by rewrite list_to_map_fmap, list_to_map_to_list.
    + eauto.
  - destruct (copy_object id (λ y a c, append (HRef y) c)
                (λ done, OList (done.*2))
                (λ y σ done x c, append_shape y σ done x c)
                (OList xs) xs) with (n := n) (fuel := fuel)
                (σ := σ) (l0 := l0) (memo := memo)
      as (σ' & y & memo' & Hrun & Hcopied); try done.
    + simpl. by rewrite list_fmap_id.
    + intros cs Hlen. simpl. rewrite snd_zip; [done|lia].
    + intros rd rd' cs HF. simpl. rewrite snd_zip.
      * f_equal. rewrite (Forall2_fmap_eq _ _ _ _ HF). done.
      * apply Forall2_length in HF. lia.
    + eauto.
Qed.

Lemma reach_refs n σ vs :
  vs ≫= reach n σ = refs vs ≫= λ l, reach n σ (HRef l).
Proof.
  unfold refs. induction vs as [|v vs IH]; [done|].
  rewrite !bind_cons, bind_app, IH. f_equal.
  destruct v, n; simpl; try done; by rewrite app_nil_r.
Qed.

Lemma elem_of_refs l vs : l ∈ refs vs ↔ HRef l ∈ vs.
Proof.
  unfold refs. rewrite list_elem_of_bind. split.
  - intros ([| |l'] & Hl & Hv); simpl in Hl; try by apply elem_of_nil in Hl.
    apply list_elem_of_singleton in Hl as ->. done.
  - intros Hv. exists (HRef l). split; [by left|done].
Qed.

Lemma bind_submseteq_ext {A B} (f g : A → list B) l1 l2 :
  l1 ⊆+ l2 → (∀ x, f x ⊆+ g x) → l1 ≫= f ⊆+ l2 ≫= g.
Proof.
  intros Hl Hfg. trans (l1 ≫= g).
  - clear Hl. induction l1 as [|x l1 IH]; [done|].
    rewrite !bind_cons. by apply submseteq_app.
  - by rewrite Hl.
Qed.

Lemma submseteq_NoDup {A} (l k : list A) : NoDup k → l ⊆+ k → NoDup l.
Proof.
  intros Hk (k' & Hsub & Hperm)%submseteq_sublist_l.
  eapply sublist_NoDup; [|done]. by rewrite Hperm.
Qed.

(** Replacing an object by one that refers to no more objects. *)
Section update.

Variables (σ : heap) (l : loc) (o o' : obj).
Hypothesis Hl : σ !! l = Some o.
Hypothesis Hrefs : refs (children o') ⊆+ refs (children o).

Lemma update_reach n v : reach n (<[l := o']> σ) v ⊆+ reach n σ v.
Proof.
  revert v. induction n as [|n IH]; intros [| |l1]; simpl; try done.
  apply submseteq_skip.
  destruct (decide (l = l1)) as [<-|Hne].
  - rewrite lookup_insert_eq, Hl. rewrite !(reach_refs n).
    apply bind_submseteq_ext; [done|]. intros l1. apply IH.
  - rewrite lookup_insert_ne by done. destruct (σ !! l1) as [o1|]; [|done].
    apply bind_submseteq_ext; [done|]. apply IH.
Qed.

Lemma update_wf n v : wf n σ v → wf n (<[l := o']> σ) v.
Proof.
  revert v. induction n as [|n IH]; intros [| |l1]; simpl; try done.
  destruct (decide (l = l1)) as [<-|Hne].
  - rewrite lookup_insert_eq, Hl. rewrite !Forall_forall. intros Hwf c Hc.
    destruct c as [| |lc]; try by destruct n.
    apply IH, Hwf. apply elem_of_refs.
    eapply elem_of_submseteq; [|exact Hrefs]. by apply elem_of_refs.
  - rewrite lookup_insert_ne by done. destruct (σ !! l1) as [o1|]; [|done].
    intros H. eapply Forall_impl; [exact H|apply IH].
Qed.

Lemma update_separate n v : separate n σ v → separate n (<[l := o']> σ) v.
Proof.
  intros [Hwf Hnd]. split; [by apply update_wf|].
  eapply submseteq_NoDup; [|apply update_reach]. done.
Qed.

Lemma update_read n v :
  l ∉ reach n σ v → read n (<[l := o']> σ) v = read n σ v.
Proof.
  intros Hnin. apply agree_reach. intros l1 Hl1. apply lookup_insert_ne.
  by intros <-.
Qed.

End update.

Lemma refs_cons_nonref a vs : nonref a → refs (a :: vs) = refs vs.
Proof. unfold refs. rewrite bind_cons. by destruct a. Qed.

#[global] Instance refs_Permutation : Proper ((≡ₚ) ==> (≡ₚ)) refs.
Proof. intros vs1 vs2 H. unfold refs. by rewrite H. Qed.

Lemma refs_insert_atom (m : gmap string val) k a :
  nonref a →
  refs (children (ODict (<[k := a]> m))) ⊆+ refs (children (ODict m)).
Proof.
  intros Ha. simpl.
  assert ((map_to_list (<[k := a]> m)).*2 ≡ₚ a :: (map_to_list (delete k m)).*2) as ->.
  { rewrite <- insert_delete_eq.
    rewrite map_to_list_insert by apply lookup_delete_eq. done. }
  rewrite refs_cons_nonref by done.
  destruct (m !! k) as [v|] eqn:Hk.
  - rewrite <- (map_to_list_delete m k v Hk). rewrite fmap_cons.
    unfold refs at 2. rewrite bind_cons. apply submseteq_inserts_l. done.
  - by rewrite delete_id.
Qed.

(** *** Separate children *)

Lemma list_children_NoDup {B} (f : val → list B) (xs : list val) x :
  NoDup (xs ≫= f) → x ∈ xs → NoDup (f x).
Proof.
  intros Hnd (i & Hi)%list_elem_of_lookup.
  rewrite <- (take_drop_middle xs i x Hi), bind_app, bind_cons in Hnd.
  by apply NoDup_app in Hnd as (_ & _ & (? & _ & _)%NoDup_app).
Qed.

Lemma dict_children_NoDup {B} (f : val → list B) (m : gmap string val) k v :
  NoDup ((map_to_list m).*2 ≫= f) → m !! k = Some v → NoDup (f v).
Proof.
  intros Hnd Hk. eapply list_children_NoDup; [done|].
  apply list_elem_of_fmap. exists (k, v). split; [done|].
  by apply elem_of_map_to_list.
Qed.

Lemma dict_children_disjoint {B} (f : val → list B) (m : gmap string val)
    k1 k2 v1 v2 b :
  NoDup ((map_to_list m).*2 ≫= f) →
  m !! k1 = Some v1 → m !! k2 = Some v2 → k1 ≠ k2 →
  b ∈ f v1 → b ∉ f v2.
Proof.
  intros Hnd H1 H2 Hne Hb1 Hb2.
  rewrite <- (map_to_list_delete m k1 v1 H1), fmap_cons, bind_cons in Hnd.
  apply NoDup_app in Hnd as (_ & Hdisj & _). apply (Hdisj b Hb1).
  apply list_elem_of_bind. exists v2. split; [done|].
  apply list_elem_of_fmap. exists (k2, v2). split; [done|].
  apply elem_of_map_to_list. by rewrite lookup_delete_ne.
Qed.

(** *** Heaps that evolve by writing atoms *)

Lemma evolves_refl L σ : evolves L σ σ.
Proof. by split_and!. Qed.

Lemma evolves_trans L σ1 σ2 σ3 :
  evolves L σ1 σ2 → evolves L σ2 σ3 → evolves L σ1 σ3.
Proof.
  intros (H1 & H2 & H3) (H1' & H2' & H3'). split_and!.
  - intros l Hl. by rewrite H1', H1.
  - intros n v. by trans (reach n σ2 v).
  - auto.
Qed.

Lemma evolves_mono L L' σ σ' :
  (∀ l, l ∈ L → l ∈ L') → evolves L σ σ' → evolves L' σ σ'.
Proof. intros HL (H1 & H2 & H3). split_and!; auto. Qed.

Lemma evolves_update σ l o o' :
  σ !! l = Some o → refs (children o') ⊆+ refs (children o) →
  evolves [l] σ (<[l := o']> σ).
Proof.
  intros Hl Hrefs. split_and!.
  - intros l1 Hl1. apply lookup_insert_ne. intros <-. apply Hl1. left.
  - intros n v. by eapply update_reach.
  - intros n v. by eapply update_wf.
Qed.

Lemma evolves_read L σ σ' n v :
  evolves L σ σ' → (∀ l, l ∈ reach n σ v → l ∉ L) →
  read n σ' v = read n σ v ∧ reach n σ' v = reach n σ v.
Proof.
  intros (H1 & _) Hdisj.
  destruct (agree_reach n σ σ' v) as (? & ? & _); [|done].
  intros l Hl. by apply H1, Hdisj.
Qed.

Lemma evolves_separate L σ σ' n v :
  evolves L σ σ' → separate n σ v → separate n σ' v.
Proof.
  intros (_ & H2 & H3) [Hwf Hnd]. split; [by apply H3|].
  eapply submseteq_NoDup; [exact Hnd|apply H2].
Qed.

(** *** Running the monad *)

Lemma bind_Raise {A B} (m : M A) (f : A → M B) σ σ' e :
  m σ = Some (σ', Raise e) → bind m f σ = Some (σ', Raise e).
Proof. unfold bind. by intros ->. Qed.

(** *** Typed objects *)

Lemma reach_S n σ l :
  reach (S n) σ (HRef l)
  = l :: match σ !! l with Some o => children o ≫= reach n σ | None => [] end.
Proof. done. Qed.

Lemma wf_S n σ l :
  wf (S n) σ (HRef l)
  = match σ !! l with Some o => Forall (wf n σ) (children o) | None => False end.
Proof. done. Qed.

Lemma read_S n σ l :
  read (S n) σ (HRef l)
  = match σ !! l with Some o => read_obj (read n σ) o | None => TNone end.
Proof. done. Qed.

#[local] Arguments reach : simpl never.
#[local] Arguments wf : simpl never.
#[local] Arguments read : simpl never.

Lemma good_block_inv σ d :
  good_block σ d →
  ∃ ld m, d = HRef ld ∧ σ !! ld = Some (ODict m)
          ∧ tblock σ d = tvalue σ <$> m
          ∧ (∀ k v, m !! k = Some v → good_value σ v ∧ ld ∉ reach 2 σ v).
Proof.
  intros [[Hwf Hnd] Hty]. destruct d as [| |ld]; try done.
  unfold tblock. rewrite wf_S in Hwf. rewrite reach_S in Hnd.
  rewrite read_S in Hty |- *.
  destruct (σ !! ld) as [[m|xs]|] eqn:Hld; try done.
  exists ld, m. split; [done|]. split; [done|]. split.
  { simpl. by rewrite <- map_fmap_compose. }
  intros k v Hk. apply NoDup_cons in Hnd as [Hnin Hnd]. simpl in *.
  assert (v ∈ (map_to_list m).*2) as Hv.
  { apply list_elem_of_fmap. exists (k, v). split; [done|].
    by apply elem_of_map_to_list. }
  split; [split; [split|]|].
  - rewrite Forall_forall in Hwf. by apply Hwf.
  - by eapply dict_children_NoDup.
  - apply (Hty k). by rewrite lookup_fmap, Hk.
  - intros Hin. apply Hnin. apply list_elem_of_bind. eauto.
Qed.

Lemma good_button_inv σ x :
  good_button σ x →
  ∃ lbb bm, x = HRef lbb ∧ σ !! lbb = Some (ODict bm)
            ∧ map_Forall (λ _, nonref) bm
            ∧ tbutton σ x = to_atom <$> bm.
Proof.
  intros [[Hwf Hnd] Hty]. destruct x as [| |lbb]; try done.
  unfold tbutton. rewrite wf_S in Hwf. rewrite read_S in Hty |- *.
  destruct (σ !! lbb) as [[bm|xs]|] eqn:Hl; try done.
  exists lbb, bm. split; [done|]. split; [done|].
  assert (map_Forall (λ _, nonref) bm) as Hnr.
  { intros k v Hk. rewrite Forall_forall in Hwf. simpl in Hwf.
    assert (wf 0 σ v) as Hv.
    { apply Hwf, list_elem_of_fmap. exists (k, v). split; [done|].
      by apply elem_of_map_to_list. }
    by destruct v. }
  split; [done|]. simpl. rewrite <- map_fmap_compose.
  apply map_fmap_ext. intros k v Hk. by destruct v.
Qed.

Lemma nonref_good_value σ v : nonref v → good_value σ v.
Proof.
  destruct v; [| |done]; intros _; (split; [split|]); simpl; try done;
    constructor.
Qed.

Lemma nonref_read n σ v : nonref v → read n σ v = read 0 σ v.
Proof. by destruct v, n. Qed.

Lemma good_value_inv σ v :
  good_value σ v →
  match v with
  | HNone => tvalue σ v = VNone
  | HStr s => tvalue σ v = VStr s
  | HRef l =>
      match σ !! l with
      | Some (OList xs) =>
          tvalue σ v = VList (tbutton σ <$> xs)
          ∧ Forall (good_button σ) xs ∧ NoDup (refs xs) ∧ l ∉ refs xs
      | Some (ODict bm) =>
          tvalue σ v = VDict (to_atom <$> bm) ∧ map_Forall (λ _, nonref) bm
      | None => False
      end
  end.
Proof.
  intros [[Hwf Hnd] Hty]. destruct v as [| |l]; try done.
  unfold tvalue. rewrite wf_S in Hwf. rewrite reach_S in Hnd.
  rewrite read_S in Hty |- *.
  destruct (σ !! l) as [[bm|xs]|] eqn:Hl; [| |done]; simpl in *.
  - assert (map_Forall (λ _, nonref) bm) as Hnr.
    { intros k v Hk.
      assert (v ∈ (map_to_list bm).*2) as Hv.
      { apply list_elem_of_fmap. exists (k, v). split; [done|].
        by apply elem_of_map_to_list. }
      rewrite Forall_forall in Hwf. specialize (Hwf v Hv).
      specialize (Hty k (read 1 σ v)). rewrite lookup_fmap, Hk in Hty.
      specialize (Hty eq_refl). destruct v as [| |l']; try done.
      rewrite wf_S in Hwf. rewrite read_S in Hty.
      by destruct (σ !! l') as [[?|?]|]. }
    split; [|done]. f_equal. rewrite <- map_fmap_compose.
    apply map_fmap_ext. intros k v Hk. specialize (Hnr k v Hk). by destruct v.
  - apply NoDup_cons in Hnd as [Hnin Hnd].
    assert (∀ x, x ∈ xs → good_button σ x) as Hgb.
    { intros x Hx. split; [split|].
      - rewrite Forall_forall in Hwf. by apply Hwf.
      - by eapply list_children_NoDup.
      - rewrite Forall_forall in Hty. apply Hty. by apply list_elem_of_fmap_2. }
    assert (xs ≫= reach 1 σ = refs xs) as Hreach.
    { unfold refs. apply Forall_bind_ext, Forall_forall. intros x Hx.
      destruct (good_button_inv σ x (Hgb x Hx)) as (lbb & bm & -> & Hlbb & Hnr & _).
      rewrite reach_S, Hlbb. f_equal. simpl.
      induction (map_to_list bm) as [|[k v] kvs IH] using rev_ind; [done|].
      rewrite fmap_app, bind_app, IH. by destruct v. }
    rewrite Hreach in Hnin, Hnd.
    split; [|split; [by apply Forall_forall|done]].
    f_equal. by rewrite <- list_fmap_compose.
Qed.

(** *** The primitives *)

Lemma run_dict_get σ ld m k :
  σ !! ld = Some (ODict m) →
  dict_get (HRef ld) k σ = Some (σ, Ok (default HNone (m !! k))).
Proof. intros H. unfold dict_get, bind, load. by rewrite H. Qed.

Lemma run_getitem σ ld m k v :
  σ !! ld = Some (ODict m) → m !! k = Some v →
  getitem (HRef ld) k σ = Some (σ, Ok v).
Proof. intros H Hk. unfold getitem, bind, load. by rewrite H, Hk. Qed.

Lemma run_getitem_missing σ ld m k :
  σ !! ld = Some (ODict m) → m !! k = None →
  getitem (HRef ld) k σ = Some (σ, Raise KeyError).
Proof. intros H Hk. unfold getitem, bind, load. by rewrite H, Hk. Qed.

Lemma run_setitem σ ld m k v :
  σ !! ld = Some (ODict m) →
  setitem (HRef ld) k v σ = Some (<[ld := ODict (<[k := v]> m)]> σ, Ok tt).
Proof. intros H. unfold setitem, bind, load. by rewrite H. Qed.

Lemma run_truthy σ v :
  good_value σ v → truthy v σ = Some (σ, Ok (Strings.truthy (tvalue σ v))).
Proof.
  intros Hv. pose proof (good_value_inv σ v Hv) as Hinv.
  destruct v as [|s|l]; simpl in *; try done.
  unfold bind, load. destruct (σ !! l) as [[bm|xs]|]; [| |done].
  - destruct Hinv as [-> _]. unfold ret. simpl. do 4 f_equal.
    apply bool_decide_ext. split; [by intros ->|].
    by intros ?%fmap_empty_iff.
  - destruct Hinv as [-> _]. unfold ret. simpl. do 4 f_equal.
    apply bool_decide_ext. split; [by intros ->|].
    by intros ?%fmap_nil_inv.
Qed.

Lemma tvalue_nonref σ σ' a : nonref a → tvalue σ' a = tvalue σ a.
Proof. by destruct a. Qed.

Lemma tblock_lookup σ d ld m k :
  tblock σ d = tvalue σ <$> m →
  σ !! ld = Some (ODict m) →
  Strings.dict_get (tblock σ d) k = tvalue σ (default HNone (m !! k)).
Proof.
  intros -> _. unfold Strings.dict_get. rewrite lookup_fmap.
  by destruct (m !! k).
Qed.

(** Writing an atom to a field of a block. *)
Lemma set_field σ ld m k a :
  good_block σ (HRef ld) → σ !! ld = Some (ODict m) → nonref a →
  evolves (reach 3 σ (HRef ld)) σ (<[ld := ODict (<[k := a]> m)]> σ)
  ∧ good_block (<[ld := ODict (<[k := a]> m)]> σ) (HRef ld)
  ∧ tblock (<[ld := ODict (<[k := a]> m)]> σ) (HRef ld)
    = <[k := tvalue σ a]> (tblock σ (HRef ld)).
Proof.
  intros Hgood Hld Ha. set (σ' := <[ld := _]> σ).
  destruct (good_block_inv _ _ Hgood) as (ld' & m' & [= <-] & Hld' & Hb & Hm).
  assert (m' = m) as -> by congruence. clear Hld'.
  assert (evolves [ld] σ σ') as Hev.
  { eapply evolves_update; [done|]. by apply refs_insert_atom. }
  assert (read 2 σ' <$> <[k := a]> m = <[k := read 2 σ a]> (read 2 σ <$> m)) as Hread.
  { rewrite fmap_insert. f_equal; [by destruct a|].
    apply map_fmap_ext. intros k' v Hk'. eapply evolves_read; [done|].
    intros l Hl [->|[]%elem_of_nil]%elem_of_cons. by apply (Hm k' v Hk'). }
  assert (read 3 σ' (HRef ld) = TDict (<[k := read 2 σ a]> (read 2 σ <$> m))) as Hr3.
  { rewrite read_S. unfold σ' in *. rewrite lookup_insert_eq. simpl.
    by rewrite Hread. }
  split_and!.
  - eapply evolves_mono; [|done]. intros l ->%list_elem_of_singleton.
    rewrite reach_S. left.
  - split; [by eapply evolves_separate; [|apply Hgood]|].
    rewrite Hr3. simpl. apply map_Forall_insert_2; [by destruct a|].
    destruct Hgood as [_ Hty]. rewrite read_S, Hld in Hty. done.
  - unfold tblock. rewrite Hr3, read_S, Hld. simpl. by rewrite fmap_insert.
Qed.

Section sim.

Variable jinja : string → context → result string.
Variable kwargs : context.

Lemma run_Template_render σ v :
  good_value σ v →
  Template_render jinja v kwargs σ
  = Some (σ, Strings.Template_render jinja (tvalue σ v) kwargs).
Proof.
  intros Hv. pose proof (good_value_inv σ v Hv) as Hinv.
  destruct v as [|s|l].
  - by rewrite Hinv.
  - rewrite Hinv. simpl. by destruct (jinja s kwargs).
  - destruct (σ !! l) as [[bm|xs]|]; [| |done]; by destruct Hinv as [-> _].
Qed.

Lemma evolves_block_trans σ1 σ2 σ3 d :
  evolves (reach 3 σ1 d) σ1 σ2 → evolves (reach 3 σ2 d) σ2 σ3 →
  evolves (reach 3 σ1 d) σ1 σ3.
Proof.
  intros H12 H23. eapply evolves_trans; [done|].
  eapply evolves_mono; [|done]. intros l Hl.
  eapply elem_of_submseteq; [done|]. apply H12.
Qed.

Lemma sim_step_seq h1 p1 h2 p2 :
  sim_step h1 p1 → sim_step h2 p2 →
  sim_step (λ d, h1 d ;;; h2 d) (λ b, do b' <- p1 b; p2 b').
Proof.
  intros H1 H2 σ d Hgood.
  destruct (H1 σ d Hgood) as (σ1 & r1 & Hrun1 & Hres1).
  destruct (p1 (tblock σ d)) as [b1|e]; simpl.
  - destruct Hres1 as (-> & Hev1 & Hgood1 & <-).
    destruct (H2 σ1 d Hgood1) as (σ2 & r2 & Hrun2 & Hres2).
    exists σ2, r2. split; [by rewrite (bind_Ok _ _ _ _ _ Hrun1)|].
    destruct (p2 (tblock σ1 d)) as [b2|e]; [|done].
    destruct Hres2 as (-> & Hev2 & Hgood2 & <-).
    split_and!; try done. by eapply evolves_block_trans.
  - subst r1. exists σ1, (Raise e). split; [|done].
    by apply bind_Raise.
Qed.

(** The five fields that are rendered in place. *)
Lemma sim_field f k : sim_step (hfield jinja kwargs f k) (pfield jinja kwargs f k).
Proof.
  intros σ d Hgood.
  destruct (good_block_inv _ _ Hgood) as (ld & m & -> & Hld & Hb & Hm).
  set (v := default HNone (m !! k)).
  assert (good_value σ v) as Hv.
  { unfold v. destruct (m !! k) as [v'|] eqn:Hk; simpl.
    - by apply (Hm k).
    - by apply nonref_good_value. }
  unfold hfield, pfield.
  rewrite (bind_Ok _ _ _ _ _ (run_dict_get _ _ _ k Hld)).
  rewrite (bind_Ok _ _ _ _ _ (run_truthy _ _ Hv)).
  rewrite (tblock_lookup _ _ _ _ k Hb Hld). fold v.
  destruct (Strings.truthy (tvalue σ v)) eqn:Htruthy.
  - assert (m !! k = Some v) as Hk.
    { unfold v in *. by destruct (m !! k). }
    rewrite (bind_Ok _ _ _ _ _ (run_getitem _ _ _ _ _ Hld Hk)).
    pose proof (run_Template_render σ v Hv) as Hrun.
    destruct (Strings.Template_render jinja (tvalue σ v) kwargs) as [s|e]; simpl.
    + rewrite (bind_Ok _ _ _ _ _ Hrun).
      eexists _, _. split; [by apply run_setitem|].
      destruct (set_field σ ld m k (HStr (f s)) Hgood Hld I) as (? & ? & ?).
      done.
    + eexists _, _. split; [by apply bind_Raise|done].
  - eexists _, _. split; [done|]. split_and!; first [done|apply evolves_refl].
Qed.

Lemma sim_render_field k :
  sim_step (render_field jinja k kwargs) (Strings.render_field jinja k kwargs).
Proof. exact (sim_field id k). Qed.

Lemma sim_render_text :
  sim_step (render_text jinja kwargs) (Strings.render_text jinja kwargs).
Proof. exact (sim_field truncate "text"). Qed.

(** The status mapping. *)
Lemma run_subscript σ v status :
  good_value σ v →
  ∃ r, subscript v status σ = Some (σ, r)
       ∧ match Strings.subscript (tvalue σ v) status with
         | Ok pv => ∃ a, r = Ok a ∧ nonref a ∧ tvalue σ a = pv
         | Raise e => r = Raise e
         end.
Proof.
  intros Hv. pose proof (good_value_inv σ v Hv) as Hinv.
  destruct v as [|s|l].
  - rewrite Hinv. by eexists.
  - rewrite Hinv. by eexists.
  - unfold subscript, bind, load.
    destruct (σ !! l) as [[bm|xs]|]; [| |done].
    + destruct Hinv as [-> Hnr]. simpl.
      destruct status as [|k|?|?]; try by eexists.
      rewrite lookup_fmap. destruct (bm !! k) as [a|] eqn:Hk; simpl.
      * eexists. split; [done|]. exists a. split; [done|].
        specialize (Hnr k a Hk). split; [done|]. by destruct a.
      * by eexists.
    + destruct Hinv as [-> _]. simpl. destruct status; by eexists.
Qed.

Lemma sim_render_status_mapping :
  sim_step (render_status_mapping kwargs) (Strings.render_status_mapping kwargs).
Proof.
  intros σ d Hgood.
  destruct (good_block_inv _ _ Hgood) as (ld & m & -> & Hld & Hb & Hm).
  set (v := default HNone (m !! "status_mapping")).
  assert (good_value σ v) as Hv.
  { unfold v. destruct (m !! "status_mapping") as [v'|] eqn:Hk; simpl.
    - by apply (Hm "status_mapping").
    - by apply nonref_good_value. }
  unfold render_status_mapping, Strings.render_status_mapping.
  rewrite (bind_Ok _ _ _ _ _ (run_dict_get _ _ _ "status_mapping" Hld)).
  rewrite (bind_Ok _ _ _ _ _ (run_truthy _ _ Hv)).
  rewrite (tblock_lookup _ _ _ _ "status_mapping" Hb Hld). fold v.
  destruct (Strings.truthy (tvalue σ v)) eqn:Htruthy.
  - assert (m !! "status_mapping" = Some v) as Hk.
    { unfold v in *. by destruct (m !! "status_mapping"). }
    rewrite (bind_Ok _ _ _ _ _ (run_getitem _ _ _ _ _ Hld Hk)).
    destruct (kwargs !! "status") as [status|]; simpl.
    + unfold bind at 1. unfold ret at 1.
      destruct (run_subscript σ v status Hv) as (r & Hrun & Hres).
      destruct (Strings.subscript (tvalue σ v) status) as [pv|e]; simpl.
      * destruct Hres as (a & -> & Ha & <-).
        rewrite (bind_Ok _ _ _ _ _ Hrun).
        eexists _, _. split; [by apply run_setitem|].
        destruct (set_field σ ld m "text" a Hgood Hld Ha) as (? & ? & ?).
        done.
      * subst r. eexists _, _. split; [by apply bind_Raise|done].
    + eexists _, _. split; [done|done].
  - eexists _, _. split; [done|]. split_and!; first [done|apply evolves_refl].
Qed.

(** The title link, which skips the block on the empty string and on
    the string None. *)
Lemma sim_render_title_link :
  sim_opt (render_title_link jinja kwargs) (Strings.render_title_link jinja kwargs).
Proof.
  intros σ d Hgood.
  destruct (good_block_inv _ _ Hgood) as (ld & m & -> & Hld & Hb & Hm).
  set (v := default HNone (m !! "title_link")).
  assert (good_value σ v) as Hv.
  { unfold v. destruct (m !! "title_link") as [v'|] eqn:Hk; simpl.
    - by apply (Hm "title_link").
    - by apply nonref_good_value. }
  unfold render_title_link, Strings.render_title_link.
  rewrite (bind_Ok _ _ _ _ _ (run_dict_get _ _ _ "title_link" Hld)).
  rewrite (bind_Ok _ _ _ _ _ (run_truthy _ _ Hv)).
  rewrite (tblock_lookup _ _ _ _ "title_link" Hb Hld). fold v.
  destruct (Strings.truthy (tvalue σ v)) eqn:Htruthy.
  - assert (m !! "title_link" = Some v) as Hk.
    { unfold v in *. by destruct (m !! "title_link"). }
    rewrite (bind_Ok _ _ _ _ _ (run_getitem _ _ _ _ _ Hld Hk)).
    pose proof (run_Template_render σ v Hv) as Hrun.
    destruct (Strings.Template_render jinja (tvalue σ v) kwargs) as [s|e]; simpl.
    + rewrite (bind_Ok _ _ _ _ _ Hrun).
      rewrite (bind_Ok _ _ _ _ _ (run_setitem _ _ _ "title_link" (HStr s) Hld)).
      destruct (set_field σ ld m "title_link" (HStr s) Hgood Hld I) as (? & ? & ?).
      repeat case_bool_decide; (eexists _, _; split; [done|]); done.
    + eexists _, _. split; [by apply bind_Raise|done].
  - eexists _, _. split; [done|]. split_and!; first [done|apply evolves_refl].
Qed.

(** *** The buttons *)

#[local] Arguments refs : simpl never.

Lemma good_button_reach σ x : good_button σ x → reach 1 σ x = refs [x].
Proof.
  intros Hx. destruct (good_button_inv σ x Hx) as (lbb & bm & -> & Hlbb & Hnr & _).
  rewrite reach_S, Hlbb. unfold refs. simpl. f_equal.
  apply map_Forall_to_list in Hnr.
  induction Hnr as [|[k v] kvs Hv _ IH]; [done|].
  rewrite fmap_cons, bind_cons, IH. by destruct v.
Qed.

Lemma good_button_evolves L σ σ' x :
  evolves L σ σ' → (∀ l, l ∈ refs [x] → l ∉ L) → good_button σ x →
  good_button σ' x ∧ tbutton σ' x = tbutton σ x.
Proof.
  intros Hev Hdisj Hx.
  destruct (evolves_read L σ σ' 1 x Hev) as [Hread _].
  { by rewrite (good_button_reach σ x Hx). }
  split; [split|].
  - by eapply evolves_separate; [|apply Hx].
  - rewrite Hread. apply Hx.
  - unfold tbutton. by rewrite Hread.
Qed.

Lemma set_button_field σ lbb bm k s :
  good_button σ (HRef lbb) → σ !! lbb = Some (ODict bm) →
  evolves (refs [HRef lbb]) σ (<[lbb := ODict (<[k := HStr s]> bm)]> σ)
  ∧ good_button (<[lbb := ODict (<[k := HStr s]> bm)]> σ) (HRef lbb)
  ∧ tbutton (<[lbb := ODict (<[k := HStr s]> bm)]> σ) (HRef lbb)
    = <[k := AStr s]> (tbutton σ (HRef lbb)).
Proof.
  intros Hgood Hl. set (σ' := <[lbb := _]> σ).
  destruct (good_button_inv _ _ Hgood) as (l' & bm' & [= <-] & Hl' & Hnr & Hb).
  assert (bm' = bm) as -> by congruence. clear Hl'.
  assert (evolves [lbb] σ σ') as Hev.
  { eapply evolves_update; [done|]. by apply refs_insert_atom. }
  assert (good_button σ' (HRef lbb)) as Hgood'.
  { split; [by eapply evolves_separate; [|apply Hgood]|].
    rewrite read_S. unfold σ'. rewrite lookup_insert_eq. simpl.
    intros k' t. rewrite lookup_fmap. destruct (<[k:=HStr s]> bm !! k') as [v|];
      simpl; [|done]. intros [= <-]. by destruct v. }
  split_and!; [done..|].
  destruct (good_button_inv _ _ Hgood') as (l' & bm' & [= <-] & Hl' & _ & ->).
  unfold σ' in Hl'. rewrite lookup_insert_eq in Hl'. injection Hl' as <-.
  by rewrite Hb, fmap_insert.
Qed.

Lemma sim_bstep_seq h1 p1 h2 p2 :
  sim_bstep h1 p1 → sim_bstep h2 p2 →
  sim_bstep (λ x, h1 x ;;; h2 x) (λ b, do b' <- p1 b; p2 b').
Proof.
  intros H1 H2 σ x Hgood.
  destruct (H1 σ x Hgood) as (σ1 & r1 & Hrun1 & Hres1).
  destruct (p1 (tbutton σ x)) as [b1|e]; simpl.
  - destruct Hres1 as (-> & Hev1 & Hgood1 & <-).
    destruct (H2 σ1 x Hgood1) as (σ2 & r2 & Hrun2 & Hres2).
    exists σ2, r2. split; [by rewrite (bind_Ok _ _ _ _ _ Hrun1)|].
    destruct (p2 (tbutton σ1 x)) as [b2|e]; [|done].
    destruct Hres2 as (-> & Hev2 & Hgood2 & <-).
    split_and!; try done. by eapply evolves_trans.
  - subst r1. exists σ1, (Raise e). split; [|done].
    by apply bind_Raise.
Qed.

Lemma of_to_atom σ a : nonref a → of_atom (to_atom a) = tvalue σ a.
Proof. by destruct a. Qed.

Lemma sim_render_button_item k :
  sim_bstep (render_button_item jinja k kwargs)
            (Strings.render_button_item jinja k kwargs).
Proof.
  intros σ x Hgood.
  destruct (good_button_inv _ _ Hgood) as (lbb & bm & -> & Hl & Hnr & Hb).
  unfold render_button_item, Strings.render_button_item.
  rewrite Hb, lookup_fmap.
  destruct (bm !! k) as [a|] eqn:Hk; simpl.
  - rewrite (bind_Ok _ _ _ _ _ (run_getitem _ _ _ _ _ Hl Hk)).
    assert (nonref a) as Ha by by eapply Hnr.
    pose proof (run_Template_render σ a (nonref_good_value σ a Ha)) as Hrun.
    rewrite (of_to_atom σ a Ha).
    destruct (Strings.Template_render jinja (tvalue σ a) kwargs) as [s|e]; simpl.
    + rewrite (bind_Ok _ _ _ _ _ Hrun).
      eexists _, _. split; [by apply run_setitem|].
      destruct (set_button_field σ lbb bm k s Hgood Hl) as (? & ? & Heq).
      rewrite Heq, Hb. done.
    + eexists _, _. split; [by apply bind_Raise|done].
  - eexists _, _. split; [|done].
    apply bind_Raise. by eapply run_getitem_missing.
Qed.

Lemma sim_render_button_optional k :
  sim_bstep (render_button_optional jinja k kwargs)
            (Strings.render_button_optional jinja k kwargs).
Proof.
  intros σ x Hgood.
  destruct (good_button_inv _ _ Hgood) as (lbb & bm & -> & Hl & Hnr & Hb).
  unfold render_button_optional, Strings.render_button_optional.
  rewrite (bind_Ok _ _ _ _ _ (run_dict_get _ _ _ k Hl)).
  set (v := default HNone (bm !! k)).
  assert (nonref v) as Hv.
  { unfold v. destruct (bm !! k) as [a|] eqn:Hk; [by eapply Hnr|done]. }
  rewrite (bind_Ok _ _ _ _ _ (run_truthy _ _ (nonref_good_value σ v Hv))).
  assert (button_get (tbutton σ (HRef lbb)) k = tvalue σ v) as ->.
  { unfold button_get, v. rewrite Hb, lookup_fmap.
    destruct (bm !! k) as [a|] eqn:Hk; simpl; [|done].
    apply of_to_atom. by eapply Hnr. }
  destruct (Strings.truthy (tvalue σ v)).
  - by apply sim_render_button_item.
  - eexists _, _. split; [done|]. split_and!; first [done|apply evolves_refl].
Qed.

Lemma sim_render_button :
  sim_bstep (render_button jinja kwargs) (Strings.render_button jinja kwargs).
Proof.
  unfold render_button, Strings.render_button.
  apply (sim_bstep_seq _ _ _ _ (sim_render_button_item "button_text")).
  apply (sim_bstep_seq _ _ _ _ (sim_render_button_item "button_value")).
  apply (sim_bstep_seq _ _ _ _ (sim_render_button_optional "button_action")).
  apply sim_render_button_optional.
Qed.

(** The loop over the buttons: each button is its own object, so that
    rendering one leaves the others as they are. *)
Lemma sim_render_button_list xs : ∀ σ,
  Forall (good_button σ) xs → NoDup (refs xs) →
  ∃ σ' r, for_each (render_button jinja kwargs) xs σ = Some (σ', r)
    ∧ match Strings.render_button_list jinja kwargs (tbutton σ <$> xs) with
      | Ok bs' => r = Ok tt ∧ evolves (refs xs) σ σ'
                  ∧ Forall (good_button σ') xs ∧ tbutton σ' <$> xs = bs'
      | Raise e => r = Raise e
      end.
Proof.
  induction xs as [|x xs IH]; intros σ Hgood Hnd.
  { exists σ, (Ok tt). split; [done|]. simpl.
    split_and!; first [done|apply evolves_refl]. }
  apply Forall_cons in Hgood as [Hx Hxs].
  assert (refs (x :: xs) = refs [x] ++ refs xs) as Hrefs.
  { unfold refs. rewrite !bind_cons. by rewrite app_nil_r. }
  rewrite Hrefs in Hnd. apply NoDup_app in Hnd as (_ & Hdisj & Hnd).
  destruct (sim_render_button σ x Hx) as (σ1 & r1 & Hrun1 & Hres1).
  rewrite fmap_cons. cbn [Strings.render_button_list for_each].
  destruct (Strings.render_button jinja kwargs (tbutton σ x)) as [b'|e]; simpl.
  2:{ subst r1. eexists _, _. split; [by apply bind_Raise|done]. }
  destruct Hres1 as (-> & Hev1 & Hx1 & <-).
  assert (∀ x', x' ∈ xs → good_button σ1 x' ∧ tbutton σ1 x' = tbutton σ x') as Hxs1.
  { intros x' Hx'. rewrite Forall_forall in Hxs.
    apply (good_button_evolves (refs [x])); [done| |by apply Hxs].
    intros l Hl Hl'. apply (Hdisj l Hl'). apply elem_of_refs.
    apply elem_of_refs in Hl. apply list_elem_of_singleton in Hl as <-. done. }
  destruct (IH σ1) as (σ' & r & Hrun & Hres); [|done|].
  { apply Forall_forall. intros x' Hx'. by apply Hxs1. }
  assert (tbutton σ1 <$> xs = tbutton σ <$> xs) as Heq.
  { apply list_fmap_ext. intros i x' Hi. apply Hxs1.
    by eapply list_elem_of_lookup_2. }
  rewrite Heq in Hres.
  exists σ', r. split; [by rewrite (bind_Ok _ _ _ _ _ Hrun1)|].
  destruct (Strings.render_button_list jinja kwargs (tbutton σ <$> xs))
    as [bs'|e]; simpl; [|done].
  destruct Hres as (-> & Hev & Hgood' & <-).
  destruct (good_button_evolves (refs xs) σ1 σ' x Hev) as [Hx' Hbx]; [|done|].
  { intros l Hl Hl'. by apply (Hdisj l Hl). }
  split_and!; try done.
  - rewrite Hrefs. eapply evolves_trans.
    + eapply evolves_mono; [|done]. intros l Hl. apply elem_of_app. by left.
    + eapply evolves_mono; [|done]. intros l Hl. apply elem_of_app. by right.
  - by constructor.
  - by rewrite Hbx.
Qed.

Lemma run_render_button_nondict c :
  nonref c → ∀ σ, render_button jinja kwargs c σ = Some (σ, Raise TypeError).
Proof. by destruct c. Qed.

Lemma run_iter_str s σ :
  iter (HStr s) σ
  = Some (σ, Ok ((λ c, HStr (String c "")) <$> String.list_ascii_of_string s)).
Proof. done. Qed.

Lemma run_iter_ref l o σ :
  σ !! l = Some o →
  iter (HRef l) σ
  = Some (σ, Ok match o with
                | OList xs => xs
                | ODict m => (λ kv, HStr kv.1) <$> map_to_list m
                end).
Proof. intros Hl. unfold iter, bind, load. rewrite Hl. by destruct o. Qed.

(** The buttons of a block. Iterating over a string or over a dict hands
    strings to the subscript of the loop body, which fails as the renderer
    by value does on anything but a list. *)
Lemma sim_render_buttons :
  sim_step (render_buttons jinja kwargs) (Strings.render_buttons jinja kwargs).
Proof.
  intros σ d Hgood.
  destruct (good_block_inv _ _ Hgood) as (ld & m & -> & Hld & Hb & Hm).
  set (v := default HNone (m !! "buttons")).
  assert (good_value σ v) as Hv.
  { unfold v. destruct (m !! "buttons") as [v'|] eqn:Hk; simpl.
    - by apply (Hm "buttons").
    - by apply nonref_good_value. }
  unfold render_buttons, Strings.render_buttons.
  rewrite (bind_Ok _ _ _ _ _ (run_dict_get _ _ _ "buttons" Hld)).
  rewrite (bind_Ok _ _ _ _ _ (run_truthy _ _ Hv)).
  rewrite (tblock_lookup _ _ _ _ "buttons" Hb Hld). fold v.
  destruct (Strings.truthy (tvalue σ v)) eqn:Htruthy.
  2:{ eexists _, _. split; [done|]. split_and!; first [done|apply evolves_refl]. }
  assert (m !! "buttons" = Some v) as Hk.
  { unfold v in *. by destruct (m !! "buttons"). }
  rewrite (bind_Ok _ _ _ _ _ (run_getitem _ _ _ _ _ Hld Hk)).
  pose proof (good_value_inv σ v Hv) as Hinv.
  destruct (Hm _ _ Hk) as [_ Hldv].
  destruct v as [|s|l] eqn:Hveq.
  - by rewrite Hinv in Htruthy.
  - rewrite Hinv in Htruthy |- *. destruct s as [|c s]; [done|].
    eexists _, _. split; [|done].
    by rewrite (bind_Ok _ _ _ _ _ (run_iter_str _ _)).
  - destruct (σ !! l) as [[bm|xs]|] eqn:Hl; [| |done].
    + destruct Hinv as [Htv Hnr]. rewrite Htv in Htruthy |- *.
      rewrite (bind_Ok _ _ _ _ _ (run_iter_ref _ _ _ Hl)).
      destruct (map_to_list bm) as [|[k a] kvs] eqn:Hbm.
      { apply map_to_list_empty_iff in Hbm as ->. done. }
      eexists _, _. split; [|done]. done.
    + rewrite (bind_Ok _ _ _ _ _ (run_iter_ref _ _ _ Hl)).
      destruct Hinv as (Htv & Hxs & Hnd & Hlx). rewrite Htv. simpl.
      destruct (sim_render_button_list xs σ Hxs Hnd) as (σ' & r & Hrun & Hres).
      exists σ', r. split; [done|].
      destruct (Strings.render_button_list jinja kwargs (tbutton σ <$> xs))
        as [bs'|e]; simpl; [|done].
      destruct Hres as (-> & Hev & Hxs' & <-).
      (* the locations of the buttons belong to the block *)
      assert (∀ l', l' ∈ refs xs → l' ∈ reach 2 σ (HRef l)) as Hin2.
      { intros l' Hl'. rewrite reach_S, Hl. right. simpl.
        apply elem_of_refs in Hl'. apply list_elem_of_bind.
        exists (HRef l'). split; [|done].
        rewrite Forall_forall in Hxs.
        rewrite (good_button_reach σ _ (Hxs _ Hl')). apply elem_of_refs. left. }
      assert (∀ l', l' ∈ refs xs → l' ∈ reach 3 σ (HRef ld)) as Hin3.
      { intros l' Hl'. rewrite reach_S, Hld. right. simpl.
        apply list_elem_of_bind. exists (HRef l). split; [by apply Hin2|].
        apply list_elem_of_fmap. exists ("buttons", HRef l). split; [done|].
        by apply elem_of_map_to_list. }
      destruct Hgood as [[Hwf Hndb] Hty].
      pose proof Hndb as Hndb'. rewrite reach_S, Hld in Hndb'.
      apply NoDup_cons in Hndb' as [Hldnin Hndc]. simpl in Hldnin, Hndc.
      assert (ld ∉ refs xs) as Hldx.
      { intros Hin. apply Hldnin. apply list_elem_of_bind.
        exists (HRef l). split; [by apply Hin2|].
        apply list_elem_of_fmap. exists ("buttons", HRef l). split; [done|].
        by apply elem_of_map_to_list. }
      assert (σ' !! ld = Some (ODict m)) as Hld'.
      { destruct Hev as [Hfr _]. by rewrite Hfr. }
      assert (σ' !! l = Some (OList xs)) as Hl'.
      { destruct Hev as [Hfr _]. by rewrite Hfr. }
      assert (read 2 σ' <$> m
              = <["buttons" := TList (read 1 σ' <$> xs)]> (read 2 σ <$> m)) as Hread.
      { apply map_eq. intros k. rewrite lookup_fmap.
        destruct (decide (k = "buttons")) as [->|Hne].
        - rewrite lookup_insert_eq, Hk. simpl. by rewrite read_S, Hl'.
        - rewrite lookup_insert_ne, lookup_fmap by done.
          destruct (m !! k) as [v'|] eqn:Hk'; simpl; [|done]. f_equal.
          eapply evolves_read; [done|]. intros l' Hl1 Hl2.
          eapply (dict_children_disjoint (reach 2 σ) m k "buttons"); eauto. }
      split_and!; [done| | |].
      * eapply evolves_mono; [|done]. done.
      * split; [by eapply evolves_separate|].
        rewrite read_S, Hld'. simpl. rewrite Hread.
        apply map_Forall_insert_2.
        -- simpl. apply Forall_fmap. eapply Forall_impl; [done|].
           intros x Hx. apply Hx.
        -- rewrite read_S, Hld in Hty. done.
      * unfold tblock. rewrite !read_S, Hld, Hld'. simpl.
        rewrite Hread, fmap_insert. simpl. f_equal. f_equal.
        by rewrite <- list_fmap_compose.
Qed.

(** *** The loop body *)

Lemma sim_fin_ret : sim_fin (λ _, ret true) Ok.
Proof.
  intros σ d Hgood. eexists _, _. split; [done|].
  split_and!; first [done|apply evolves_refl].
Qed.

Lemma sim_fin_seq h1 p1 h2 p2 :
  sim_step h1 p1 → sim_fin h2 p2 →
  sim_fin (λ d, h1 d ;;; h2 d) (λ b, do b' <- p1 b; p2 b').
Proof.
  intros H1 H2 σ d Hgood.
  destruct (H1 σ d Hgood) as (σ1 & r1 & Hrun1 & Hres1).
  destruct (p1 (tblock σ d)) as [b1|e]; simpl.
  - destruct Hres1 as (-> & Hev1 & Hgood1 & <-).
    destruct (H2 σ1 d Hgood1) as (σ2 & r2 & Hrun2 & Hres2).
    exists σ2, r2. split; [by rewrite (bind_Ok _ _ _ _ _ Hrun1)|].
    destruct (p2 (tblock σ1 d)) as [b2|e]; [|done].
    destruct Hres2 as (-> & Hev2 & Hgood2 & <-).
    split_and!; try done. by eapply evolves_block_trans.
  - subst r1. exists σ1, (Raise e). split; [|done].
    by apply bind_Raise.
Qed.

Lemma sim_opt_seq h1 p1 h2 p2 :
  sim_step h1 p1 → sim_opt h2 p2 →
  sim_opt (λ d, h1 d ;;; h2 d) (λ b, do b' <- p1 b; p2 b').
Proof.
  intros H1 H2 σ d Hgood.
  destruct (H1 σ d Hgood) as (σ1 & r1 & Hrun1 & Hres1).
  destruct (p1 (tblock σ d)) as [b1|e]; simpl.
  - destruct Hres1 as (-> & Hev1 & Hgood1 & <-).
    destruct (H2 σ1 d Hgood1) as (σ2 & r2 & Hrun2 & Hres2).
    exists σ2, r2. split; [by rewrite (bind_Ok _ _ _ _ _ Hrun1)|].
    destruct (p2 (tblock σ1 d)) as [[b2|]|e]; [| |done].
    + destruct Hres2 as (-> & Hev2 & Hgood2 & <-).
      split_and!; try done. by eapply evolves_block_trans.
    + destruct Hres2 as (-> & Hev2).
      split; [done|]. by eapply evolves_block_trans.
  - subst r1. exists σ1, (Raise e). split; [|done].
    by apply bind_Raise.
Qed.

Lemma sim_opt_if h1 p1 h2 p2 :
  sim_opt h1 p1 → sim_fin h2 p2 →
  sim_opt (λ d, let! keep := h1 d in if keep : bool then h2 d else ret false)
          (λ b, do r <- p1 b;
                match r with
                | None => Ok None
                | Some b' => do b'' <- p2 b'; Ok (Some b'')
                end).
Proof.
  intros H1 H2 σ d Hgood.
  destruct (H1 σ d Hgood) as (σ1 & r1 & Hrun1 & Hres1).
  destruct (p1 (tblock σ d)) as [[b1|]|e]; simpl.
  - destruct Hres1 as (-> & Hev1 & Hgood1 & <-).
    destruct (H2 σ1 d Hgood1) as (σ2 & r2 & Hrun2 & Hres2).
    exists σ2, r2. split; [by rewrite (bind_Ok _ _ _ _ _ Hrun1)|].
    destruct (p2 (tblock σ1 d)) as [b2|e]; [|done].
    destruct Hres2 as (-> & Hev2 & Hgood2 & <-). simpl.
    split_and!; try done. by eapply evolves_block_trans.
  - destruct Hres1 as (-> & Hev1). exists σ1, (Ok false). split; [|done].
    by rewrite (bind_Ok _ _ _ _ _ Hrun1).
  - subst r1. exists σ1, (Raise e). split; [|done].
    by apply bind_Raise.
Qed.

(** The loop body by value, with its stages in the order of the heap. *)
Lemma render_block_stages b :
  Strings.render_block jinja kwargs b
  = (do b <- Strings.render_field jinja "header" kwargs b;
     do b <- Strings.render_field jinja "title" kwargs b;
     do r <- Strings.render_title_link jinja kwargs b;
     match r with
     | None => Ok None
     | Some b =>
         do b <- (do b <- Strings.render_text jinja kwargs b;
                  do b <- Strings.render_buttons jinja kwargs b;
                  do b <- Strings.render_status_mapping kwargs b;
                  do b <- Strings.render_field jinja "datetime" kwargs b;
                  do b <- Strings.render_field jinja "context" kwargs b;
                  Ok b);
         Ok (Some b)
     end).
Proof.
  unfold Strings.render_block, render_before_status, render_from_status.
  destruct (Strings.render_field jinja "header" kwargs b) as [b1|]; simpl; [|done].
  destruct (Strings.render_field jinja "title" kwargs b1) as [b2|]; simpl; [|done].
  destruct (Strings.render_title_link jinja kwargs b2) as [[b3|]|]; simpl; [|done..].
  destruct (Strings.render_text jinja kwargs b3) as [b4|]; simpl; [|done].
  destruct (Strings.render_buttons jinja kwargs b4) as [b5|]; simpl; [|done].
  destruct (Strings.render_status_mapping kwargs b5) as [b6|]; simpl; [|done].
  destruct (Strings.render_field jinja "datetime" kwargs b6) as [b7|]; simpl; [|done].
  by destruct (Strings.render_field jinja "context" kwargs b7).
Qed.

(** The body of the loop follows [Strings.render_block]. *)
Lemma sim_render_block :
  sim_opt (render_block jinja kwargs) (Strings.render_block jinja kwargs).
Proof.
  intros σ d Hgood. rewrite render_block_stages. revert σ d Hgood.
  unfold render_block.
  apply (sim_opt_seq _ _ _ _ (sim_render_field "header")).
  apply (sim_opt_seq _ _ _ _ (sim_render_field "title")).
  apply (sim_opt_if _ _ _ _ sim_render_title_link).
  apply (sim_fin_seq _ _ _ _ sim_render_text).
  apply (sim_fin_seq _ _ _ _ sim_render_buttons).
  apply (sim_fin_seq _ _ _ _ sim_render_status_mapping).
  apply (sim_fin_seq _ _ _ _ (sim_render_field "datetime")).
  apply (sim_fin_seq _ _ _ _ (sim_render_field "context")).
  apply sim_fin_ret.
Qed.

(** *** The loop *)

Lemma blocks_disjoint σ (xs ys : list val) d x l :
  NoDup ((xs ++ d :: ys) ≫= reach 3 σ) →
  x ∈ xs ++ ys → l ∈ reach 3 σ x → l ∉ reach 3 σ d.
Proof.
  rewrite bind_app, bind_cons. intros (Hxs & Hdisj & (Hd & Hdys & Hys)%NoDup_app)%NoDup_app.
  intros [Hx|Hx]%elem_of_app Hl Hld.
  - apply (Hdisj l); [|apply elem_of_app; by left].
    apply list_elem_of_bind. eauto.
  - apply (Hdys l); [done|]. apply list_elem_of_bind. eauto.
Qed.

Lemma loop_inv_evolves ldata σ σ1 acc d rest :
  loop_inv ldata σ acc (d :: rest) →
  evolves (reach 3 σ d) σ σ1 →
  σ1 !! ldata = Some (OList acc)
  ∧ (∀ x, x ∈ acc ++ rest → good_block σ1 x ∧ tblock σ1 x = tblock σ x)
  ∧ NoDup ((acc ++ d :: rest) ≫= reach 3 σ1)
  ∧ ldata ∉ (acc ++ d :: rest) ≫= reach 3 σ1.
Proof.
  intros (Hdata & Hgood & Hnd & Hnin) Hev.
  assert ((acc ++ d :: rest) ≫= reach 3 σ1 ⊆+ (acc ++ d :: rest) ≫= reach 3 σ) as Hsub.
  { apply bind_submseteq_ext; [done|]. intros x. apply Hev. }
  split_and!.
  - destruct Hev as [Hfr _]. rewrite Hfr; [done|]. intros Hin. apply Hnin.
    apply list_elem_of_bind. exists d. split; [done|]. apply elem_of_app. right. left.
  - intros x Hx.
    assert (x ∈ acc ++ d :: rest) as Hx'.
    { apply elem_of_app in Hx as [?|?]; apply elem_of_app; [by left|right; by right]. }
    rewrite Forall_forall in Hgood. destruct (Hgood x Hx') as [Hsep Hty].
    destruct (evolves_read _ _ _ 3 x Hev) as [Hread _].
    { intros l. by eapply blocks_disjoint. }
    split; [|unfold tblock; by rewrite Hread].
    split; [by eapply evolves_separate|by rewrite Hread].
  - by eapply submseteq_NoDup.
  - intros Hin. apply Hnin. by eapply elem_of_submseteq.
Qed.

Lemma loop_inv_store ldata σ o (tr : list val) :
  ldata ∉ tr ≫= reach 3 σ →
  ∀ x, x ∈ tr →
    reach 3 (<[ldata := o]> σ) x = reach 3 σ x
    ∧ read 3 (<[ldata := o]> σ) x = read 3 σ x
    ∧ (wf 3 σ x → wf 3 (<[ldata := o]> σ) x).
Proof.
  intros Hnin x Hx. apply agree_reach. intros l Hl.
  apply lookup_insert_ne. intros <-. apply Hnin.
  apply list_elem_of_bind. eauto.
Qed.

Lemma loop_inv_drop ldata σ σ1 acc d rest :
  loop_inv ldata σ acc (d :: rest) →
  evolves (reach 3 σ d) σ σ1 →
  loop_inv ldata σ1 acc rest
  ∧ tblock σ1 <$> acc = tblock σ <$> acc
  ∧ tblock σ1 <$> rest = tblock σ <$> rest.
Proof.
  intros Hinv Hev.
  destruct (loop_inv_evolves _ _ _ _ _ _ Hinv Hev) as (Hdata & Hx & Hnd & Hnin).
  assert ((acc ++ rest) ≫= reach 3 σ1 ⊆+ (acc ++ d :: rest) ≫= reach 3 σ1) as Hsub.
  { apply bind_submseteq_ext; [|done].
    apply submseteq_app; [done|]. by apply submseteq_cons. }
  split_and!.
  - split_and!; [done| | |].
    + apply Forall_forall. intros x Hin. by apply Hx.
    + by eapply submseteq_NoDup.
    + intros Hin. apply Hnin. by eapply elem_of_submseteq.
  - apply list_fmap_ext. intros i x Hi. apply Hx, elem_of_app. left.
    by eapply list_elem_of_lookup_2.
  - apply list_fmap_ext. intros i x Hi. apply Hx, elem_of_app. right.
    by eapply list_elem_of_lookup_2.
Qed.

Lemma loop_inv_keep ldata σ σ1 acc d rest :
  loop_inv ldata σ acc (d :: rest) →
  evolves (reach 3 σ d) σ σ1 →
  good_block σ1 d →
  let σ2 := <[ldata := OList (acc ++ [d])]> σ1 in
  loop_inv ldata σ2 (acc ++ [d]) rest
  ∧ tblock σ2 <$> (acc ++ [d]) = (tblock σ <$> acc) ++ [tblock σ1 d]
  ∧ tblock σ2 <$> rest = tblock σ <$> rest.
Proof.
  intros Hinv Hev Hd σ2.
  destruct (loop_inv_evolves _ _ _ _ _ _ Hinv Hev) as (Hdata & Hx & Hnd & Hnin).
  pose proof (loop_inv_store ldata σ1 (OList (acc ++ [d])) _ Hnin) as Hst.
  fold σ2 in Hst.
  assert (∀ x, x ∈ acc ++ d :: rest → good_block σ1 x) as Hgood1.
  { intros x [Hin|[->|Hin]%elem_of_cons]%elem_of_app; [|done|].
    - apply Hx, elem_of_app. by left.
    - apply Hx, elem_of_app. by right. }
  assert ((acc ++ d :: rest) ≫= reach 3 σ2 = (acc ++ d :: rest) ≫= reach 3 σ1) as Hreach.
  { apply Forall_bind_ext, Forall_forall. intros x Hin. by apply Hst. }
  split_and!.
  - unfold loop_inv. rewrite <- (assoc_L (++)). simpl. split_and!.
    + unfold σ2. by rewrite lookup_insert_eq.
    + apply Forall_forall. intros x Hin.
      destruct (Hst x Hin) as (Hr1 & Hr2 & Hr3).
      destruct (Hgood1 x Hin) as [[Hwf Hndx] Hty].
      split; [split|]; [by apply Hr3|by rewrite Hr1|by rewrite Hr2].
    + by rewrite Hreach.
    + by rewrite Hreach.
  - rewrite fmap_app. simpl. f_equal.
    + apply list_fmap_ext. intros i x Hi.
      assert (x ∈ acc) as Hin by by eapply list_elem_of_lookup_2.
      destruct (Hst x) as (_ & Hr2 & _); [apply elem_of_app; by left|].
      unfold tblock at 1. rewrite Hr2. apply Hx, elem_of_app. by left.
    + destruct (Hst d) as (_ & Hr2 & _); [apply elem_of_app; right; left|].
      unfold tblock. by rewrite Hr2.
  - apply list_fmap_ext. intros i x Hi.
    assert (x ∈ rest) as Hin by by eapply list_elem_of_lookup_2.
    destruct (Hst x) as (_ & Hr2 & _); [apply elem_of_app; right; by right|].
    unfold tblock at 1. rewrite Hr2. apply Hx, elem_of_app. by right.
Qed.

Lemma run_append σ ldata acc d :
  σ !! ldata = Some (OList acc) →
  append (HRef ldata) d σ = Some (<[ldata := OList (acc ++ [d])]> σ, Ok tt).
Proof. intros Hl. unfold append, bind, load. by rewrite Hl. Qed.

(** The loop follows [Strings.render_loop], from any state of the loop. *)
Lemma sim_render_loop ldata : ∀ ds σ acc,
  loop_inv ldata σ acc ds →
  ∃ σ' r, for_each (loop_body jinja kwargs ldata) ds σ = Some (σ', r)
    ∧ match render_loop jinja kwargs (tblock σ <$> ds) (tblock σ <$> acc) with
      | Ok out => r = Ok tt ∧ ∃ acc', loop_inv ldata σ' acc' []
                                     ∧ tblock σ' <$> acc' = out
      | Raise e => r = Raise e
      end.
Proof.
  induction ds as [|d rest IH]; intros σ acc Hinv.
  { exists σ, (Ok tt). split; [done|]. simpl. split; [done|].
    exists acc. split; [apply Hinv|done]. }
  assert (good_block σ d) as Hd.
  { destruct Hinv as (_ & Hgood & _). rewrite Forall_forall in Hgood.
    apply Hgood, elem_of_app. right. left. }
  destruct (sim_render_block σ d Hd) as (σ1 & r1 & Hrun1 & Hres1).
  rewrite fmap_cons. cbn [render_loop for_each].
  destruct (Strings.render_block jinja kwargs (tblock σ d)) as [[b'|]|e]; simpl.
  - destruct Hres1 as (-> & Hev & Hd1 & <-).
    destruct (loop_inv_keep _ _ _ _ _ _ Hinv Hev Hd1) as (Hinv2 & Hacc & Hrest).
    destruct (IH _ _ Hinv2) as (σ' & r & Hrun & Hres).
    assert (loop_body jinja kwargs ldata d σ
            = Some (<[ldata := OList (acc ++ [d])]> σ1, Ok tt)) as Hbody.
    { unfold loop_body. rewrite (bind_Ok _ _ _ _ _ Hrun1). apply run_append.
      by destruct (loop_inv_evolves _ _ _ _ _ _ Hinv Hev) as (? & _). }
    exists σ', r. split; [by rewrite (bind_Ok _ _ _ _ _ Hbody)|].
    by rewrite Hacc, Hrest in Hres.
  - destruct Hres1 as (-> & Hev).
    destruct (loop_inv_drop _ _ _ _ _ _ Hinv Hev) as (Hinv1 & Hacc & Hrest).
    destruct (IH _ _ Hinv1) as (σ' & r & Hrun & Hres).
    assert (loop_body jinja kwargs ldata d σ = Some (σ1, Ok tt)) as Hbody.
    { unfold loop_body. by rewrite (bind_Ok _ _ _ _ _ Hrun1). }
    exists σ', r. split; [by rewrite (bind_Ok _ _ _ _ _ Hbody)|].
    by rewrite Hacc, Hrest in Hres.
  - subst r1. exists σ1, (Raise e). split; [|done].
    apply bind_Raise. unfold loop_body. by apply bind_Raise.
Qed.

(** *** The call *)

Lemma run_alloc o σ :
  alloc o σ = Some (<[fresh (dom σ) := o]> σ, Ok (fresh (dom σ))).
Proof. done. Qed.

Lemma good_template_inv σ v :
  good_template σ v →
  ∃ l ds, v = HRef l ∧ σ !! l = Some (OList ds)
          ∧ ttemplate σ v = tblock σ <$> ds
          ∧ Forall (good_block σ) ds
          ∧ NoDup (ds ≫= reach 3 σ).
Proof.
  intros [[Hwf Hnd] Hty]. destruct v as [| |l]; try done.
  unfold ttemplate. rewrite wf_S in Hwf. rewrite reach_S in Hnd.
  rewrite read_S in Hty |- *.
  destruct (σ !! l) as [[m|ds]|] eqn:Hl; try done. simpl in *.
  apply NoDup_cons in Hnd as [_ Hnd].
  exists l, ds. split_and!; try done.
  - by rewrite <- list_fmap_compose.
  - apply Forall_forall. intros d Hd.
    rewrite Forall_forall in Hwf. rewrite Forall_fmap, Forall_forall in Hty.
    split; [split|]; [by apply Hwf|by eapply list_children_NoDup|by apply Hty].
Qed.

(** The list of the blocks that the loop has kept is a template of
    separate objects. *)
Lemma loop_inv_good_template ldata σ acc :
  loop_inv ldata σ acc [] → good_template σ (HRef ldata).
Proof.
  unfold loop_inv. rewrite app_nil_r. intros (Hdata & Hgood & Hnd & Hnin).
  rewrite Forall_forall in Hgood. split; [split|].
  - rewrite wf_S, Hdata. simpl. apply Forall_forall. intros d Hd.
    by destruct (Hgood d Hd) as [[? _] _].
  - rewrite reach_S, Hdata. simpl. by apply NoDup_cons.
  - rewrite read_S, Hdata. simpl. apply Forall_fmap, Forall_forall. intros d Hd.
    by destruct (Hgood d Hd) as [_ ?].
Qed.

(** The call on a template of separate objects: it returns or raises, as
    the rendering by value of the template does, and what it returns is again
    a template of separate objects, whose value is the result by value. *)
Lemma render_call_follows fuel σ v :
  good_template σ v → 4 < fuel →
  ∃ σ' r,
    StringsHeap.render_message_template jinja fuel v kwargs σ = Some (σ', r)
    ∧ match Strings.render_message_template jinja (ttemplate σ v) kwargs with
      | Ok out => ∃ data, r = Ok data ∧ ttemplate σ' data = out
                          ∧ good_template σ' data
      | Raise e => r = Raise e
      end.
Proof.
  intros Hgood Hfuel. pose proof Hgood as [[Hwf Hnd] Hty].
  set (ldata := fresh (dom σ)). set (σa := <[ldata := OList []]> σ).
  assert (σ !! ldata = None) as Hfresh.
  { apply not_elem_of_dom, is_fresh. }
  destruct (agree_reach 4 σ σa v) as (Hra & Hrda & Hwfa).
  { intros l Hl. apply lookup_insert_ne. intros <-.
    destruct (wf_reach_dom _ _ _ _ Hwf Hl) as [? Hsome]. congruence. }
  destruct (deepcopy_tree 4 fuel Hfuel σa v ∅) as (σc & v' & memo' & Hcopy & Hcop).
  { by apply Hwfa. }
  { by rewrite Hra. }
  { intros l _. apply lookup_empty. }
  destruct Hcop as (Hold & Hread & Hwfc & Hndc & _ & Hnew & _).
  assert (good_template σc v') as Hgoodc.
  { split; [done|]. by rewrite Hread, Hrda. }
  destruct (good_template_inv _ _ Hgoodc) as (lc & ds & -> & Hlc & Htc & Hds & Hndds).
  assert (ttemplate σ v = tblock σc <$> ds) as Htpl.
  { rewrite <- Htc. unfold ttemplate. by rewrite Hread, Hrda. }
  assert (σc !! ldata = Some (OList [])) as Hdata.
  { rewrite Hold; unfold σa; rewrite lookup_insert_eq; [done|by eexists]. }
  assert (loop_inv ldata σc [] ds) as Hinv.
  { split_and!; try done. simpl. intros Hin.
    assert (σa !! ldata = None) as Hcontra.
    { apply Hnew. rewrite reach_S, Hlc. by right. }
    unfold σa in Hcontra. by rewrite lookup_insert_eq in Hcontra. }
  destruct (sim_render_loop ldata ds σc [] Hinv) as (σ' & r & Hrun & Hres).
  unfold StringsHeap.render_message_template, Strings.render_message_template.
  rewrite (bind_Ok _ _ _ _ _ (run_alloc _ _)). fold ldata σa.
  rewrite (bind_Ok _ _ _ _ _ Hcopy). simpl.
  rewrite (bind_Ok _ _ _ _ _ (run_iter_ref _ _ _ Hlc)).
  rewrite Htpl. simpl in Hres.
  destruct (render_loop jinja kwargs (tblock σc <$> ds) []) as [out|e].
  - destruct Hres as (-> & acc' & Hinv' & <-).
    eexists σ', _. split; [by rewrite (bind_Ok _ _ _ _ _ Hrun)|].
    exists (HRef ldata). split; [done|].
    split; [|by eapply loop_inv_good_template].
    destruct Hinv' as (Hacc & _).
    unfold ttemplate. rewrite read_S, Hacc. simpl.
    by rewrite <- list_fmap_compose.
  - subst r. exists σ', (Raise e). split; [|done]. by apply bind_Raise.
Qed.

(** What a call that returns has computed. *)
Lemma render_call_returns fuel σ v σ' data :
  good_template σ v → 4 < fuel →
  StringsHeap.render_message_template jinja fuel v kwargs σ = Some (σ', Ok data) →
  Strings.render_message_template jinja (ttemplate σ v) kwargs
  = Ok (ttemplate σ' data)
  ∧ good_template σ' data.
Proof.
  intros Hgood Hfuel Hrun.
  destruct (render_call_follows fuel σ v Hgood Hfuel) as (σ1 & r & Hrun1 & Hres).
  rewrite Hrun in Hrun1. injection Hrun1 as <- <-.
  destruct (Strings.render_message_template jinja (ttemplate σ v) kwargs)
    as [out|e]; [|done].
  destruct Hres as (data' & [= <-] & <- & Hgood'). done.
Qed.

(** X20. On a template of separate objects, and with fuel for the four
    levels of the copy, the call on the heap returns, and it follows
    [Strings.render_message_template] on the value of the template: it
    raises the same exception, or returns a list whose value is the result
    by value. *)
Theorem render_message_template_refines fuel σ v :
  good_template σ v → 4 < fuel →
  ∃ σ' r,
    StringsHeap.render_message_template jinja fuel v kwargs σ = Some (σ', r)
    ∧ match Strings.render_message_template jinja (ttemplate σ v) kwargs with
      | Ok out => ∃ data, r = Ok data ∧ ttemplate σ' data = out
      | Raise e => r = Raise e
      end.
Proof.
  intros Hgood Hfuel.
  destruct (render_call_follows fuel σ v Hgood Hfuel) as (σ' & r & Hrun & Hres).
  exists σ', r. split; [done|].
  destruct (Strings.render_message_template jinja (ttemplate σ v) kwargs)
    as [out|e]; [|done].
  destruct Hres as (data & ? & ? & _). by exists data.
Qed.

End sim.

(** *** The example template *)

(** The example template of separate objects is one, so that the two
    renderers agree on it. *)
Lemma render_message_template_refines_witness :
  good_template ex_heap_separate (HRef 6)
  ∧ ∃ σ' r,
      StringsHeap.render_message_template ex_engine_name 5 (HRef 6) ex_kwargs_open
        ex_heap_separate = Some (σ', r)
      ∧ match Strings.render_message_template ex_engine_name
                (ttemplate ex_heap_separate (HRef 6)) ex_kwargs_open with
        | Ok out => ∃ data, r = Ok data ∧ ttemplate σ' data = out
        | Raise e => r = Raise e
        end.
Proof.
  assert (good_template ex_heap_separate (HRef 6)) as Hgood.
  { apply (bool_decide_unpack _). vm_compute. exact I. }
  split; [done|]. apply render_message_template_refines; [done|lia].
Defined.

(** The template with the same block twice is not one. *)
Example ex_heap_alias_not_separate : ¬ good_template ex_heap_alias (HRef 2).
Proof. apply (bool_decide_eq_false_1 _). vm_compute. reflexivity. Qed.

End StringsTreeFacts.

(** ** The participant service: lookups, updates and what a call writes *)

Module ParticipantServiceLaws.
Import ParticipantService ParticipantServiceState ParticipantServiceFacts.

Lemma filter_true {A} (l : list A) : List.filter (λ _, true) l = l.
Proof. induction l as [|a l IH]; simpl; congruence. Qed.

Lemma set_participants_collaborators db t :
  same_collaborators db (set_participants db t).
Proof. by split_and!. Qed.

Lemma get_all_insert db k p :
  participant_table db !! k = None →
  get_all (set_participants db (<[k := p]> (participant_table db)))
  ≡ₚ p :: get_all db.
Proof.
  intros Hk. unfold get_all, query. rewrite !filter_true. simpl.
  by rewrite map_to_list_insert.
Qed.

Lemma add_and_commit_id db p :
  col (add_and_commit db p).2.2 "id" = VInt (add_and_commit db p).2.1.
Proof.
  unfold col. simpl. destruct (service p); simpl.
  - by rewrite lookup_insert_ne, lookup_insert_eq.
  - by rewrite lookup_insert_eq.
Qed.

(** X1. create stores the new participant under an identifier that no
    participant had: get with that identifier returns the participant that
    create returns, whose id column is that identifier; get with any other
    identifier returns what it returned before; the listing of all
    participants gains the new one and nothing else; and the tables of the
    collaborators are as they were. *)
Theorem create_then_get db participant_in :
  ∃ db' k p,
    create db participant_in = (db', (k, p))
    ∧ get db k = None
    ∧ get db' k = Some p
    ∧ col p "id" = VInt k
    ∧ (∀ k', k' ≠ k → get db' k' = get db k')
    ∧ get_all db' ≡ₚ p :: get_all db
    ∧ same_collaborators db db'.
Proof.
  unfold create.
  set (p0 := {| columns := ParticipantCreate_dict participant_in |}).
  exists (add_and_commit db p0).1, (add_and_commit db p0).2.1, (add_and_commit db p0).2.2.
  pose proof (add_and_commit_fresh db p0) as Hfresh.
  split_and!.
  - by destruct (add_and_commit db p0) as [? [? ?]].
  - done.
  - unfold get. rewrite add_and_commit_table. apply lookup_insert_eq.
  - apply add_and_commit_id.
  - intros k' Hne. unfold get. rewrite add_and_commit_table.
    by apply lookup_insert_ne.
  - by apply get_all_insert.
  - apply set_participants_collaborators.
Qed.

(** Two rows that pass the filter make [one_or_none] fail. *)
Lemma one_or_none_two db P k1 k2 p1 p2 :
  k1 ≠ k2 →
  participant_table db !! k1 = Some p1 → P p1 = true →
  participant_table db !! k2 = Some p2 → P p2 = true →
  one_or_none (query db P) = Raise MultipleResultsFound.
Proof.
  intros Hne Hk1 HP1 Hk2 HP2.
  assert ((k1, p1) ∈ query db P) as Hin1 by by apply query_spec.
  assert ((k2, p2) ∈ query db P) as Hin2 by by apply query_spec.
  destruct (query db P) as [|a [|b l]]; [| |done].
  - by apply elem_of_nil in Hin1.
  - apply list_elem_of_singleton in Hin1, Hin2. congruence.
Qed.

Lemma one_or_none_unique db P k p :
  participant_table db !! k = Some p → P p = true →
  (∀ k' p', participant_table db !! k' = Some p' → P p' = true → k' = k) →
  one_or_none (query db P) = Ok (Some (k, p)).
Proof. intros Hk HP Hu. by rewrite (query_singleton db P k p). Qed.

(** X2. When two participants are linked to the (incident, individual)
    pair, get_or_create fails with MultipleResultsFound (the one_or_none of
    its query), whatever the service and the roles. *)
Theorem get_or_create_ambiguous db incident_id individual_id service_id roles
    k1 k2 p1 p2 :
  k1 ≠ k2 →
  participant_table db !! k1 = Some p1 → linked incident_id individual_id p1 = true →
  participant_table db !! k2 = Some p2 → linked incident_id individual_id p2 = true →
  get_or_create db incident_id individual_id service_id roles
  = Raise MultipleResultsFound.
Proof.
  intros Hne Hk1 HP1 Hk2 HP2.
  pose proof (one_or_none_two db (linked incident_id individual_id) k1 k2 p1 p2
                Hne Hk1 HP1 Hk2 HP2) as Hq.
  unfold get_or_create. unfold linked in Hq. by rewrite Hq.
Qed.

Lemma get_or_create_ambiguous_witness :
  get_or_create ex_db_two 7 3 (Some 5%Z) [ex_reporter] = Raise MultipleResultsFound.
Proof.
  apply (get_or_create_ambiguous ex_db_two 7 3 (Some 5%Z) [ex_reporter]
           1 2 (ex_commander 1) (ex_commander 2)); [lia|reflexivity..].
Defined.

(** X3. When no participant is linked to the pair, get_or_create reads the
    project of the incident and, if the project has an active contact plugin,
    the email of the individual: it fails with AttributeError when the
    incident does not exist, and when the plugin is active and the individual
    does not exist. *)
Theorem get_or_create_missing_records db incident_id individual_id service_id roles :
  (∀ k p, participant_table db !! k = Some p →
          linked incident_id individual_id p = false) →
  (incident_table db !! incident_id = None →
     get_or_create db incident_id individual_id service_id roles
     = Raise AttributeError)
  ∧ (∀ project plugin,
       incident_table db !! incident_id = Some project →
       plugin_table db !! project = Some plugin →
       individual_table db !! individual_id = None →
       get_or_create db incident_id individual_id service_id roles
       = Raise AttributeError).
Proof.
  intros Hnone. pose proof (query_nil db _ Hnone) as Hq.
  unfold get_or_create. unfold linked in Hq. rewrite Hq. simpl.
  unfold incident_service_get, plugin_service_get_active_instance,
    individual_service_get.
  split.
  - by intros ->.
  - intros project plugin -> Hplugin ->. simpl. by rewrite Hplugin.
Qed.

Lemma get_or_create_missing_records_witness :
  get_or_create ex_db0 8 3 None [ex_reporter] = Raise AttributeError
  ∧ get_or_create ex_db_plugin 7 4 None [ex_reporter] = Raise AttributeError.
Proof.
  split.
  - apply (get_or_create_missing_records ex_db0 8 3 None [ex_reporter]).
    + intros k p Hk. simpl in Hk. by rewrite lookup_empty in Hk.
    + reflexivity.
  - apply (proj2 (get_or_create_missing_records ex_db_plugin 7 4 None [ex_reporter]
                    ltac:(intros k p Hk; simpl in Hk; by rewrite lookup_empty in Hk))
             1%Z ex_plugin); reflexivity.
Defined.

(** *** The lookups by incident *)

Lemma incident_filter (Q : Participant → bool) incident_id p :
  value_eqb (col p "incident_id") (VInt incident_id) && Q p = true
  ↔ col p "incident_id" = VInt incident_id ∧ Q p = true.
Proof.
  unfold value_eqb. rewrite andb_true_iff, bool_decide_eq_true. done.
Qed.

Lemma lookup_unique db (Q : Participant → bool) incident_id k p :
  participant_table db !! k = Some p →
  col p "incident_id" = VInt incident_id → Q p = true →
  (∀ k' p', participant_table db !! k' = Some p' →
            col p' "incident_id" = VInt incident_id → Q p' = true → k' = k) →
  one_or_none (query db (λ p, value_eqb (col p "incident_id") (VInt incident_id)
                              && Q p))
  = Ok (Some (k, p)).
Proof.
  intros Hk Hi HQ Hu. apply one_or_none_unique; [done|by apply incident_filter|].
  intros k' p' Hk' [? ?]%incident_filter. eauto.
Qed.

Lemma lookup_two db (Q : Participant → bool) incident_id k1 k2 p1 p2 :
  k1 ≠ k2 →
  participant_table db !! k1 = Some p1 →
  col p1 "incident_id" = VInt incident_id → Q p1 = true →
  participant_table db !! k2 = Some p2 →
  col p2 "incident_id" = VInt incident_id → Q p2 = true →
  one_or_none (query db (λ p, value_eqb (col p "incident_id") (VInt incident_id)
                              && Q p))
  = Raise MultipleResultsFound.
Proof.
  intros Hne Hk1 Hi1 HQ1 Hk2 Hi2 HQ2.
  eapply (one_or_none_two db _ k1 k2); try done; by apply incident_filter.
Qed.

(** X4. Each of the four lookups by incident (by role, by email, by service
    and by conversation) returns the participant of the incident that
    satisfies its filter when no other participant of the incident does. *)
Theorem lookups_return_the_only_match db incident_id k p :
  participant_table db !! k = Some p →
  col p "incident_id" = VInt incident_id →
  (∀ r, has_active_role r p = true →
     (∀ k' p', participant_table db !! k' = Some p' →
               col p' "incident_id" = VInt incident_id →
               has_active_role r p' = true → k' = k) →
     get_by_incident_id_and_role db incident_id r = Ok (Some p))
  ∧ (∀ email, has_email db email p = true →
     (∀ k' p', participant_table db !! k' = Some p' →
               col p' "incident_id" = VInt incident_id →
               has_email db email p' = true → k' = k) →
     get_by_incident_id_and_email db incident_id email = Ok (Some p))
  ∧ (∀ service_id, col p "service_id" = VInt service_id →
     (∀ k' p', participant_table db !! k' = Some p' →
               col p' "incident_id" = VInt incident_id →
               col p' "service_id" = VInt service_id → k' = k) →
     get_by_incident_id_and_service_id db incident_id service_id = Ok (Some p))
  ∧ (∀ conversation_id, col p "user_conversation_id" = VStr conversation_id →
     (∀ k' p', participant_table db !! k' = Some p' →
               col p' "incident_id" = VInt incident_id →
               col p' "user_conversation_id" = VStr conversation_id → k' = k) →
     get_by_incident_id_and_conversation_id db incident_id conversation_id
     = Ok (Some p)).
Proof.
  intros Hk Hi. split_and!.
  - intros r Hr Hu. unfold get_by_incident_id_and_role.
    by rewrite (lookup_unique db (has_active_role r) incident_id k p).
  - intros email He Hu. unfold get_by_incident_id_and_email.
    by rewrite (lookup_unique db (has_email db email) incident_id k p).
  - intros service_id Hs Hu. unfold get_by_incident_id_and_service_id.
    rewrite (lookup_unique db (λ p, value_eqb (col p "service_id") (VInt service_id))
               incident_id k p); try done.
    + by apply bool_decide_eq_true.
    + intros k' p' Hk' Hi' Hs'%bool_decide_eq_true. eauto.
  - intros conversation_id Hc Hu. unfold get_by_incident_id_and_conversation_id.
    rewrite (lookup_unique db
               (λ p, value_eqb (col p "user_conversation_id") (VStr conversation_id))
               incident_id k p); try done.
    + by apply bool_decide_eq_true.
    + intros k' p' Hk' Hi' Hc'%bool_decide_eq_true. eauto.
Qed.

Lemma ex_db_one_only k' p' :
  participant_table ex_db_one !! k' = Some p' → k' = 1%Z.
Proof. simpl. by intros [-> _]%lookup_singleton_Some. Qed.

Lemma lookups_return_the_only_match_witness :
  get_by_incident_id_and_role ex_db_one 7 "commander" = Ok (Some (ex_commander 1))
  ∧ get_by_incident_id_and_email ex_db_one 7 "ann@example.com"
    = Ok (Some (ex_commander 1))
  ∧ get_by_incident_id_and_service_id ex_db_one 7 5 = Ok (Some (ex_commander 1))
  ∧ get_by_incident_id_and_conversation_id ex_db_one 7 "U1"
    = Ok (Some (ex_commander 1)).
Proof.
  destruct (lookups_return_the_only_match ex_db_one 7 1 (ex_commander 1))
    as (Hrole & Hemail & Hservice & Hconversation); [reflexivity..|].
  split_and!.
  - apply Hrole; [reflexivity|]. intros k' p' Hk' _ _. by eapply ex_db_one_only.
  - apply Hemail; [reflexivity|]. intros k' p' Hk' _ _. by eapply ex_db_one_only.
  - apply Hservice; [reflexivity|]. intros k' p' Hk' _ _. by eapply ex_db_one_only.
  - apply Hconversation; [reflexivity|].
    intros k' p' Hk' _ _. by eapply ex_db_one_only.
Defined.

(** X5. Each of the four lookups by incident fails with
    MultipleResultsFound when two participants of the incident satisfy its
    filter. *)
Theorem lookups_fail_on_two_matches db incident_id k1 k2 p1 p2 :
  k1 ≠ k2 →
  participant_table db !! k1 = Some p1 → col p1 "incident_id" = VInt incident_id →
  participant_table db !! k2 = Some p2 → col p2 "incident_id" = VInt incident_id →
  (∀ r, has_active_role r p1 = true → has_active_role r p2 = true →
     get_by_incident_id_and_role db incident_id r = Raise MultipleResultsFound)
  ∧ (∀ email, has_email db email p1 = true → has_email db email p2 = true →
     get_by_incident_id_and_email db incident_id email = Raise MultipleResultsFound)
  ∧ (∀ service_id,
     col p1 "service_id" = VInt service_id → col p2 "service_id" = VInt service_id →
     get_by_incident_id_and_service_id db incident_id service_id
     = Raise MultipleResultsFound)
  ∧ (∀ conversation_id,
     col p1 "user_conversation_id" = VStr conversation_id →
     col p2 "user_conversation_id" = VStr conversation_id →
     get_by_incident_id_and_conversation_id db incident_id conversation_id
     = Raise MultipleResultsFound).
Proof.
  intros Hne Hk1 Hi1 Hk2 Hi2. split_and!.
  - intros r Hr1 Hr2. unfold get_by_incident_id_and_role.
    by rewrite (lookup_two db (has_active_role r) incident_id k1 k2 p1 p2).
  - intros email He1 He2. unfold get_by_incident_id_and_email.
    by rewrite (lookup_two db (has_email db email) incident_id k1 k2 p1 p2).
  - intros service_id Hs1 Hs2. unfold get_by_incident_id_and_service_id.
    rewrite (lookup_two db (λ p, value_eqb (col p "service_id") (VInt service_id))
               incident_id k1 k2 p1 p2); try done; by apply bool_decide_eq_true.
  - intros conversation_id Hc1 Hc2. unfold get_by_incident_id_and_conversation_id.
    rewrite (lookup_two db
               (λ p, value_eqb (col p "user_conversation_id") (VStr conversation_id))
               incident_id k1 k2 p1 p2); try done; by apply bool_decide_eq_true.
Qed.

Lemma lookups_fail_on_two_matches_witness :
  get_by_incident_id_and_role ex_db_two 7 "commander" = Raise MultipleResultsFound
  ∧ get_by_incident_id_and_email ex_db_two 7 "ann@example.com"
    = Raise MultipleResultsFound
  ∧ get_by_incident_id_and_service_id ex_db_two 7 5 = Raise MultipleResultsFound
  ∧ get_by_incident_id_and_conversation_id ex_db_two 7 "U1"
    = Raise MultipleResultsFound.
Proof.
  destruct (lookups_fail_on_two_matches ex_db_two 7 1 2 (ex_commander 1)
              (ex_commander 2))
    as (Hrole & Hemail & Hservice & Hconversation); [lia|reflexivity..|].
  split_and!.
  - by apply Hrole.
  - by apply Hemail.
  - by apply Hservice.
  - by apply Hconversation.
Defined.

(** *** The listings *)

Lemma filter_snd (P : Participant → Prop) `{!∀ p, Decision (P p)}
    (l : list (Z * Participant)) :
  snd <$> List.filter (λ r, bool_decide (P r.2)) l = filter P (snd <$> l).
Proof.
  induction l as [|[k p] l IH]; [done|].
  rewrite fmap_cons, filter_cons, <- IH. cbn [List.filter snd].
  destruct (bool_decide (P p)) eqn:HP.
  - apply bool_decide_eq_true in HP. by rewrite decide_True.
  - apply bool_decide_eq_false in HP. by rewrite decide_False.
Qed.

(** X6. get_all_by_incident_id lists, in some order, the participants that
    get_all lists and whose incident_id is the given one, each as often as
    get_all lists it; get_all lists exactly the participants that get can
    return, one entry per row. (Neither query fixes an order.) *)
Theorem get_all_by_incident_id_filters db incident_id :
  get_all_by_incident_id db incident_id
  ≡ₚ filter (λ p, col p "incident_id" = VInt incident_id) (get_all db)
  ∧ (∀ p, p ∈ get_all_by_incident_id db incident_id
          ↔ p ∈ get_all db ∧ col p "incident_id" = VInt incident_id)
  ∧ (∀ p, p ∈ get_all db ↔ ∃ k, get db k = Some p)
  ∧ length (get_all db) = size (participant_table db).
Proof.
  assert (get_all_by_incident_id db incident_id
          = filter (λ p, col p "incident_id" = VInt incident_id) (get_all db)) as Heq.
  { unfold get_all_by_incident_id, get_all, query, value_eqb. rewrite filter_true.
    exact (filter_snd (λ p, col p "incident_id" = VInt incident_id) _). }
  split_and!.
  - by rewrite Heq.
  - intros p. rewrite Heq, list_elem_of_filter. tauto.
  - intros p. unfold get_all, query, get. rewrite filter_true, list_elem_of_fmap.
    split.
    + intros ([k p'] & -> & Hin%elem_of_map_to_list). by exists k.
    + intros (k & Hk). exists (k, p). by rewrite elem_of_map_to_list.
  - unfold get_all, query. by rewrite filter_true, length_fmap, length_map_to_list.
Qed.

(** *** update *)

(** The columns after the loop of [update]: a column of the row that the
    update data names holds the value of the update data, every other column
    what it held. *)
Lemma apply_update_lookup table_columns update_data p f :
  columns (apply_update table_columns update_data p) !! f
  = match (if bool_decide (f ∈ table_columns) then update_data !! f else None) with
    | Some v => Some v
    | None => columns p !! f
    end.
Proof.
  unfold apply_update. simpl. generalize (columns p) as acc.
  induction table_columns as [|x xs IH]; intros acc; simpl.
  { done. }
  rewrite IH. destruct (decide (f ∈ xs)) as [Hin|Hnin].
  - rewrite !bool_decide_eq_true_2 by (done || by right).
    destruct (update_data !! f) eqn:Hf; [done|].
    destruct (update_data !! x) as [v|] eqn:Hx; [|done].
    apply lookup_insert_ne. intros ->. congruence.
  - rewrite (bool_decide_eq_false_2 (f ∈ xs)) by done.
    destruct (decide (f = x)) as [->|Hne].
    + rewrite bool_decide_eq_true_2 by left.
      destruct (update_data !! x) as [v|] eqn:Hx; [|done].
      by rewrite lookup_insert_eq.
    + rewrite bool_decide_eq_false_2
        by (intros [?|?]%elem_of_cons; done).
      destruct (update_data !! x) as [v|] eqn:Hx; [|done].
      by apply lookup_insert_ne.
Qed.

Lemma Participant_eq (p q : Participant) :
  columns p = columns q → service p = service q →
  participant_roles p = participant_roles q → p = q.
Proof. destruct p, q. simpl. by intros -> -> ->. Qed.

Lemma set_participants_same db : set_participants db (participant_table db) = db.
Proof. by destruct db. Qed.

(** X7. For update data that names neither id nor service_id: update
    overwrites the columns of the participant that the update data names, with
    the values of the update data; a key of the update data that is no column of the participant is
    ignored (no new attribute is set); every other column, in particular id
    and service_id, the service and the roles of the participant, every other
    participant and the tables of the collaborators are as they were. *)
Theorem update_writes_named_columns table_columns db pk update_data p :
  participant_table db !! pk = Some p →
  names_no_key update_data →
  ∃ p', get (update table_columns db pk update_data) pk = Some p'
    ∧ (∀ f v, f ∈ table_columns → update_data !! f = Some v →
              columns p' !! f = Some v)
    ∧ (∀ f, f ∉ table_columns ∨ update_data !! f = None →
            columns p' !! f = columns p !! f)
    ∧ col p' "id" = col p "id" ∧ col p' "service_id" = col p "service_id"
    ∧ service p' = service p
    ∧ participant_roles p' = participant_roles p
    ∧ (∀ k, k ≠ pk → get (update table_columns db pk update_data) k = get db k)
    ∧ same_collaborators db (update table_columns db pk update_data).
Proof.
  intros Hpk [Hid Hsid]. exists (apply_update table_columns update_data p).
  assert (∀ f, f ∉ table_columns ∨ update_data !! f = None →
               columns (apply_update table_columns update_data p) !! f
               = columns p !! f) as Hkeep.
  { intros f [Hnin|Hf]; rewrite apply_update_lookup.
    - by rewrite bool_decide_eq_false_2.
    - rewrite Hf. by destruct (bool_decide (f ∈ table_columns)). }
  unfold get, update. cbn [participant_table set_participants].
  split_and!; try done.
  - by rewrite lookup_alter_eq, Hpk.
  - intros f v Hin Hf. rewrite apply_update_lookup.
    by rewrite bool_decide_eq_true_2, Hf.
  - unfold col. rewrite Hkeep; [done|by right].
  - unfold col. rewrite Hkeep; [done|by right].
  - intros k Hne. by apply lookup_alter_ne.
Qed.

Lemma update_writes_named_columns_witness :
  ∃ p', get (update ["id"; "incident_id"; "team"] ex_db_linked 0
               {[ "team" := VStr "SRE"; "nickname" := VStr "ann" ]}) 0 = Some p'
    ∧ columns p' !! "team" = Some (VStr "SRE")
    ∧ columns p' !! "nickname" = None
    ∧ columns p' !! "incident_id" = Some (VInt 7).
Proof.
  destruct (update_writes_named_columns ["id"; "incident_id"; "team"] ex_db_linked 0
              {[ "team" := VStr "SRE"; "nickname" := VStr "ann" ]} ex_linked)
    as (p' & Hget & Hset & Hkeep & _); [reflexivity|by split|].
  exists p'. split_and!.
  - exact Hget.
  - apply Hset; [|reflexivity]. apply (bool_decide_unpack _). reflexivity.
  - rewrite Hkeep; [reflexivity|]. left. apply (bool_decide_unpack _). reflexivity.
  - rewrite Hkeep; [reflexivity|]. right. reflexivity.
Defined.

Lemma apply_update_compose table_columns d1 d2 p :
  apply_update table_columns d2 (apply_update table_columns d1 p)
  = apply_update table_columns (d2 ∪ d1) p.
Proof.
  apply Participant_eq; [|done..]. apply map_eq. intros f.
  rewrite !apply_update_lookup. destruct (bool_decide (f ∈ table_columns)); [|done].
  rewrite lookup_union. by destruct (d2 !! f), (d1 !! f).
Qed.

Lemma apply_update_empty table_columns p : apply_update table_columns ∅ p = p.
Proof.
  apply Participant_eq; [|done..]. apply map_eq. intros f.
  rewrite apply_update_lookup, lookup_empty.
  by destruct (bool_decide (f ∈ table_columns)).
Qed.

(** X8. Two updates of the same participant amount to one update with the
    data of the second laid over the data of the first; hence an update
    applied twice is the update applied once, and an update with no data
    changes nothing. *)
Theorem update_composes table_columns db pk d1 d2 :
  update table_columns (update table_columns db pk d1) pk d2
  = update table_columns db pk (d2 ∪ d1)
  ∧ update table_columns (update table_columns db pk d1) pk d1
    = update table_columns db pk d1
  ∧ update table_columns db pk ∅ = db.
Proof.
  assert (∀ d d', update table_columns (update table_columns db pk d) pk d'
                  = update table_columns db pk (d' ∪ d)) as Hcomp.
  { intros d d'. unfold update. simpl. unfold set_participants. simpl. f_equal.
    rewrite alter_alter_eq. apply alter_ext. intros p _. simpl.
    apply apply_update_compose. }
  split_and!.
  - apply Hcomp.
  - by rewrite Hcomp, (idemp_L (∪)).
  - unfold update. rewrite alter_id; [apply set_participants_same|].
    intros p _. apply apply_update_empty.
Qed.

(** *** get_or_create, by cases *)

Lemma Ok_inj {A} (a b : A) : Ok a = Ok b → a = b.
Proof. congruence. Qed.

Lemma create_service db participant_in :
  service (create db participant_in).2.2
  = pc_service participant_in ≫= λ i, service_table db !! i.
Proof. unfold create. simpl. by destruct (pc_service participant_in). Qed.

(** What a call of [get_or_create] that returns has done: it has found the
    one participant of the pair and written it back, with its service or,
    when it had none, with the service of the given identifier; or it has
    found none and created one. *)
Lemma get_or_create_cases db incident_id individual_id service_id roles db' k p :
  get_or_create db incident_id individual_id service_id roles = Ok (db', (k, p)) →
  (∃ p0, query db (linked incident_id individual_id) = [(k, p0)]
         ∧ db' = set_participants db (<[k := p]> (participant_table db))
         ∧ (∀ f, f ≠ "service_id" → columns p !! f = columns p0 !! f)
         ∧ match service p0 with
           | Some s => service p = Some s ∧ columns p = columns p0
           | None =>
               service p = service_service_get db service_id
               ∧ match service_service_get db service_id, service_id with
                 | Some _, Some i => columns p = <["service_id" := VInt i]> (columns p0)
                 | _, _ => columns p = columns p0
                 end
           end)
  ∨ (query db (linked incident_id individual_id) = []
     ∧ ∃ participant_in, create db participant_in = (db', (k, p))
         ∧ pc_service participant_in
           = if service_id_truthy service_id then service_id else None).
Proof.
  unfold get_or_create. fold (linked incident_id individual_id).
  destruct (one_or_none (query db (linked incident_id individual_id)))
    as [[[k0 p0]|]|e] eqn:Hq; cbn [result_bind]; [| |done].
  - apply one_or_none_elem in Hq. intros [= <- <- <-]. left. exists p0.
    split; [done|]. split; [done|].
    destruct (service p0) as [s|]; simpl; [done|].
    destruct (service_service_get db service_id) as [s|] eqn:Hs; simpl.
    + destruct service_id as [i|]; simpl; [|done].
      split; [|done]. intros f Hf. by rewrite lookup_insert_ne.
    + by destruct service_id.
  - apply one_or_none_None in Hq. intros Hrun. right. split; [done|].
    destruct (incident_service_get db incident_id) as [project|]; [|done].
    cbn [result_bind] in Hrun.
    destruct (plugin_service_get_active_instance db project) as [plugin|].
    + destruct (individual_service_get db individual_id) as [email|]; [|done].
      cbn [result_bind] in Hrun. destruct (plugin email) as [info|]; [|done].
      cbn [result_bind] in Hrun. apply Ok_inj in Hrun. eauto.
    + cbn [result_bind] in Hrun. apply Ok_inj in Hrun. eauto.
Qed.

Lemma create_cases db participant_in :
  ∃ k p, create db participant_in
         = (set_participants db (<[k := p]> (participant_table db)), (k, p))
       ∧ participant_table db !! k = None.
Proof.
  unfold create. eexists _, _. split; [reflexivity|].
  apply not_elem_of_dom, is_fresh.
Qed.

(** X9. A call of get_or_create that returns has written the one row of the
    participant it returns, and nothing else: every other participant and the
    tables of the collaborators are as they were. The row is a new one
    exactly when no participant was linked to the pair; otherwise it is the
    row of the linked participant, whose columns other than service_id are
    unchanged. *)
Theorem get_or_create_writes_one_row db incident_id individual_id service_id roles
    db' k p :
  get_or_create db incident_id individual_id service_id roles = Ok (db', (k, p)) →
  participant_table db' = <[k := p]> (participant_table db)
  ∧ same_collaborators db db'
  ∧ (is_Some (participant_table db !! k)
     ↔ ∃ k0 p0, participant_table db !! k0 = Some p0
                ∧ linked incident_id individual_id p0 = true)
  ∧ (∀ p0, participant_table db !! k = Some p0 →
       linked incident_id individual_id p0 = true
       ∧ ∀ f, f ≠ "service_id" → columns p !! f = columns p0 !! f).
Proof.
  intros [(p0 & Hq & -> & Hcols & _)|(Hq & pin & Hcreate & _)]%get_or_create_cases.
  - assert ((k, p0) ∈ query db (linked incident_id individual_id)) as Hin
      by (rewrite Hq; left).
    apply query_spec in Hin as [Hk Hl].
    split_and!; [done|apply set_participants_collaborators| |].
    + split; [intros _; by exists k, p0|by rewrite Hk].
    + intros p0' Hk'. by simplify_eq.
  - destruct (create_cases db pin) as (k' & p' & Hc & Hfresh).
    rewrite Hc in Hcreate. injection Hcreate as <- <- <-.
    split_and!; [done|apply set_participants_collaborators| |].
    + rewrite Hfresh. split; [by intros [? ?]|].
      intros (k0 & p0 & Hk0 & Hl).
      assert ((k0, p0) ∈ query db (linked incident_id individual_id)) as Hin
        by by apply query_spec.
      rewrite Hq in Hin. by apply elem_of_nil in Hin.
    + intros p0 Hk0. congruence.
Qed.

Lemma get_or_create_writes_one_row_witness :
  ∃ db' p,
    get_or_create ex_db_linked 7 3 (Some 5%Z) [ex_reporter] = Ok (db', (0%Z, p))
    ∧ participant_table db' = <[0%Z := p]> (participant_table ex_db_linked)
    ∧ columns p !! "incident_id" = Some (VInt 7).
Proof.
  destruct ex_first_call as [[db' [k p]]|e] eqn:Hex; [|discriminate].
  assert (get_or_create ex_db_linked 7 3 (Some 5%Z) [ex_reporter] = Ok (db', (k, p)))
    as Hrun by (rewrite <- Hex; vm_compute; reflexivity).
  assert (k = 0%Z) as -> by (injection Hex as _ <- _; reflexivity).
  destruct (get_or_create_writes_one_row _ _ _ _ _ _ _ _ Hrun)
    as (Htable & _ & _ & Hrow).
  exists db', p. split_and!; [done..|].
  destruct (Hrow ex_linked) as [_ Hcols]; [reflexivity|].
  rewrite Hcols; [reflexivity|discriminate].
Defined.

(** X10. For the one participant linked to the pair, when it has no
    service: get_or_create gives it the service of the given identifier, and
    writes the identifier to its service_id column, when that service exists;
    when the identifier is None or names no service, the participant stays
    without service and its columns are unchanged. *)
Theorem get_or_create_associates_service db incident_id individual_id service_id
    roles k p :
  participant_table db !! k = Some p →
  linked incident_id individual_id p = true →
  (∀ k' p', participant_table db !! k' = Some p' →
            linked incident_id individual_id p' = true → k' = k) →
  service p = None →
  ∃ db' p',
    get_or_create db incident_id individual_id service_id roles = Ok (db', (k, p'))
    ∧ service p' = service_service_get db service_id
    ∧ (∀ s, service p' = Some s →
            ∃ i, service_id = Some i ∧ service_table db !! i = Some s
                 ∧ col p' "service_id" = VInt i)
    ∧ (service p' = None → columns p' = columns p).
Proof.
  intros Hk Hl Hu Hnone.
  destruct (get_or_create_found db incident_id individual_id service_id roles k p)
    as (p' & Hrun & _); [by apply query_singleton|].
  exists (set_participants db (<[k := p']> (participant_table db))), p'.
  split; [done|].
  destruct (get_or_create_cases _ _ _ _ _ _ _ _ Hrun)
    as [(p0 & Hq & _ & _ & Hsvc)|(Hq & _)].
  2:{ rewrite (query_singleton db _ k p) in Hq; done. }
  rewrite (query_singleton db _ k p) in Hq by done. injection Hq as <-.
  rewrite Hnone in Hsvc. destruct Hsvc as [Hs Hcols]. split; [done|].
  rewrite Hs. unfold service_service_get in *.
  destruct service_id as [i|]; simpl in *.
  - destruct (service_table db !! i) as [s|] eqn:Hi.
    + split; [|done]. intros s' [= <-]. exists i. split_and!; [done..|].
      unfold col. by rewrite Hcols, lookup_insert_eq.
    + split; [done|]. by intros _.
  - split; [done|]. by intros _.
Qed.

Lemma get_or_create_associates_service_witness :
  ∃ db' p',
    get_or_create ex_db_linked 7 3 (Some 5%Z) [ex_reporter] = Ok (db', (0%Z, p'))
    ∧ service p' = Some {| service_pk := 5 |}
    ∧ col p' "service_id" = VInt 5.
Proof.
  destruct (get_or_create_associates_service ex_db_linked 7 3 (Some 5%Z)
              [ex_reporter] 0 ex_linked)
    as (db' & p' & Hrun & Hsvc & Hcol & _); [reflexivity..| |reflexivity|].
  { intros k' p' Hk' _. simpl in Hk'. by apply lookup_singleton_Some in Hk' as [-> _]. }
  exists db', p'. split_and!; [done..|].
  destruct (Hcol _ Hsvc) as (i & [= <-] & _ & Hi). exact Hi.
Defined.

(** X11. The participant service never associates a participant with a
    service that does not exist: when every service of a participant is a
    record of the service table, this is still so after any one operation
    (get_or_create, create, update with data that does not name service_id,
    delete), and the operation leaves the tables of the collaborators as
    they were. *)
Theorem services_exist_invariant table_columns op db db' :
  services_exist db → leaves_service op →
  run table_columns op db = Ok db' →
  services_exist db' ∧ same_collaborators db db'.
Proof.
  intros Hinv _ Hrun.
  assert (∀ k p, participant_table db' = <[k := p]> (participant_table db) →
                 service_table db' = service_table db →
                 (∀ s, service p = Some s → ∃ i, service_table db !! i = Some s) →
                 services_exist db') as Hinsert.
  { intros k p Ht Hst Hp k' p' s Hk' Hs. rewrite Hst. rewrite Ht in Hk'.
    destruct (decide (k' = k)) as [->|Hne].
    - rewrite lookup_insert_eq in Hk'. injection Hk' as <-. eauto.
    - rewrite lookup_insert_ne in Hk' by done. eauto. }
  destruct op as [i c sid rs|pin|pk d|pk]; cbn [run] in Hrun.
  - destruct (get_or_create db i c sid rs) as [[db1 [k p]]|e] eqn:Hgoc; [|done].
    cbn [result_bind fst] in Hrun. apply Ok_inj in Hrun as <-.
    destruct (get_or_create_cases _ _ _ _ _ _ _ _ Hgoc)
      as [(p0 & Hq & -> & _ & Hsvc)|(Hq & pin & Hcreate & _)].
    + split; [|apply set_participants_collaborators].
      assert ((k, p0) ∈ query db (linked i c)) as [Hk _]%query_spec
        by (rewrite Hq; left).
      apply (Hinsert k p); [done..|]. intros s Hs.
      destruct (service p0) as [s0|] eqn:Hs0.
      * destruct Hsvc as [Hs' _]. rewrite Hs' in Hs. injection Hs as <-. eauto.
      * destruct Hsvc as [Hs' _]. rewrite Hs' in Hs. unfold service_service_get in Hs.
        destruct sid as [j|]; simpl in Hs; [eauto|done].
    + destruct (create_cases db pin) as (k' & p' & Hc & Hfresh).
      pose proof (create_service db pin) as Hs.
      rewrite Hcreate in Hs. rewrite Hc in Hcreate. injection Hcreate as <- <- <-.
      split; [|apply set_participants_collaborators].
      apply (Hinsert k' p'); [done..|]. intros s Hs'. simpl in Hs. rewrite Hs in Hs'.
      destruct (pc_service pin) as [j|]; simpl in Hs'; [eauto|done].
  - apply Ok_inj in Hrun as <-.
    destruct (create_cases db pin) as (k' & p' & Hc & Hfresh).
    pose proof (create_service db pin) as Hs. rewrite Hc in Hs, Hinsert |- *.
    cbn [fst snd] in *.
    split; [|apply set_participants_collaborators].
    apply (Hinsert k' p'); [done..|]. intros s Hs'. rewrite Hs in Hs'.
    destruct (pc_service pin) as [j|]; simpl in Hs'; [eauto|done].
  - apply Ok_inj in Hrun as <-. split; [|apply set_participants_collaborators].
    intros k p s Hk Hs. unfold update in Hk. simpl in Hk.
    apply lookup_alter_Some in Hk as [(-> & p0 & Hp0 & ->)|[_ Hk]]; [|eauto].
    simpl in Hs. eauto.
  - unfold delete in Hrun.
    destruct (participant_table db !! pk) as [p0|]; [|done]. injection Hrun as <-.
    split; [|apply set_participants_collaborators].
    intros k p s Hk Hs. simpl in Hk. apply lookup_delete_Some in Hk as [_ Hk]. eauto.
Qed.

Lemma services_exist_invariant_witness :
  ∃ db', run [] (OpGetOrCreate 7 3 (Some 6%Z) [ex_observer]) ex_db_one = Ok db'
         ∧ services_exist db' ∧ same_collaborators ex_db_one db'.
Proof.
  destruct (run [] (OpGetOrCreate 7 3 (Some 6%Z) [ex_observer]) ex_db_one)
    as [db'|e] eqn:Hrun; [|by vm_compute in Hrun].
  exists db'. split; [done|].
  apply (services_exist_invariant [] (OpGetOrCreate 7 3 (Some 6%Z) [ex_observer])
           ex_db_one db'); [|exact I|exact Hrun].
  intros k p s Hk Hs. apply ex_db_one_only in Hk as Hk1. subst k.
  injection Hk as <-. injection Hs as <-. by exists 5%Z.
Defined.

(** X12. For the one participant linked to the pair, when it has a
    service: get_or_create without roles is a lookup; it returns the
    participant and leaves the session as it was, whatever the service
    identifier of the call. *)
Theorem get_or_create_is_lookup db incident_id individual_id service_id k p s :
  participant_table db !! k = Some p →
  linked incident_id individual_id p = true →
  (∀ k' p', participant_table db !! k' = Some p' →
            linked incident_id individual_id p' = true → k' = k) →
  service p = Some s →
  get_or_create db incident_id individual_id service_id [] = Ok (db, (k, p)).
Proof.
  intros Hk Hl Hu Hs.
  destruct (get_or_create_found db incident_id individual_id service_id [] k p)
    as (p' & Hrun & Hroles & Hsvc & _); [by apply query_singleton|].
  destruct (Hsvc s Hs) as [Hs' Hcols].
  assert (p' = p) as ->.
  { apply Participant_eq; [done|congruence|]. by rewrite Hroles, app_nil_r. }
  by rewrite Hrun, insert_id, set_participants_same.
Qed.

Lemma get_or_create_is_lookup_witness :
  get_or_create ex_db_one 7 3 (Some 6%Z) [] = Ok (ex_db_one, (1%Z, ex_commander 1)).
Proof.
  apply (get_or_create_is_lookup ex_db_one 7 3 (Some 6%Z) 1 (ex_commander 1)
           {| service_pk := 5 |}); [reflexivity..| |reflexivity].
  intros k' p' Hk' _. by eapply ex_db_one_only.
Defined.

(** *** What a lookup returns *)

Lemma lookup_sound db (Q : Participant → bool) incident_id p :
  (do o <- one_or_none (query db (λ p, value_eqb (col p "incident_id")
                                                 (VInt incident_id) && Q p));
   Ok (snd <$> o)) = Ok (Some p) →
  (∃ k, get db k = Some p) ∧ col p "incident_id" = VInt incident_id ∧ Q p = true.
Proof.
  intros H. apply result_bind_Ok in H as ([[k p']|] & Hq & [= <-]).
  apply one_or_none_elem in Hq.
  assert ((k, p') ∈ query db (λ p, value_eqb (col p "incident_id") (VInt incident_id)
                                   && Q p)) as [Hk HQ]%query_spec
    by (rewrite Hq; left).
  apply incident_filter in HQ as [? ?]. split; [by exists k|done].
Qed.

(** X13. A participant that one of the four lookups by incident returns is
    a participant of the table, of the given incident, that satisfies the
    filter of the lookup: it holds an active role (one that is not
    renounced) of the given name, its individual has the given email, or its
    service or conversation identifier is the given one. *)
Theorem lookups_return_a_match db incident_id p :
  (∀ r, get_by_incident_id_and_role db incident_id r = Ok (Some p) →
     (∃ k, get db k = Some p) ∧ col p "incident_id" = VInt incident_id
     ∧ ∃ pr, pr ∈ participant_roles p ∧ role pr = r ∧ renounced_at pr = None)
  ∧ (∀ email, get_by_incident_id_and_email db incident_id email = Ok (Some p) →
     (∃ k, get db k = Some p) ∧ col p "incident_id" = VInt incident_id
     ∧ ∃ i, col p "individual_contact_id" = VInt i
            ∧ individual_table db !! i = Some email)
  ∧ (∀ service_id,
     get_by_incident_id_and_service_id db incident_id service_id = Ok (Some p) →
     (∃ k, get db k = Some p) ∧ col p "incident_id" = VInt incident_id
     ∧ col p "service_id" = VInt service_id)
  ∧ (∀ conversation_id,
     get_by_incident_id_and_conversation_id db incident_id conversation_id
     = Ok (Some p) →
     (∃ k, get db k = Some p) ∧ col p "incident_id" = VInt incident_id
     ∧ col p "user_conversation_id" = VStr conversation_id).
Proof.
  split_and!.
  - intros r (Hk & Hi & Hr)%lookup_sound. split_and!; [done..|].
    unfold has_active_role in Hr. apply existsb_exists in Hr as (pr & Hin & Hpr).
    apply andb_true_iff in Hpr as [H1%bool_decide_eq_true H2%bool_decide_eq_true].
    exists pr. by rewrite list_elem_of_In.
  - intros email (Hk & Hi & He)%lookup_sound. split_and!; [done..|].
    unfold has_email in He. destruct (col p "individual_contact_id"); try done.
    apply bool_decide_eq_true in He. eauto.
  - intros service_id (Hk & Hi & Hs)%lookup_sound. split_and!; [done..|].
    by apply bool_decide_eq_true in Hs.
  - intros conversation_id (Hk & Hi & Hc)%lookup_sound. split_and!; [done..|].
    by apply bool_decide_eq_true in Hc.
Qed.

End ParticipantServiceLaws.

(** ** The renderer by value: composition, failures and the rendered fields *)

Module StringsOutputFacts.
Import Strings StringsOutput StringsFacts.

Ltac in_keys := repeat constructor.

Section render.

Variable jinja : string → context → result string.

Abbreviation render_field := (render_field jinja).
Abbreviation render_block := (render_block jinja).
Abbreviation render_loop := (render_loop jinja).
Abbreviation render_message_template := (render_message_template jinja).
Abbreviation title_link_dropped := (title_link_dropped jinja).

(** *** The loop over a concatenation *)

Lemma render_loop_data kwargs tpl data :
  render_loop kwargs tpl data
  = do out <- render_loop kwargs tpl []; Ok (data ++ out).
Proof.
  revert data. induction tpl as [|d tpl IH]; intros data; simpl.
  { by rewrite app_nil_r. }
  destruct (render_block kwargs d) as [[d'|]|e]; simpl; [|done..].
  rewrite (IH (data ++ [d'])), (IH [d']).
  destruct (render_loop kwargs tpl []) as [out|e]; simpl; [|done].
  by rewrite <- app_assoc.
Qed.

Lemma render_loop_app kwargs tpl1 tpl2 data :
  render_loop kwargs (tpl1 ++ tpl2) data
  = do data1 <- render_loop kwargs tpl1 data; render_loop kwargs tpl2 data1.
Proof.
  revert data. induction tpl1 as [|d tpl1 IH]; intros data; simpl; [done|].
  destruct (render_block kwargs d) as [[d'|]|e]; simpl; [|done..]. apply IH.
Qed.

(** X14. The rendering of a concatenation is the concatenation of the
    renderings: the blocks are rendered one by one, and the call on
    [tpl1 ++ tpl2] fails where the call on [tpl1] fails, else where the call
    on [tpl2] fails, and else returns the two outputs in a row. *)
Theorem render_message_template_app tpl1 tpl2 kwargs :
  render_message_template (tpl1 ++ tpl2) kwargs
  = do out1 <- render_message_template tpl1 kwargs;
    do out2 <- render_message_template tpl2 kwargs;
    Ok (out1 ++ out2).
Proof.
  unfold Strings.render_message_template. rewrite render_loop_app.
  destruct (render_loop kwargs tpl1 []) as [out1|e]; simpl; [|done].
  apply render_loop_data.
Qed.

(** By value: the call fails exactly when a block fails, with the exception
    of the first block that does: the blocks after it are not rendered and no
    partial output is returned. It returns exactly when every block renders
    (or is skipped). *)
Lemma first_failure_by_value tpl kwargs :
  (∀ e, render_message_template tpl kwargs = Raise e
        ↔ ∃ before d after,
            tpl = before ++ d :: after
            ∧ Forall (renders jinja kwargs) before
            ∧ render_block kwargs d = Raise e)
  ∧ ((∃ out, render_message_template tpl kwargs = Ok out)
     ↔ Forall (renders jinja kwargs) tpl).
Proof.
  unfold Strings.render_message_template. generalize (@nil block) as data.
  induction tpl as [|d tpl IH]; intros data.
  { split.
    - intros e. split; [done|]. intros (before & d & after & Heq & _).
      by destruct before.
    - split; [by constructor|]. intros _. by eexists. }
  simpl. destruct (render_block kwargs d) as [r|e'] eqn:Hd; simpl.
  - assert (∃ data', (match r with
                      | Some d' => render_loop kwargs tpl (data ++ [d'])
                      | None => render_loop kwargs tpl data
                      end) = render_loop kwargs tpl data') as [data' ->].
    { destruct r; eauto. }
    destruct (IH data') as [IHe IHok]. split.
    + intros e. rewrite IHe. split.
      * intros (before & d0 & after & -> & Hbefore & Hd0).
        exists (d :: before), d0, after. split; [done|]. split; [|done].
        constructor; [by exists r|done].
      * intros (before & d0 & after & Heq & Hbefore & Hd0).
        destruct before as [|b before]; simpl in Heq.
        -- injection Heq as <- <-. congruence.
        -- injection Heq as <- ->. apply Forall_cons in Hbefore as [_ Hbefore].
           by exists before, d0, after.
    + rewrite IHok. split.
      * intros H. constructor; [by exists r|done].
      * by intros [_ H]%Forall_cons.
  - split.
    + intros e. split.
      * intros [= <-]. exists [], d, tpl. by repeat split.
      * intros (before & d0 & after & Heq & Hbefore & Hd0).
        destruct before as [|b before]; simpl in Heq.
        -- injection Heq as <- <-. congruence.
        -- injection Heq as <- ->. apply Forall_cons in Hbefore as [[r Hr] _].
           congruence.
    + split; [by intros [? ?]|]. intros [[r Hr] _]%Forall_cons. congruence.
Qed.

(** *** The stages of a block that is kept *)

(** The eight stages behind a block that is kept. *)
Lemma render_block_kept_stages kwargs d d' :
  render_block kwargs d = Ok (Some d') →
  ∃ d1 d2 d3 d4 d5 d6 d7,
    render_field "header" kwargs d = Ok d1
    ∧ render_field "title" kwargs d1 = Ok d2
    ∧ render_title_link jinja kwargs d2 = Ok (Some d3)
    ∧ render_text jinja kwargs d3 = Ok d4
    ∧ render_buttons jinja kwargs d4 = Ok d5
    ∧ render_status_mapping kwargs d5 = Ok d6
    ∧ render_field "datetime" kwargs d6 = Ok d7
    ∧ render_field "context" kwargs d7 = Ok d'.
Proof.
  unfold Strings.render_block, render_before_status, render_from_status. intros H.
  bind_ok H. bind_ok Hx. rename x0 into d1. bind_ok Hx. rename x0 into d2.
  bind_ok Hx. destruct x0 as [d3|]; [|by simplify_eq].
  bind_ok Hx. rename x0 into d4. bind_ok Hx. rename x0 into d5.
  injection Hx as <-. bind_ok H. injection H as <-.
  bind_ok Hx. rename x0 into d6. bind_ok Hx. rename x0 into d7.
  by exists d1, d2, d3, d4, d5, d6, d7.
Qed.

Lemma render_title_link_lookup kwargs d d' k' :
  render_title_link jinja kwargs d = Ok (Some d') → k' ≠ "title_link" →
  d' !! k' = d !! k'.
Proof.
  intros [[? _]|(d0 & [= <-] & _ & Hk)]%render_title_link_spec Hne; [done|].
  by apply Hk.
Qed.

Lemma render_status_mapping_lookup kwargs d d' k' :
  render_status_mapping kwargs d = Ok d' → k' ≠ "text" → d' !! k' = d !! k'.
Proof.
  unfold render_status_mapping. intros H Hne.
  destruct (truthy (dict_get d "status_mapping")); [|by injection H as <-].
  bind_ok H. bind_ok H. injection H as <-. by apply lookup_insert_ne.
Qed.

(** What a stage that renders the field [k] in place leaves under [k]. *)
Lemma render_field_own k kwargs d d' :
  render_field k kwargs d = Ok d' → rendered_field jinja kwargs k d d'.
Proof.
  unfold Strings.render_field, rendered_field. intros H.
  destruct (truthy (dict_get d k)) eqn:Ht; [|by injection H as <-].
  bind_ok H. injection H as <-.
  destruct (dict_get d k) as [|source| |]; try done.
  exists source, x. by rewrite lookup_insert_eq.
Qed.

Lemma render_title_link_own kwargs d d' :
  render_title_link jinja kwargs d = Ok (Some d') →
  rendered_field jinja kwargs "title_link" d d'.
Proof.
  unfold render_title_link, rendered_field. intros H.
  destruct (truthy (dict_get d "title_link")) eqn:Ht; [|by injection H as <-].
  bind_ok H. repeat case_bool_decide; try done. injection H as <-.
  destruct (dict_get d "title_link") as [|source| |]; try done.
  exists source, x. by rewrite lookup_insert_eq.
Qed.

Lemma rendered_field_ext kwargs k (d0 d d' d1 : block) :
  d !! k = d0 !! k → d1 !! k = d' !! k →
  rendered_field jinja kwargs k d d' → rendered_field jinja kwargs k d0 d1.
Proof. unfold rendered_field, dict_get. by intros -> ->. Qed.

(** The field [k], one of the five that are rendered in place by one stage
    and touched by no other, through the stages of a block. *)
Lemma render_block_field kwargs d d' k :
  render_block kwargs d = Ok (Some d') →
  k ∈ ["header"; "title"; "title_link"; "datetime"; "context"] →
  rendered_field jinja kwargs k d d'.
Proof.
  intros (d1 & d2 & d3 & d4 & d5 & d6 & d7 & H1 & H2 & H3 & H4 & H5 & H6 & H7 & H8)
    %render_block_kept_stages Hk.
  assert (∀ k', k' ≠ "header" → d1 !! k' = d !! k') as E1
    by (intros; by eapply render_field_lookup).
  assert (∀ k', k' ≠ "title" → d2 !! k' = d1 !! k') as E2
    by (intros; by eapply render_field_lookup).
  assert (∀ k', k' ≠ "title_link" → d3 !! k' = d2 !! k') as E3
    by (intros; by eapply render_title_link_lookup).
  assert (∀ k', k' ≠ "text" → d4 !! k' = d3 !! k') as E4
    by (intros; by eapply render_text_lookup).
  assert (∀ k', k' ≠ "buttons" → d5 !! k' = d4 !! k') as E5
    by (intros; by eapply render_buttons_lookup).
  assert (∀ k', k' ≠ "text" → d6 !! k' = d5 !! k') as E6
    by (intros; by eapply render_status_mapping_lookup).
  assert (∀ k', k' ≠ "datetime" → d7 !! k' = d6 !! k') as E7
    by (intros; by eapply render_field_lookup).
  assert (∀ k', k' ≠ "context" → d' !! k' = d7 !! k') as E8
    by (intros; by eapply render_field_lookup).
  repeat (apply elem_of_cons in Hk as [->|Hk]); [| | | | |by apply elem_of_nil in Hk].
  - eapply rendered_field_ext; [| |exact (render_field_own _ _ _ _ H1)]; [done|].
    by rewrite E8, E7, E6, E5, E4, E3, E2.
  - eapply rendered_field_ext; [| |exact (render_field_own _ _ _ _ H2)].
    + by rewrite E1.
    + by rewrite E8, E7, E6, E5, E4, E3.
  - eapply rendered_field_ext; [| |exact (render_title_link_own _ _ _ H3)].
    + by rewrite E2, E1.
    + by rewrite E8, E7, E6, E5, E4.
  - eapply rendered_field_ext; [| |exact (render_field_own _ _ _ _ H7)].
    + by rewrite E6, E5, E4, E3, E2, E1.
    + by rewrite E8.
  - eapply rendered_field_ext; [| |exact (render_field_own _ _ _ _ H8)]; [|done].
    by rewrite E7, E6, E5, E4, E3, E2, E1.
Qed.

(** By value: for a block of the input that is not dropped, and for each of
    the fields header, title, title_link, datetime and context: when the field
    holds something (a non-empty string), the field of the rendered block in
    the output is the string that the engine renders from it; when it is
    missing, None or empty, it is left as it is. *)
Lemma kept_block_simple_fields tpl kwargs out d k :
  render_message_template tpl kwargs = Ok out → d ∈ tpl →
  title_link_dropped kwargs d = false →
  k ∈ ["header"; "title"; "title_link"; "datetime"; "context"] →
  ∃ d', render_block kwargs d = Ok (Some d') ∧ d' ∈ out
        ∧ rendered_field jinja kwargs k d d'.
Proof.
  intros Hout Hd Hkeep Hk.
  destruct (render_message_template_block _ _ _ _ _ Hout Hd) as (r & Hr & Hin).
  destruct (render_block_spec _ _ _ _ Hr) as [[_ Hdrop]|(d' & -> & _)]; [congruence|].
  exists d'. split; [done|]. split; [by apply Hin|].
  by apply render_block_field.
Qed.

(** *** The keys of a rendered block *)









(** *** The buttons *)

Lemma render_button_item_own k kwargs b b' :
  render_button_item jinja k kwargs b = Ok b' →
  (∃ source s, b !! k = Some (AStr source) ∧ jinja source kwargs = Ok s
               ∧ b' = <[k := AStr s]> b).
Proof.
  unfold render_button_item. intros H. bind_ok H. bind_ok H. injection H as <-.
  destruct (b !! k) as [[|source]|]; simplify_eq; simpl in *; try done.
  by exists source, x0.
Qed.

Lemma render_button_optional_own k kwargs b b' :
  render_button_optional jinja k kwargs b = Ok b' →
  if truthy (button_get b k)
  then ∃ source s, b !! k = Some (AStr source) ∧ jinja source kwargs = Ok s
                   ∧ b' = <[k := AStr s]> b
  else b' = b.
Proof.
  unfold render_button_optional.
  destruct (truthy (button_get b k)); [apply render_button_item_own|].
  by intros [= <-].
Qed.

Lemma render_button_own kwargs b b' :
  render_button jinja kwargs b = Ok b' → rendered_button jinja kwargs b b'.
Proof.
  unfold render_button. intros H.
  bind_ok H. rename x into b1, Hx into Hb1.
  bind_ok H. rename x into b2, Hx into Hb2.
  bind_ok H. rename x into b3, Hx into Hb3.
  apply render_button_item_own in Hb1 as (s1 & t1 & Hs1 & Ht1 & ->).
  apply render_button_item_own in Hb2 as (s2 & t2 & Hs2 & Ht2 & ->).
  apply render_button_optional_own in Hb3, H.
  rewrite lookup_insert_ne in Hs2 by done.
  assert (button_get (<["button_value":=AStr t2]> (<["button_text":=AStr t1]> b))
            "button_action" = button_get b "button_action") as E3.
  { unfold button_get. by rewrite !lookup_insert_ne. }
  rewrite E3 in Hb3.
  assert (button_get b3 "button_url" = button_get b "button_url") as E4.
  { unfold button_get.
    destruct (truthy (button_get b "button_action")).
    - destruct Hb3 as (? & ? & _ & _ & ->). by rewrite !lookup_insert_ne.
    - subst b3. by rewrite !lookup_insert_ne. }
  rewrite E4 in H.
  assert (∀ k, b3 !! k
               = if bool_decide (k = "button_action")
                 then (if truthy (button_get b "button_action")
                       then b3 !! k else b !! k)
                 else if bool_decide (k = "button_value") then Some (AStr t2)
                 else if bool_decide (k = "button_text") then Some (AStr t1)
                 else b !! k) as Hb3k.
  { intros k. destruct (truthy (button_get b "button_action")).
    - destruct Hb3 as (? & ? & _ & _ & ->).
      repeat case_bool_decide; by simplify_map_eq.
    - subst b3. repeat case_bool_decide; by simplify_map_eq. }
  assert (∀ k, k ≠ "button_url" → b' !! k = b3 !! k) as Hb'k.
  { intros k Hk. destruct (truthy (button_get b "button_url")).
    - destruct H as (? & ? & _ & _ & ->). by rewrite lookup_insert_ne.
    - by subst b'. }
  split_and!.
  - exists s1, t1. split_and!; [done..|]. by rewrite Hb'k, Hb3k.
  - exists s2, t2. split_and!; [done..|]. by rewrite Hb'k, Hb3k.
  - intros k [->|[->|Hk%elem_of_nil]%elem_of_cons]%elem_of_cons; [| |done].
    + destruct (truthy (button_get b "button_action")) eqn:Ha.
      * destruct Hb3 as (s3 & t3 & Hs3 & Ht3 & ->).
        rewrite !lookup_insert_ne in Hs3 by done.
        exists s3, t3. split_and!; [done..|].
        by rewrite Hb'k, lookup_insert_eq.
      * by rewrite Hb'k, Hb3k by done.
    + destruct (truthy (button_get b "button_url")) eqn:Hu.
      * destruct H as (s4 & t4 & Hs4 & Ht4 & ->).
        exists s4, t4. rewrite Hb3k in Hs4. simpl in Hs4.
        split_and!; [done..|]. by rewrite lookup_insert_eq.
      * subst b'. by rewrite Hb3k.
  - intros k Hk. rewrite Hb'k by (intros ->; apply Hk; in_keys).
    rewrite Hb3k. rewrite !bool_decide_eq_false_2; [done|..];
      intros ->; apply Hk; in_keys.
Qed.

Lemma render_button_list_own kwargs bs bs' :
  render_button_list jinja kwargs bs = Ok bs' →
  Forall2 (rendered_button jinja kwargs) bs bs'.
Proof.
  revert bs'. induction bs as [|b bs IH]; intros bs'; simpl.
  { intros [= <-]. constructor. }
  intros H. bind_ok H. bind_ok H. injection H as <-.
  constructor; [by apply render_button_own|by apply IH].
Qed.

(** By value: for a block of the input that is not dropped and has buttons:
    the buttons are a list, and the rendered block in the output has a list of
    as many buttons, each the rendering of the button at its place: its text
    and its value are strings, rendered by the engine; its action and its url
    are rendered when they hold something; every other key is unchanged. *)
Lemma kept_block_buttons tpl kwargs out d :
  render_message_template tpl kwargs = Ok out → d ∈ tpl →
  title_link_dropped kwargs d = false →
  truthy (dict_get d "buttons") = true →
  ∃ d' bs bs',
    render_block kwargs d = Ok (Some d') ∧ d' ∈ out
    ∧ d !! "buttons" = Some (VList bs)
    ∧ d' !! "buttons" = Some (VList bs')
    ∧ Forall2 (rendered_button jinja kwargs) bs bs'.
Proof.
  intros Hout Hd Hkeep Hb.
  destruct (render_message_template_block _ _ _ _ _ Hout Hd) as (r & Hr & Hin).
  destruct (render_block_spec _ _ _ _ Hr) as [[_ Hdrop]|(d' & -> & _)]; [congruence|].
  destruct (render_block_kept_stages _ _ _ Hr)
    as (d1 & d2 & d3 & d4 & d5 & d6 & d7 & H1 & H2 & H3 & H4 & H5 & H6 & H7 & H8).
  assert (d4 !! "buttons" = d !! "buttons") as E4.
  { rewrite (render_text_lookup _ _ _ _ _ H4) by done.
    rewrite (render_title_link_lookup _ _ _ _ H3) by done.
    rewrite (render_field_lookup _ _ _ _ _ _ H2) by done.
    by rewrite (render_field_lookup _ _ _ _ _ _ H1) by done. }
  assert (d' !! "buttons" = d5 !! "buttons") as E5.
  { rewrite (render_field_lookup _ _ _ _ _ _ H8) by done.
    rewrite (render_field_lookup _ _ _ _ _ _ H7) by done.
    by rewrite (render_status_mapping_lookup _ _ _ _ H6) by done. }
  unfold render_buttons, dict_get in H5. rewrite E4 in H5.
  unfold dict_get in Hb. rewrite Hb in H5.
  destruct (d !! "buttons") as [[| |bs|]|] eqn:Hbs; try done. simpl in H5.
  bind_ok H5. rename x into bs'. injection H5 as <-.
  exists d', bs, bs'. split_and!; [done|by apply Hin|done| |].
  - by rewrite E5, lookup_insert_eq.
  - by apply render_button_list_own.
Qed.

End render.

(** *** The theorems at a concrete block *)


(** The call fails with the exception of the engine on the second block,
    whatever follows. *)
Example ex_first_failure :
  render_message_template ex_engine_failing
    [ex_block_report; ex_block_broken; ex_block_button] ∅
  = Raise TemplateError.
Proof. reflexivity. Qed.

End StringsOutputFacts.

(** ** The renderer on the heap: the objects of the output *)

Module StringsHeapOutputFacts.
Import Strings StringsHeap StringsTree StringsHeapFacts.

(** The call returns a reference that is new, in a heap that extends the
    one of the caller by objects that do not refer back into it. *)
Lemma keeps_render_message_template_result σ0 jinja fuel message_template kwargs :
  preserves (frame σ0) (render_message_template jinja fuel message_template kwargs)
            (λ v, ∃ data, v = HRef data ∧ σ0 !! data = None).
Proof.
  unfold render_message_template.
  eapply preserves_bind; [by apply keeps_alloc; constructor|]. intros data Hdata.
  eapply preserves_bind; [by apply keeps_deepcopy, map_Forall_empty|].
  intros [new_copy memo] [Hcopy _].
  eapply preserves_bind; [by apply keeps_iter|]. intros items Hitems.
  eapply preserves_bind.
  - eapply preserves_for_each; [|done]. intros d Hd.
    eapply preserves_bind; [by apply keeps_render_block|]. intros [|] _.
    + by apply keeps_append.
    + by apply preserves_ret.
  - intros _ _. apply preserves_ret. by exists data.
Qed.

(** From a new reference, in such a heap, only new objects are reached. *)
Lemma fresh_reach σ0 σ n : ∀ v l,
  frame σ0 σ → fresh_val σ0 v → l ∈ reach n σ v → σ0 !! l = None.
Proof.
  induction n as [|n IH]; intros [| |l0] l Hframe Hv; simpl;
    try by intros ?%elem_of_nil.
  intros [->|Hin]%elem_of_cons; [done|].
  destruct (σ !! l0) as [o|] eqn:Hl0; [|by apply elem_of_nil in Hin].
  apply list_elem_of_bind in Hin as (c & Hin & Hc).
  apply (IH c); [done| |done].
  destruct Hframe as [_ Hnew]. pose proof (Hnew l0 o Hl0 Hv) as Ho.
  destruct o as [m|xs]; simpl in *.
  - apply list_elem_of_fmap in Hc as ([k c'] & -> & Hkc%elem_of_map_to_list).
    by apply (Ho k).
  - rewrite Forall_forall in Ho. by apply Ho.
Qed.

(** X19. The list that render_message_template returns is a new object,
    and so is every object that is reached from it (its blocks, their button
    lists, buttons and status mappings): none of them existed when the call
    started, so that the output shares no object with the input. *)
Theorem render_message_template_returns_new_objects jinja fuel message_template
    kwargs (σ σ' : heap) v :
  render_message_template jinja fuel message_template kwargs σ = Some (σ', Ok v) →
  (∃ data, v = HRef data ∧ σ !! data = None)
  ∧ ∀ n l, l ∈ reach n σ' v → σ !! l = None.
Proof.
  intros Hrun.
  destruct (keeps_render_message_template_result σ jinja fuel message_template kwargs
              σ σ' (Ok v) (frame_refl σ) Hrun) as [Hframe (data & -> & Hdata)].
  split; [by exists data|]. intros n l. by apply fresh_reach.
Qed.

Lemma render_message_template_returns_new_objects_witness :
  ∃ σ' v,
    ex_render = Some (σ', Ok v)
    ∧ (∃ data, v = HRef data ∧ ex_heap !! data = None)
    ∧ ∀ n l, l ∈ reach n σ' v → ex_heap !! l = None.
Proof.
  destruct ex_render as [[σ' [v|e]]|] eqn:Hex; try discriminate.
  exists σ', v. split; [done|].
  apply (render_message_template_returns_new_objects ex_engine_name 5 (HRef 6)
           ex_kwargs_open ex_heap σ' v).
  rewrite <- Hex. vm_compute. reflexivity.
Defined.

End StringsHeapOutputFacts.

(** ** The call of the renderer on templates of separate objects *)

(** What the call of [StringsHeap.render_message_template], the source
    statement by statement, returns on a template whose dicts and lists are
    separate objects. The input is read before the call ([ttemplate σ v]),
    the output after it ([ttemplate σ' data]). *)
Module StringsCallFacts.
Import Strings StringsHeap StringsTree StringsOutput StringsCall.
Import StringsFacts StringsTreeFacts StringsOutputFacts.

Section call.

Variable jinja : string → context → result string.

Abbreviation call := (StringsHeap.render_message_template jinja).
Abbreviation render_block := (Strings.render_block jinja).
Abbreviation title_link_dropped := (Strings.title_link_dropped jinja).

(** C3, amended. On a template of separate objects, when the call returns,
    its output is made of the renderings, in the order of the input, of the
    blocks that are not dropped, where a block is dropped when its title link
    is present and not empty and renders to the empty string or to "None";
    dropping a block is not an error, and the length of the output is the
    length of the input minus the number of dropped blocks. *)
Theorem title_link_blocks_dropped fuel σ v kwargs σ' data :
  good_template σ v → 4 < fuel →
  call fuel v kwargs σ = Some (σ', Ok data) →
  Forall2 (λ d d', render_block kwargs d = Ok (Some d'))
          (List.filter (λ d, negb (title_link_dropped kwargs d)) (ttemplate σ v))
          (ttemplate σ' data)
  ∧ length (ttemplate σ' data)
    = length (ttemplate σ v)
      - length (List.filter (title_link_dropped kwargs) (ttemplate σ v))
  ∧ ∀ d, d ∈ ttemplate σ v → title_link_dropped kwargs d = true →
         render_block kwargs d = Ok None.
Proof.
  intros Hgood Hfuel Hrun.
  destruct (render_call_returns jinja kwargs fuel σ v σ' data Hgood Hfuel Hrun)
    as [Hval _].
  exact (kept_blocks_in_order jinja _ _ _ Hval).
Qed.

(** C4, amended. On a template of separate objects, for a block of the input
    that is not dropped and has no (non-empty) status mapping, whose text is
    present and not empty and renders to [text]: when the call returns, the
    text of the rendered block in the output is [text] cut to at most 2500
    characters, that is, exactly the first 2500 characters of [text] when
    [text] is longer, and [text] itself otherwise. *)
Theorem text_truncated fuel σ v kwargs σ' data d source text :
  good_template σ v → 4 < fuel →
  call fuel v kwargs σ = Some (σ', Ok data) →
  d ∈ ttemplate σ v →
  title_link_dropped kwargs d = false →
  Strings.truthy (Strings.dict_get d "status_mapping") = false →
  Strings.dict_get d "text" = VStr source → source ≠ "" →
  jinja source kwargs = Ok text →
  ∃ d', render_block kwargs d = Ok (Some d') ∧ d' ∈ ttemplate σ' data
        ∧ d' !! "text" = Some (VStr (truncate text))
        ∧ (2500 < String.length text →
             String.length (truncate text) = 2500
             ∧ truncate text = String.substring 0 2500 text
             ∧ ∃ rest, text = truncate text +:+ rest)
        ∧ (String.length text ≤ 2500 → truncate text = text).
Proof.
  intros Hgood Hfuel Hrun.
  destruct (render_call_returns jinja kwargs fuel σ v σ' data Hgood Hfuel Hrun)
    as [Hval _].
  exact (kept_text_cut jinja _ _ _ _ _ _ Hval).
Qed.

(** C9, amended. On a template of separate objects whose blocks have no
    status mapping and hold, in the fields that are rendered, only strings
    that the engine returns as they are (also the text after its truncation):
    when the call under [kwargs] returns [data], the call on [data] under the
    empty context returns as well, and its output has the value of [data]. *)
Theorem render_idempotent_on_plain_blocks fuel σ v kwargs σ' data :
  good_template σ v → 4 < fuel →
  Forall (plain_block jinja) (ttemplate σ v) →
  call fuel v kwargs σ = Some (σ', Ok data) →
  ∃ σ2 data2,
    call fuel data ∅ σ' = Some (σ2, Ok data2)
    ∧ ttemplate σ2 data2 = ttemplate σ' data.
Proof.
  intros Hgood Hfuel Hplain Hrun.
  destruct (render_call_returns jinja kwargs fuel σ v σ' data Hgood Hfuel Hrun)
    as [Hval Hgood'].
  pose proof (plain_blocks_render_again jinja _ _ _ Hplain Hval) as Hagain.
  destruct (render_call_follows jinja ∅ fuel σ' data Hgood' Hfuel)
    as (σ2 & r & Hrun2 & Hres).
  rewrite Hagain in Hres. destruct Hres as (data2 & -> & Hval2 & _).
  by exists σ2, data2.
Qed.

(** X15. On a template of separate objects the call fails exactly when a
    block fails, with the exception of the first block that does: the blocks
    after it are not rendered and no partial output is returned. It returns
    exactly when every block renders (or is skipped). *)
Theorem render_message_template_first_failure fuel σ v kwargs :
  good_template σ v → 4 < fuel →
  ∃ σ' r,
    call fuel v kwargs σ = Some (σ', r)
    ∧ (∀ e, r = Raise e
            ↔ ∃ before d after,
                ttemplate σ v = before ++ d :: after
                ∧ Forall (renders jinja kwargs) before
                ∧ render_block kwargs d = Raise e)
    ∧ ((∃ data, r = Ok data) ↔ Forall (renders jinja kwargs) (ttemplate σ v)).
Proof.
  intros Hgood Hfuel.
  destruct (render_call_follows jinja kwargs fuel σ v Hgood Hfuel)
    as (σ' & r & Hrun & Hres).
  exists σ', r. split; [done|].
  destruct (first_failure_by_value jinja (ttemplate σ v) kwargs) as [Hfail Hok].
  destruct (Strings.render_message_template jinja (ttemplate σ v) kwargs)
    as [out|e0].
  - destruct Hres as (data & -> & _ & _). split.
    + intros e. rewrite <- Hfail. split; intros [=].
    + rewrite <- Hok. split; intros _; by eexists.
  - subst r. split.
    + intros e. rewrite <- Hfail. split; intros [= ->]; done.
    + rewrite <- Hok. split; intros [? [=]].
Qed.

(** X16. On a template of separate objects, for a block of the input that is
    not dropped, and for each of the fields header, title, title_link,
    datetime and context: when the call returns and the field holds something
    (a non-empty string), the field of the rendered block in the output is the
    string that the engine renders from it; when it is missing, None or empty,
    it is left as it is. *)
Theorem simple_fields_rendered fuel σ v kwargs σ' data d k :
  good_template σ v → 4 < fuel →
  call fuel v kwargs σ = Some (σ', Ok data) →
  d ∈ ttemplate σ v →
  title_link_dropped kwargs d = false →
  k ∈ ["header"; "title"; "title_link"; "datetime"; "context"] →
  ∃ d', render_block kwargs d = Ok (Some d') ∧ d' ∈ ttemplate σ' data
        ∧ rendered_field jinja kwargs k d d'.
Proof.
  intros Hgood Hfuel Hrun.
  destruct (render_call_returns jinja kwargs fuel σ v σ' data Hgood Hfuel Hrun)
    as [Hval _].
  exact (kept_block_simple_fields jinja _ _ _ _ _ Hval).
Qed.

(** X18. On a template of separate objects, for a block of the input that is
    not dropped and has buttons: the buttons are a list, and when the call
    returns, the rendered block in the output has a list of as many buttons,
    each the rendering of the button at its place: its text and its value are
    strings, rendered by the engine; its action and its url are rendered when
    they hold something; every other key is unchanged. (So a call that returns
    has found a text and a value in every button.) *)
Theorem buttons_rendered fuel σ v kwargs σ' data d :
  good_template σ v → 4 < fuel →
  call fuel v kwargs σ = Some (σ', Ok data) →
  d ∈ ttemplate σ v →
  title_link_dropped kwargs d = false →
  Strings.truthy (Strings.dict_get d "buttons") = true →
  ∃ d' bs bs',
    render_block kwargs d = Ok (Some d') ∧ d' ∈ ttemplate σ' data
    ∧ d !! "buttons" = Some (VList bs)
    ∧ d' !! "buttons" = Some (VList bs')
    ∧ Forall2 (rendered_button jinja kwargs) bs bs'.
Proof.
  intros Hgood Hfuel Hrun.
  destruct (render_call_returns jinja kwargs fuel σ v σ' data Hgood Hfuel Hrun)
    as [Hval _].
  exact (kept_block_buttons jinja _ _ _ _ Hval).
Qed.

End call.

(** *** The theorems at concrete templates *)

(** The example heaps hold templates of separate objects, with the values
    of the examples by value. *)
Lemma ex_heap_links_good : good_template ex_heap_links (HRef 5).
Proof. apply (bool_decide_unpack _). vm_compute. exact I. Qed.

Lemma ex_heap_long_text_good : good_template ex_heap_long_text (HRef 2).
Proof. apply (bool_decide_unpack _). vm_compute. exact I. Qed.

Lemma ex_heap_plain_good : good_template ex_heap_plain (HRef 5).
Proof. apply (bool_decide_unpack _). vm_compute. exact I. Qed.

Lemma ex_heap_button_good : good_template ex_heap_button (HRef 4).
Proof. apply (bool_decide_unpack _). vm_compute. exact I. Qed.

Lemma ex_heap_broken_good : good_template ex_heap_broken (HRef 4).
Proof. apply (bool_decide_unpack _). vm_compute. exact I. Qed.

Lemma ex_heap_links_value : ttemplate ex_heap_links (HRef 5) = ex_tpl_links.
Proof. vm_compute. reflexivity. Qed.

Lemma ex_heap_long_text_value :
  ttemplate ex_heap_long_text (HRef 2) = [ex_block_long_text].
Proof. vm_compute. reflexivity. Qed.

Lemma ex_heap_plain_value : ttemplate ex_heap_plain (HRef 5) = ex_tpl_plain.
Proof. vm_compute. reflexivity. Qed.

Lemma ex_heap_button_value : ttemplate ex_heap_button (HRef 4) = [ex_block_button].
Proof. vm_compute. reflexivity. Qed.

Lemma title_link_blocks_dropped_witness :
  ∃ σ' data,
    ex_render_links = Some (σ', Ok data)
    ∧ ttemplate σ' data = ex_out_links
    ∧ Forall2 (λ d d', Strings.render_block ex_engine_undefined ∅ d = Ok (Some d'))
              (List.filter (λ d, negb (Strings.title_link_dropped
                                         ex_engine_undefined ∅ d))
                           (ttemplate ex_heap_links (HRef 5)))
              (ttemplate σ' data)
    ∧ length (ttemplate σ' data)
      = length (ttemplate ex_heap_links (HRef 5))
        - length (List.filter (Strings.title_link_dropped ex_engine_undefined ∅)
                              (ttemplate ex_heap_links (HRef 5))).
Proof.
  destruct ex_render_links as [[σ' [data|e]]|] eqn:Hex; try discriminate.
  exists σ', data. split; [done|].
  split; [injection Hex as <- <-; vm_compute; reflexivity|].
  destruct (title_link_blocks_dropped ex_engine_undefined 5 ex_heap_links (HRef 5) ∅
              σ' data) as (H1 & H2 & _).
  - exact ex_heap_links_good.
  - lia.
  - rewrite <- Hex. vm_compute. reflexivity.
  - by split.
Defined.

Lemma text_truncated_witness :
  ∃ σ' data d',
    ex_render_long_text = Some (σ', Ok data)
    ∧ Strings.render_block ex_engine ∅ ex_block_long_text = Ok (Some d')
    ∧ d' ∈ ttemplate σ' data
    ∧ d' !! "text" = Some (VStr (truncate ex_long_text))
    ∧ String.length ex_long_text = 2501
    ∧ String.length (truncate ex_long_text) = 2500.
Proof.
  destruct ex_render_long_text as [[σ' [data|e]]|] eqn:Hex; try discriminate.
  destruct (text_truncated ex_engine 5 ex_heap_long_text (HRef 2) ∅ σ' data
              ex_block_long_text ex_long_text ex_long_text)
    as (d' & Hb & Hin & Htext & Hlong & _).
  - exact ex_heap_long_text_good.
  - lia.
  - rewrite <- Hex. vm_compute. reflexivity.
  - rewrite ex_heap_long_text_value. left.
  - reflexivity.
  - reflexivity.
  - reflexivity.
  - discriminate.
  - reflexivity.
  - exists σ', data, d'. split; [done|]. split; [done|]. split; [done|].
    split; [done|]. split; [reflexivity|]. apply Hlong. vm_compute. lia.
Defined.

Lemma render_idempotent_on_plain_blocks_witness :
  ∃ σ' data,
    ex_render_plain = Some (σ', Ok data)
    ∧ length (ttemplate σ' data) = 1
    ∧ ∃ σ2 data2,
        StringsHeap.render_message_template ex_engine 5 data ∅ σ' = Some (σ2, Ok data2)
        ∧ ttemplate σ2 data2 = ttemplate σ' data.
Proof.
  destruct ex_render_plain as [[σ' [data|e]]|] eqn:Hex; try discriminate.
  exists σ', data. split; [done|].
  split; [injection Hex as <- <-; vm_compute; reflexivity|].
  apply (render_idempotent_on_plain_blocks ex_engine 5 ex_heap_plain (HRef 5)
           ex_kwargs_open σ' data).
  - exact ex_heap_plain_good.
  - lia.
  - rewrite ex_heap_plain_value. exact ex_tpl_plain_is_plain.
  - rewrite <- Hex. vm_compute. reflexivity.
Defined.

Lemma render_message_template_first_failure_witness :
  good_template ex_heap_broken (HRef 4)
  ∧ ∃ σ' r,
      StringsHeap.render_message_template ex_engine_failing 5 (HRef 4) ∅ ex_heap_broken
      = Some (σ', r)
      ∧ (∀ e, r = Raise e
              ↔ ∃ before d after,
                  ttemplate ex_heap_broken (HRef 4) = before ++ d :: after
                  ∧ Forall (renders ex_engine_failing ∅) before
                  ∧ Strings.render_block ex_engine_failing ∅ d = Raise e)
      ∧ ((∃ data, r = Ok data)
         ↔ Forall (renders ex_engine_failing ∅) (ttemplate ex_heap_broken (HRef 4))).
Proof.
  split; [exact ex_heap_broken_good|].
  apply render_message_template_first_failure; [exact ex_heap_broken_good|lia].
Defined.

Lemma simple_fields_rendered_witness :
  ∃ σ' data d',
    ex_render_button = Some (σ', Ok data)
    ∧ Strings.render_block ex_engine_failing ∅ ex_block_button = Ok (Some d')
    ∧ d' ∈ ttemplate σ' data
    ∧ rendered_field ex_engine_failing ∅ "title" ex_block_button d'.
Proof.
  destruct ex_render_button as [[σ' [data|e]]|] eqn:Hex; try discriminate.
  destruct (simple_fields_rendered ex_engine_failing 5 ex_heap_button (HRef 4) ∅
              σ' data ex_block_button "title") as (d' & Hd').
  - exact ex_heap_button_good.
  - lia.
  - rewrite <- Hex. vm_compute. reflexivity.
  - rewrite ex_heap_button_value. left.
  - reflexivity.
  - in_keys.
  - by exists σ', data, d'.
Defined.

Lemma buttons_rendered_witness :
  ∃ σ' data d' bs bs',
    ex_render_button = Some (σ', Ok data)
    ∧ Strings.render_block ex_engine_failing ∅ ex_block_button = Ok (Some d')
    ∧ d' ∈ ttemplate σ' data
    ∧ ex_block_button !! "buttons" = Some (VList bs)
    ∧ d' !! "buttons" = Some (VList bs')
    ∧ Forall2 (rendered_button ex_engine_failing ∅) bs bs'.
Proof.
  destruct ex_render_button as [[σ' [data|e]]|] eqn:Hex; try discriminate.
  destruct (buttons_rendered ex_engine_failing 5 ex_heap_button (HRef 4) ∅
              σ' data ex_block_button) as (d' & bs & bs' & Hd').
  - exact ex_heap_button_good.
  - lia.
  - rewrite <- Hex. vm_compute. reflexivity.
  - rewrite ex_heap_button_value. left.
  - reflexivity.
  - reflexivity.
  - by exists σ', data, d', bs, bs'.
Defined.

(** On the example with a broken template in the second block the call
    raises the exception of the engine. *)
Example ex_call_broken :
  ∃ σ', StringsHeap.render_message_template ex_engine_failing 5 (HRef 4) ∅
          ex_heap_broken = Some (σ', Raise TemplateError).
Proof. eexists. vm_compute. reflexivity. Qed.

End StringsCallFacts.

(** ** The revision: upgrade and downgrade *)

Module MigrationFacts.
Import Migration.

Lemma Table_eq (t t' : Table) :
  table_columns t = table_columns t' → table_rows t = table_rows t' → t = t'.
Proof. destruct t, t'. simpl. by intros -> ->. Qed.

(** X21. On a database whose service table has no column health_metrics,
    upgrade adds it as a nullable boolean, with NULL in every row, and leaves
    every other table as it is; downgrade then returns the database as it was
    before the upgrade; and a second upgrade fails, the column being there. *)
Theorem downgrade_undoes_upgrade db t :
  well_formed db →
  db !! "service" = Some t →
  table_columns t !! "health_metrics" = None →
  ∃ db1 t1,
    upgrade db = Done db1
    ∧ db1 !! "service" = Some t1
    ∧ table_columns t1 !! "health_metrics"
      = Some {| column_type := Boolean; nullable := true |}
    ∧ Forall2 (λ row row1, row1 = <["health_metrics" := Null]> row)
              (table_rows t) (table_rows t1)
    ∧ (∀ name, name ≠ "service" → db1 !! name = db !! name)
    ∧ well_formed db1
    ∧ downgrade db1 = Done db
    ∧ upgrade db1 = Failed DuplicateColumn.
Proof.
  intros Hwf Ht Hcol.
  set (t1 := {| table_columns := <["health_metrics" := {| column_type := Boolean;
                                                          nullable := true |}]>
                                   (table_columns t);
                table_rows := (λ row, <["health_metrics" := Null]> row)
                              <$> table_rows t |}).
  assert (upgrade db = Done (<["service" := t1]> db)) as Hup.
  { unfold upgrade, add_column. rewrite Ht.
    by rewrite bool_decide_eq_false_2 by (rewrite Hcol; by intros [? ?]). }
  exists (<["service" := t1]> db), t1.
  split_and!; try done.
  - apply lookup_insert_eq.
  - apply lookup_insert_eq.
  - apply Forall2_fmap_r, Forall_Forall2_diag, Forall_forall. done.
  - intros name Hne. by apply lookup_insert_ne.
  - intros name t' Hname. destruct (decide (name = "service")) as [->|Hne].
    + rewrite lookup_insert_eq in Hname. injection Hname as <-. simpl.
      apply Forall_fmap. eapply Forall_impl; [exact (Hwf _ _ Ht)|].
      intros row Hrow. simpl. by rewrite !dom_insert_L, Hrow.
    + rewrite lookup_insert_ne in Hname by done. by eapply Hwf.
  - unfold downgrade, drop_column. rewrite lookup_insert_eq.
    rewrite bool_decide_eq_true_2 by (simpl; rewrite lookup_insert_eq; by eexists).
    f_equal. rewrite insert_insert_eq. rewrite <- (insert_id db "service" t) at 2 by done.
    f_equal. apply Table_eq; simpl.
    + by apply delete_insert_id.
    + rewrite <- list_fmap_compose. rewrite <- (list_fmap_id (table_rows t)) at 2.
      apply Forall_fmap_ext. eapply Forall_impl; [exact (Hwf _ _ Ht)|].
      intros row Hrow. simpl. apply delete_insert_id.
      apply not_elem_of_dom. rewrite Hrow. by apply not_elem_of_dom.
  - unfold upgrade, add_column. rewrite lookup_insert_eq.
    by rewrite bool_decide_eq_true_2 by (simpl; rewrite lookup_insert_eq; by eexists).
Qed.

Lemma downgrade_undoes_upgrade_witness :
  ∃ db1 t1,
    upgrade ex_database = Done db1
    ∧ db1 !! "service" = Some t1
    ∧ table_columns t1 !! "health_metrics"
      = Some {| column_type := Boolean; nullable := true |}
    ∧ Forall2 (λ row row1, row1 = <["health_metrics" := Null]> row)
              (table_rows ex_service_table) (table_rows t1)
    ∧ (∀ name, name ≠ "service" → db1 !! name = ex_database !! name)
    ∧ well_formed db1
    ∧ downgrade db1 = Done ex_database
    ∧ upgrade db1 = Failed DuplicateColumn.
Proof.
  apply (downgrade_undoes_upgrade ex_database ex_service_table).
  - apply (bool_decide_unpack _). vm_compute. exact I.
  - reflexivity.
  - reflexivity.
Defined.

(** X22. downgrade discards the health metrics: on a database whose service
    table has the column, downgrade removes it (a second downgrade fails, the
    column being gone), and the upgrade that follows brings the column back
    with NULL in every row, whatever the rows held before; every other cell
    and every other table is as it was. *)
Theorem upgrade_after_downgrade_resets db t :
  db !! "service" = Some t →
  is_Some (table_columns t !! "health_metrics") →
  ∃ db0 db2 t2,
    downgrade db = Done db0
    ∧ downgrade db0 = Failed UndefinedColumn
    ∧ upgrade db0 = Done db2
    ∧ db2 !! "service" = Some t2
    ∧ table_columns t2
      = <["health_metrics" := {| column_type := Boolean; nullable := true |}]>
          (table_columns t)
    ∧ Forall2 (λ row row2, row2 = <["health_metrics" := Null]> row)
              (table_rows t) (table_rows t2)
    ∧ (∀ name, name ≠ "service" → db2 !! name = db !! name).
Proof.
  intros Ht Hcol.
  set (t0 := {| table_columns := base.delete "health_metrics" (table_columns t);
                table_rows := (λ row, base.delete "health_metrics" row)
                              <$> table_rows t |}).
  set (t2 := {| table_columns := <["health_metrics" := {| column_type := Boolean;
                                                          nullable := true |}]>
                                   (table_columns t0);
                table_rows := (λ row, <["health_metrics" := Null]> row)
                              <$> table_rows t0 |}).
  assert (table_columns t0 !! "health_metrics" = None) as Hcol0
    by apply lookup_delete_eq.
  exists (<["service" := t0]> db), (<["service" := t2]> (<["service" := t0]> db)), t2.
  split_and!.
  - unfold downgrade, drop_column. rewrite Ht. by rewrite bool_decide_eq_true_2.
  - unfold downgrade, drop_column. rewrite lookup_insert_eq.
    by rewrite bool_decide_eq_false_2 by (rewrite Hcol0; by intros [? ?]).
  - unfold upgrade, add_column. rewrite lookup_insert_eq.
    by rewrite bool_decide_eq_false_2 by (rewrite Hcol0; by intros [? ?]).
  - apply lookup_insert_eq.
  - simpl. apply insert_delete_eq.
  - simpl. rewrite <- list_fmap_compose.
    apply Forall2_fmap_r, Forall_Forall2_diag, Forall_forall.
    intros row _. simpl. by rewrite insert_delete_eq.
  - intros name Hne. by rewrite !lookup_insert_ne.
Qed.

Lemma upgrade_after_downgrade_resets_witness :
  ∃ db0 db2 t2,
    downgrade ex_database_upgraded = Done db0
    ∧ downgrade db0 = Failed UndefinedColumn
    ∧ upgrade db0 = Done db2
    ∧ db2 !! "service" = Some t2
    ∧ table_rows t2 = [ {[ "id" := Int 5; "name" := Str "oncall";
                           "health_metrics" := Null ]};
                        {[ "id" := Int 6; "name" := Null;
                           "health_metrics" := Null ]} ].
Proof.
  destruct (upgrade_after_downgrade_resets ex_database_upgraded
              {| table_columns := <["health_metrics" := {| column_type := Boolean;
                                                          nullable := true |}]>
                                    (table_columns ex_service_table);
                 table_rows := [ {[ "id" := Int 5; "name" := Str "oncall";
                                    "health_metrics" := Bool true ]};
                                 {[ "id" := Int 6; "name" := Null;
                                    "health_metrics" := Null ]} ] |})
    as (db0 & db2 & t2 & H0 & H00 & H2 & Ht2 & _ & Hrows & _).
  - reflexivity.
  - by eexists.
  - exists db0, db2, t2. split_and!; [done..|].
    simpl in Hrows.
    apply Forall2_cons_inv_l in Hrows as (r1 & rs & -> & Hrows & ->).
    apply Forall2_cons_inv_l in Hrows as (r2 & rs' & -> & Hrows & ->).
    apply Forall2_nil_inv_l in Hrows as ->.
    vm_compute. reflexivity.
Defined.

End MigrationFacts.
